(** * mqplan: the test-plan execution engine of meqa/mqplan/plan.go

    A shallow embedding of the parameter merge operations, the plan
    loader, the fuzz-failure corpus reader and writer, the summary and
    the recursive suite runner, followed by the properties the
    specification states about them.

    Conventions of the embedding.
    - Go's [interface{}] parameter values are never inspected by plan.go;
      they are an arbitrary type [Value].  A [FuzzValue] is used as a map
      key, so [Value] comes with decidable equality and a hash
      ([Countable]).
    - [map[string]T] is [gmap string T]; a nil map reads like the empty
      one.
    - Go's [int] counters are [Z]; they are bounded by slice lengths, so no
      wrap-around can occur.
    - Pointers to suites are modelled by the name under which the suite is
      registered in [SuiteMap] (the store); pointers to tests by the suite
      name and the index in its [Tests] slice.
    - Collaborators that live outside plan.go (the Test methods, the YAML
      decoder, the JSON codec, the file system) are parameters or are
      modelled from the specification, and are marked as such. *)

From Stdlib Require Import ZArith Ascii.
From stdpp Require Import gmap strings list fin_maps.

Local Open Scope Z_scope.

(* ===================================================================== *)
(** * Part I: the model                                                   *)
(* ===================================================================== *)

Section Model.
Context {Value : Type} `{!EqDecision Value, !Countable Value}.

(** ** Parameter bundles *)

(** [BodyParams interface{}]: the two type assertions of [Copy] and [Add]
    and the nil test of [Add] distinguish exactly three shapes. *)
Inductive Body :=
  | BodyNil
  | BodyMap (m : gmap string Value)
  | BodyValue (v : Value).

Record TestParams := mkTestParams {
  QueryParams : gmap string Value;
  FormParams : gmap string Value;
  PathParams : gmap string Value;
  HeaderParams : gmap string Value;
  BodyParams : Body
}.

(** The zero value of the struct. *)
Definition emptyParams : TestParams := mkTestParams ∅ ∅ ∅ ∅ BodyNil.

(** Modelled from the spec: [mqutil.MapCombine] is not part of plan.go.
    "source entries win on key conflict, destination-only entries are
    preserved". *)
Definition MapCombine (dst src : gmap string Value) : gmap string Value :=
  src ∪ dst.

(** Modelled from the spec: [mqutil.MapAdd] is not part of plan.go.
    "identical mapping-slot merge but destination wins on conflict
    (fill-only)". *)
Definition MapAdd (dst src : gmap string Value) : gmap string Value :=
  dst ∪ src.

(** [func (dst *TestParams) Copy(src *TestParams)] *)
Definition Copy (dst src : TestParams) : TestParams :=
  let q := MapCombine (QueryParams dst) (QueryParams src) in
  let f := MapCombine (FormParams dst) (FormParams src) in
  let p := MapCombine (PathParams dst) (PathParams src) in
  let h := MapCombine (HeaderParams dst) (HeaderParams src) in
  match BodyParams dst with
  | BodyMap caseMap =>
      match BodyParams src with
      | BodyMap testMap => mkTestParams q f p h (BodyMap (MapCombine caseMap testMap))
      | _ => mkTestParams q f p h (BodyParams src)
      end
  | _ => mkTestParams q f p h (BodyParams src)
  end.

(** [func (dst *TestParams) Add(src *TestParams)] *)
Definition Add (dst src : TestParams) : TestParams :=
  let q := MapAdd (QueryParams dst) (QueryParams src) in
  let f := MapAdd (FormParams dst) (FormParams src) in
  let p := MapAdd (PathParams dst) (PathParams src) in
  let h := MapAdd (HeaderParams dst) (HeaderParams src) in
  let fill :=
    match BodyParams dst with
    | BodyNil => BodyParams src
    | b => b
    end in
  match BodyParams dst with
  | BodyMap caseMap =>
      match BodyParams src with
      | BodyMap testMap => mkTestParams q f p h (BodyMap (MapAdd caseMap testMap))
      | _ => mkTestParams q f p h fill
      end
  | _ => mkTestParams q f p h fill
  end.

(** The four mapping slots, as the claims range over them. *)
Definition slots : list (TestParams → gmap string Value) :=
  [QueryParams; FormParams; PathParams; HeaderParams].

(** ** Tests, suites, failure records and the plan *)

(** Go's [error] values: a nil error is [None]. *)
Definition error := string.

(** Modelled from the spec: the [Test] struct is declared outside plan.go.
    "declared Name, optional Ref, HTTP method and path, a TestParams
    bundle, a Strict flag, and run-produced fields: response handle,
    schema-validation error, response-validation error, generic error".
    [Test_suite] is the back-link installed by [Init]; [Test_resp] is the
    status code of [resp.RawResponse], [None] when there is no response to
    dereference. *)
Record Test := mkTest {
  Test_Name : string;
  Test_Ref : string;
  Test_Method : string;
  Test_Path : string;
  Test_TestParams : TestParams;
  Test_Strict : bool;
  Test_suite : option string;
  Test_resp : option Z;
  Test_schemaError : option error;
  Test_responseError : option error;
  Test_err : option error
}.

Definition Test_with_Name (n : string) (t : Test) : Test :=
  mkTest n (Test_Ref t) (Test_Method t) (Test_Path t) (Test_TestParams t)
    (Test_Strict t) (Test_suite t) (Test_resp t) (Test_schemaError t)
    (Test_responseError t) (Test_err t).

Definition Test_with_Strict (b : bool) (t : Test) : Test :=
  mkTest (Test_Name t) (Test_Ref t) (Test_Method t) (Test_Path t)
    (Test_TestParams t) b (Test_suite t) (Test_resp t) (Test_schemaError t)
    (Test_responseError t) (Test_err t).

Definition Test_with_suite (s : option string) (t : Test) : Test :=
  mkTest (Test_Name t) (Test_Ref t) (Test_Method t) (Test_Path t)
    (Test_TestParams t) (Test_Strict t) s (Test_resp t) (Test_schemaError t)
    (Test_responseError t) (Test_err t).

Definition Test_with_err (e : option error) (t : Test) : Test :=
  mkTest (Test_Name t) (Test_Ref t) (Test_Method t) (Test_Path t)
    (Test_TestParams t) (Test_Strict t) (Test_suite t) (Test_resp t)
    (Test_schemaError t) (Test_responseError t) e.

(** [type TestSuite struct].  The [plan] back pointer and the schema store
    [db] are not represented: no function below reads them. *)
Record TestSuite := mkTestSuite {
  TestSuite_Tests : list Test;
  TestSuite_Name : string;
  TestSuite_TestParams : TestParams;
  TestSuite_Strict : bool;
  TestSuite_Username : string;
  TestSuite_Password : string;
  TestSuite_ApiToken : string;
  TestSuite_comment : string
}.

Definition TestSuite_with_Tests (ts : list Test) (c : TestSuite) : TestSuite :=
  mkTestSuite ts (TestSuite_Name c) (TestSuite_TestParams c) (TestSuite_Strict c)
    (TestSuite_Username c) (TestSuite_Password c) (TestSuite_ApiToken c)
    (TestSuite_comment c).

Definition TestSuite_with_defaults (p : TestParams) (b : bool) (c : TestSuite)
    : TestSuite :=
  mkTestSuite (TestSuite_Tests c) (TestSuite_Name c) p b
    (TestSuite_Username c) (TestSuite_Password c) (TestSuite_ApiToken c)
    (TestSuite_comment c).

(** Modelled from the spec: [mqutil.FuzzValue], "an immutable (value,
    fuzzType) pair used as a set-membership key; equality/hash must be
    derived from both fields". *)
Record FuzzValue := mkFuzzValue {
  FuzzValue_Value : Value;
  FuzzValue_FuzzType : string
}.

#[export] Instance FuzzValue_eq_dec : EqDecision FuzzValue.
Proof. solve_decision. Defined.

#[export] Instance FuzzValue_countable : Countable FuzzValue.
Proof.
  refine (inj_countable'
            (λ fv, (FuzzValue_Value fv, FuzzValue_FuzzType fv))
            (λ p, mkFuzzValue p.1 p.2) _).
  by intros [].
Defined.

(** Modelled from the spec: [mqswag.Payload], "endpoint, method, field
    name, the failing value, its fuzz type, and an optional metadata
    attachment". *)
Record Payload := mkPayload {
  Payload_Endpoint : string;
  Payload_Method : string;
  Payload_Field : string;
  Payload_Value : Value;
  Payload_FuzzType : string;
  Payload_Meta : option (gmap string Value)
}.

Definition Payload_with_Meta (meta : option (gmap string Value)) (v : Payload)
    : Payload :=
  mkPayload (Payload_Endpoint v) (Payload_Method v) (Payload_Field v)
    (Payload_Value v) (Payload_FuzzType v) meta.

(** endpoint->method->field->(value,fuzzType)->bool *)
Abbreviation FailuresMap :=
  (gmap string (gmap string (gmap string (gmap FuzzValue bool)))).

(** [type TestPlan struct].  [SuiteMap] is the store of suites;
    [SuiteList] holds the same pointers, that is, the names they are stored
    under.  [db] and [swagger] are not represented. *)
Record TestPlan := mkTestPlan {
  SuiteMap : gmap string TestSuite;
  SuiteList : list string;
  TestPlan_TestParams : TestParams;
  TestPlan_Strict : bool;
  BaseURL : string;
  TestPlan_Username : string;
  TestPlan_Password : string;
  TestPlan_ApiToken : string;
  resultList : list Test;
  ResultCounts : gmap string Z;
  OldFailuresMap : FailuresMap;
  NewFailures : list Payload;
  OtherFailures : list Payload;
  TestPlan_comment : string;
  FuzzType : string;
  Repro : bool
}.

Definition TestPlan_with_suites (m : gmap string TestSuite) (l : list string)
    (plan : TestPlan) : TestPlan :=
  mkTestPlan m l (TestPlan_TestParams plan) (TestPlan_Strict plan) (BaseURL plan)
    (TestPlan_Username plan) (TestPlan_Password plan) (TestPlan_ApiToken plan)
    (resultList plan) (ResultCounts plan) (OldFailuresMap plan)
    (NewFailures plan) (OtherFailures plan) (TestPlan_comment plan)
    (FuzzType plan) (Repro plan).

Definition TestPlan_with_defaults (p : TestParams) (b : bool) (plan : TestPlan)
    : TestPlan :=
  mkTestPlan (SuiteMap plan) (SuiteList plan) p b (BaseURL plan)
    (TestPlan_Username plan) (TestPlan_Password plan) (TestPlan_ApiToken plan)
    (resultList plan) (ResultCounts plan) (OldFailuresMap plan)
    (NewFailures plan) (OtherFailures plan) (TestPlan_comment plan)
    (FuzzType plan) (Repro plan).

Definition TestPlan_with_results (r : list Test) (nf : list Payload)
    (plan : TestPlan) : TestPlan :=
  mkTestPlan (SuiteMap plan) (SuiteList plan) (TestPlan_TestParams plan)
    (TestPlan_Strict plan) (BaseURL plan)
    (TestPlan_Username plan) (TestPlan_Password plan) (TestPlan_ApiToken plan)
    r (ResultCounts plan) (OldFailuresMap plan)
    nf (OtherFailures plan) (TestPlan_comment plan)
    (FuzzType plan) (Repro plan).

Definition TestPlan_with_failures (old : FailuresMap) (nf other : list Payload)
    (plan : TestPlan) : TestPlan :=
  mkTestPlan (SuiteMap plan) (SuiteList plan) (TestPlan_TestParams plan)
    (TestPlan_Strict plan) (BaseURL plan)
    (TestPlan_Username plan) (TestPlan_Password plan) (TestPlan_ApiToken plan)
    (resultList plan) (ResultCounts plan) old
    nf other (TestPlan_comment plan)
    (FuzzType plan) (Repro plan).

(** The zero value [TestPlan{}]. *)
Definition zeroPlan : TestPlan :=
  mkTestPlan ∅ [] emptyParams false "" "" "" "" [] ∅ ∅ [] [] "" "" false.

(** ** Constants *)

Definition MeqaInit : string := "meqa_init".
Definition MeqaFails : string := "mqfails.jsonl".
Definition NewFails : string := "newFails.jsonl".
Definition MetaFile : string := "meta.yml".

(** Modelled from the spec: the constants of [mqutil] and [mqswag] that
    plan.go names.  Their spelling is not in plan.go; the wildcard fuzz type
    is "all" in the spec, and of the counter labels only their being
    pairwise distinct matters. *)
Definition FuzzAll : string := "all".
Definition MethodPost : string := "post".
Definition Passed : string := "Passed".
Definition Failed : string := "Failed".
Definition Skipped : string := "Skipped".
Definition SchemaMismatch : string := "SchemaMismatch".
Definition Total : string := "Total".
Definition FuzzFails : string := "FuzzFails".
Definition FuzzTotal : string := "FuzzTotal".

(** ** Plan loader *)

(** The YAML decoder, a collaborator.  [yaml_Unmarshal] decodes a chunk
    into [map[string][]*Test] and yields its entries in the order in which
    the [range] statement of [AddFromString] visits them; the entries are
    those of a map, so that no name comes twice.  [yaml_UnmarshalMeta]
    decodes the metadata sidecar, [None] standing for the nil map that is
    left when nothing could be decoded. *)
Class YamlDecoder := {
  yaml_Unmarshal : string → error + list (string * list Test);
  yaml_UnmarshalMeta : string → option (gmap string Value);
  yaml_Unmarshal_NoDup data suiteMap :
    yaml_Unmarshal data = inr suiteMap → NoDup suiteMap.*1
}.
Context `{yaml : !YamlDecoder}.

(** Modelled from the spec: [Test.Init] is declared outside plan.go.
    "initialize every contained Test with a back-link to its suite". *)
Definition Init (suite : option string) (t : Test) : Test :=
  Test_with_suite suite t.

(** [func CreateTestSuite(name string, tests []*Test, plan *TestPlan)] *)
Definition CreateTestSuite (name : string) (tests : list Test) (plan : TestPlan)
    : TestSuite :=
  mkTestSuite tests name (Copy emptyParams (TestPlan_TestParams plan))
    (TestPlan_Strict plan) (TestPlan_Username plan) (TestPlan_Password plan)
    (TestPlan_ApiToken plan) "".

(** [func (plan *TestPlan) Add(testSuite *TestSuite) error] *)
Definition TestPlan_Add (plan : TestPlan) (testSuite : TestSuite)
    : TestPlan * option error :=
  match SuiteMap plan !! TestSuite_Name testSuite with
  | Some _ =>
      (plan,
       Some ("Duplicate name " +:+ TestSuite_Name testSuite +:+
             " found in test plan"))
  | None =>
      (TestPlan_with_suites
         (<[TestSuite_Name testSuite := testSuite]> (SuiteMap plan))
         (SuiteList plan ++ [TestSuite_Name testSuite]) plan,
       None)
  end.

(** The body of the inner loop over the tests of the [meqa_init] entry. *)
Definition applyGlobal (plan : TestPlan) (t : Test) : TestPlan :=
  let t' := Init None t in
  TestPlan_with_defaults
    (Copy (TestPlan_TestParams plan) (Test_TestParams t')) (Test_Strict t') plan.

(** The [range suiteMap] loop of [AddFromString]. *)
Fixpoint addSuites (plan : TestPlan) (suiteMap : list (string * list Test))
    : TestPlan * option error :=
  match suiteMap with
  | [] => (plan, None)
  | (suiteName, testList) :: rest =>
      if decide (suiteName = MeqaInit) then
        addSuites (foldl applyGlobal plan testList) rest
      else
        let testSuite := CreateTestSuite suiteName testList plan in
        let testSuite :=
          TestSuite_with_Tests (Init (Some suiteName) <$> testList) testSuite in
        match TestPlan_Add plan testSuite with
        | (plan', Some err) => (plan', Some err)
        | (plan', None) => addSuites plan' rest
        end
  end.

(** [func (plan *TestPlan) AddFromString(data string) error] *)
Definition AddFromString (plan : TestPlan) (data : string)
    : TestPlan * option error :=
  match yaml_Unmarshal data with
  | inl err => (plan, Some err)
  | inr suiteMap => addSuites plan suiteMap
  end.

(** [strings.Split(s, sep)] for a non-empty separator: [skip] counts the
    separator characters still to be dropped, [cur] is the piece being
    collected. *)
Fixpoint Split_from (sep : string) (skip : nat) (cur s : string) : list string :=
  match s with
  | EmptyString => [cur]
  | String c s' =>
      match skip with
      | S k => Split_from sep k cur s'
      | O =>
          if String.prefix sep s then
            cur :: Split_from sep (Nat.pred (String.length sep)) "" s'
          else Split_from sep O (cur +:+ String c "") s'
      end
  end.

Definition Split (s sep : string) : list string := Split_from sep O "" s.

(** The file system, as far as plan.go touches it: text files (the plan
    document, the metadata sidecar), corpus files as the sequence of JSON
    documents in them, one for each value that was encoded, and the paths
    that cannot be opened for writing. *)
Record FS := mkFS {
  fs_text : gmap string string;
  fs_records : gmap string (list string);
  fs_denied : gset string
}.

(** [filepath.Join(path, name)] for a clean directory path. *)
Definition Join (path name : string) : string := path +:+ "/" +:+ name.

(** [func (plan *TestPlan) Init(swagger *mqswag.Swagger, db *mqswag.DB)] *)
Definition TestPlan_Init (plan : TestPlan) : TestPlan :=
  TestPlan_with_results [] (NewFailures plan) (TestPlan_with_suites ∅ [] plan).

(** The [range chunks] loop of [InitFromFile]: the error of
    [AddFromString] is dropped. *)
Definition addChunks (plan : TestPlan) (chunks : list string) : TestPlan :=
  foldl (λ plan chunk, (AddFromString plan chunk).1) plan chunks.

(** [func (plan *TestPlan) InitFromFile(path string, db *mqswag.DB) error] *)
Definition InitFromFile (plan : TestPlan) (path : string) (fs : FS)
    : TestPlan * option error :=
  let plan := TestPlan_Init plan in
  match fs_text fs !! path with
  | None => (plan, Some ("open " +:+ path +:+ ": no such file or directory"))
  | Some data => (addChunks plan (Split data "---"), None)
  end.

(** ** Failure corpus *)

(** The JSON codec, a collaborator.  [json_Encode path v] is
    [Encoder.Encode(v)] on the encoder of the file at [path]: the document
    it appends to the file, or its error, in which case the file is taken
    to be as it was.  [json_Decode doc] is [Decoder.Decode(&v)] on the next
    document of the stream, for a fresh [v]. *)
Class JsonCodec := {
  json_Encode : string → Payload → error + string;
  json_Decode : string → error + Payload
}.
Context `{json : !JsonCodec}.

Definition lookupField (failures : FailuresMap) (e m f : string)
    : option (gmap FuzzValue bool) :=
  match failures !! e with
  | Some byMethod =>
      match byMethod !! m with
      | Some byField => byField !! f
      | None => None
      end
  | None => None
  end.

(** "Initialize the maps if they don't exist": the three [if ... == nil]
    statements of [ReadFails].  The inner maps are shared references in Go;
    here the enclosing entries are rewritten. *)
Definition ensurePath (e m f : string) (failures : FailuresMap) : FailuresMap :=
  let failures :=
    match failures !! e with
    | None => <[e := ∅]> failures
    | Some _ => failures
    end in
  let byMethod := default ∅ (failures !! e) in
  let failures :=
    match byMethod !! m with
    | None => <[e := <[m := ∅]> byMethod]> failures
    | Some _ => failures
    end in
  let byMethod := default ∅ (failures !! e) in
  let byField := default ∅ (byMethod !! m) in
  match byField !! f with
  | None => <[e := <[m := <[f := ∅]> byField]> byMethod]> failures
  | Some _ => failures
  end.

(** [failures[v.Endpoint][v.Method][v.Field][fuzzValue] = true] *)
Definition markFailure (e m f : string) (fv : FuzzValue) (failures : FailuresMap)
    : FailuresMap :=
  let byMethod := default ∅ (failures !! e) in
  let byField := default ∅ (byMethod !! m) in
  let values := default ∅ (byField !! f) in
  <[e := <[m := <[f := <[fv := true]> values]> byField]> byMethod]> failures.

(** The test that routes a record to [OldFailuresMap]. *)
Definition matchesFuzzType (plan : TestPlan) (v : Payload) : bool :=
  bool_decide (FuzzType plan = Payload_FuzzType v) ||
  bool_decide (FuzzType plan = FuzzAll).

Definition fuzzValueOf (v : Payload) : FuzzValue :=
  mkFuzzValue (Payload_Value v) (Payload_FuzzType v).

(** The decoding loop of [ReadFails]: the end of the list is [io.EOF].
    [plan.OldFailuresMap = failures] is reached at the end only. *)
Fixpoint decodeLoop (plan : TestPlan) (failures : FailuresMap)
    (docs : list string) : TestPlan * option error :=
  match docs with
  | [] =>
      (TestPlan_with_failures failures (NewFailures plan) (OtherFailures plan) plan,
       None)
  | doc :: rest =>
      match json_Decode doc with
      | inl err => (plan, Some err)
      | inr v =>
          let failures :=
            ensurePath (Payload_Endpoint v) (Payload_Method v) (Payload_Field v)
              failures in
          if matchesFuzzType plan v then
            decodeLoop plan
              (markFailure (Payload_Endpoint v) (Payload_Method v)
                 (Payload_Field v) (fuzzValueOf v) failures) rest
          else
            decodeLoop
              (TestPlan_with_failures (OldFailuresMap plan) (NewFailures plan)
                 (OtherFailures plan ++ [v]) plan)
              failures rest
      end
  end.

(** [func (plan *TestPlan) ReadFails(path string) error] *)
Definition ReadFails (plan : TestPlan) (path : string) (fs : FS)
    : TestPlan * option error :=
  match fs_records fs !! Join path MeqaFails with
  | None =>
      (plan, Some ("open " +:+ Join path MeqaFails +:+ ": no such file or directory"))
  | Some docs => decodeLoop plan ∅ docs
  end.

(** [func ReadMetadata(path string) map[string]interface{}]: a missing file
    leaves the data empty, and the decoder is still run on it. *)
Definition ReadMetadata (path : string) (fs : FS) : option (gmap string Value) :=
  yaml_UnmarshalMeta (default "" (fs_text fs !! Join path MetaFile)).

(** The first loop of [WriteFailures]: [d1.Encode(v)] for the records of
    [OtherFailures], up to the first error.  [file] is what the file
    holds. *)
Fixpoint encodeOthers (mq : string) (records : list Payload) (file : list string)
    : list string * option error :=
  match records with
  | [] => (file, None)
  | v :: rest =>
      match json_Encode mq v with
      | inl err => (file, Some err)
      | inr doc => encodeOthers mq rest (file ++ [doc])
      end
  end.

(** The second loop of [WriteFailures]: [v.Meta = meta], [d1.Encode(v)] and
    [d2.Encode(v)] for the records of [NewFailures], up to the first error.
    The records are updated in place: the result holds them as the loop
    leaves them, the ones it did not reach included. *)
Fixpoint encodeNew (mq nf : string) (meta : option (gmap string Value))
    (records : list Payload) (mqFile nfFile : list string)
    : list Payload * list string * list string * option error :=
  match records with
  | [] => ([], mqFile, nfFile, None)
  | v :: rest =>
      let v := Payload_with_Meta meta v in
      match json_Encode mq v with
      | inl err => (v :: rest, mqFile, nfFile, Some err)
      | inr doc1 =>
          match json_Encode nf v with
          | inl err => (v :: rest, mqFile ++ [doc1], nfFile, Some err)
          | inr doc2 =>
              let '(written, mqFile, nfFile, err) :=
                encodeNew mq nf meta rest (mqFile ++ [doc1]) (nfFile ++ [doc2]) in
              (v :: written, mqFile, nfFile, err)
          end
      end
  end.

(** [func (plan *TestPlan) WriteFailures(path string) error].  Opening fails
    on the paths of [fs_denied]; opening creates the file, and truncates it
    where the flags say so.  [v.Meta = meta] updates the records of
    [NewFailures] in place, so the plan is returned as well. *)
Definition WriteFailures (plan : TestPlan) (path : string) (fs : FS)
    : TestPlan * FS * option error :=
  let mq := Join path MeqaFails in
  let nf := Join path NewFails in
  if decide (mq ∈ fs_denied fs) then
    (plan, fs, Some ("open " +:+ mq +:+ ": permission denied"))
  else
    let kept := if Repro plan then [] else default [] (fs_records fs !! mq) in
    let fs := mkFS (fs_text fs) (<[mq := kept]> (fs_records fs)) (fs_denied fs) in
    if decide (nf ∈ fs_denied fs) then
      (plan, fs, Some ("open " +:+ nf +:+ ": permission denied"))
    else
      let fs := mkFS (fs_text fs) (<[nf := []]> (fs_records fs)) (fs_denied fs) in
      let meta := ReadMetadata path fs in
      let '(mqFile, err) :=
        if Repro plan then encodeOthers mq (OtherFailures plan) kept
        else (kept, None) in
      match err with
      | Some err =>
          (plan,
           mkFS (fs_text fs) (<[mq := mqFile]> (fs_records fs)) (fs_denied fs),
           Some err)
      | None =>
          let '(written, mqFile, nfFile, err) :=
            encodeNew mq nf meta (NewFailures plan) mqFile [] in
          (TestPlan_with_failures (OldFailuresMap plan) written
             (OtherFailures plan) plan,
           mkFS (fs_text fs)
             (<[nf := nfFile]> (<[mq := mqFile]> (fs_records fs)))
             (fs_denied fs),
           err)
      end.

(** ** Reporting *)

(** Modelled from the spec: the colour codes of [mqutil]; "colorized
    console reporting" is outside plan.go. *)
Inductive Color := GREEN | RED | YELLOW | AQUA | END.

(** What [PrintSummary] sends to the standard output: a colour code
    ([fmt.Print]), or a line with a label and a number ([fmt.Printf]). *)
Inductive Output :=
  | Escape (c : Color)
  | Line (label : string) (n : Z).

(** Reading a [map[string]int]: a missing key reads as 0. *)
Definition count (m : gmap string Z) (k : string) : Z := default 0 (m !! k).

(** [func (plan *TestPlan) PrintSummary()] *)
Definition PrintSummary (plan : TestPlan) : list Output :=
  [ Escape GREEN; Line Passed (count (ResultCounts plan) Passed);
    Escape RED; Line Failed (count (ResultCounts plan) Failed);
    Escape YELLOW; Line Skipped (count (ResultCounts plan) Skipped);
    Line SchemaMismatch (count (ResultCounts plan) SchemaMismatch);
    Escape AQUA; Line Total (count (ResultCounts plan) Total);
    Escape RED; Line FuzzFails (Z.of_nat (length (NewFailures plan)));
    Escape AQUA; Line FuzzTotal (count (ResultCounts plan) FuzzTotal);
    Escape END ].

(** ** Execution engine *)

(** The collaborators of [Run] that live outside plan.go, taken as an
    interface.  [World] is whatever the step runner talks to (the service
    under test).  The methods act on the duplicate they are called on and
    return it: [CopyParent dup parent], [ResolveHistoryParameters dup
    history], and [Test_Run world history plan tc dup], which yields the
    new world, the duplicate with its run-produced fields, the fuzz-failure
    records and the error; [history] is the history without the duplicate
    itself. *)
Class StepRunner := {
  World : Type;
  CopyParent : Test → Test → Test;
  ResolveHistoryParameters : Test → list Test → Test;
  Test_Run : World → list Test → TestPlan → TestSuite → Test →
             World * Test * list Payload * option error
}.
Context `{runner : !StepRunner}.

(** Modelled from the spec: [Test.SchemaDuplicate] is declared outside
    plan.go.  "Produce an independent duplicate of the test".  In a model
    of values the duplicate is the same record held somewhere else. *)
Definition SchemaDuplicate (t : Test) : Test := t.

(** The state [Run] works on: the plan, the global [History] and the
    world.  [History] holds pointers to the duplicates, so an entry shows
    the duplicate as the step left it. *)
Record Env := mkEnv {
  env_plan : TestPlan;
  env_History : list Test;
  env_world : World
}.

(** A [*Test]: a test declared in a suite of the plan, or one held by the
    caller only. *)
Inductive TestPtr :=
  | Declared (suite : string) (index : nat)
  | Detached (t : Test).

Definition deref (plan : TestPlan) (p : TestPtr) : option Test :=
  match p with
  | Declared suite index =>
      match SuiteMap plan !! suite with
      | Some tc => TestSuite_Tests tc !! index
      | None => None
      end
  | Detached t => Some t
  end.

(** Reading [parentTest] where it is not nil; [None] is a pointer that
    leads nowhere. *)
Definition derefParent (plan : TestPlan) (parentTest : option TestPtr)
    : option (option Test) :=
  match parentTest with
  | None => Some None
  | Some p =>
      match deref plan p with
      | Some parent => Some (Some parent)
      | None => None
      end
  end.

(** How a call of [Run] ends: it returns, or it panics on a nil pointer. *)
Inductive RunResult :=
  | Returned (resultCounts : gmap string Z) (err : option error)
  | Panicked.

(** [resultCounts[k] += n] *)
Definition incr (k : string) (n : Z) (m : gmap string Z) : gmap string Z :=
  <[k := count m k + n]> m.

(** Writes through the pointers [tc] and [test]. *)
Definition setSuite (env : Env) (name : string) (tc : TestSuite) : Env :=
  mkEnv
    (TestPlan_with_suites (<[name := tc]> (SuiteMap (env_plan env)))
       (SuiteList (env_plan env)) (env_plan env))
    (env_History env) (env_world env).

(** One concrete step: lines 445 to 482 of plan.go.  The result is the new
    state, the counters, [tcErr], and whether the loop goes on ([inl]) or
    is left ([inr]). *)
Definition runStep (env : Env) (tc : TestSuite) (i : nat) (test : Test)
    (parent : option Test) (resultCounts : gmap string Z) (tcErr : option error)
    : Env * (gmap string Z * option error + RunResult) :=
  let dup := SchemaDuplicate test in
  let dup := Test_with_Strict (TestSuite_Strict tc) dup in
  let dup := match parent with Some p => CopyParent dup p | None => dup end in
  let dup := ResolveHistoryParameters dup (env_History env) in
  let dup := match parent with
             | Some p => Test_with_Name (Test_Name p) dup
             | None => dup
             end in
  let '(world, dup, payloads, err) :=
    Test_Run (env_world env) (env_History env) (env_plan env) tc dup in
  let dup := Test_with_err err dup in
  let plan :=
    TestPlan_with_results (resultList (env_plan env) ++ [dup])
      (NewFailures (env_plan env) ++ payloads) (env_plan env) in
  let env := mkEnv plan (env_History env ++ [dup]) world in
  let resultCounts :=
    match Test_schemaError dup with
    | Some _ => incr SchemaMismatch 1 resultCounts
    | None => resultCounts
    end in
  let resultCounts :=
    match err with
    | Some _ => incr Failed 1 resultCounts
    | None => incr Passed 1 resultCounts
    end in
  let tcErr :=
    match err, tcErr with
    | Some e, None => Some e
    | _, _ => tcErr
    end in
  if bool_decide (Test_Method dup = MethodPost) &&
     bool_decide (size (PathParams (Test_TestParams dup)) = 0%nat) then
    match Test_resp dup with
    | None => (env, inr Panicked)
    | Some StatusCode =>
        if bool_decide (300 ≤ StatusCode) then
          (env,
           inr (Returned
                  (incr Skipped
                     (Z.of_nat (length (TestSuite_Tests tc)) - Z.of_nat i - 1)
                     resultCounts)
                  tcErr))
        else (env, inl (resultCounts, tcErr))
    end
  else (env, inl (resultCounts, tcErr)).

(** The [for i, test := range tc.Tests] loop of [Run]; [rec] is the
    recursive call, [todo] the number of tests still to visit.  [tc] and
    [test] are pointers, so they are read from the store on every round. *)
Fixpoint runTests (rec : Env → string → option TestPtr → option (Env * RunResult))
    (name : string) (parentTest : option TestPtr) (todo i : nat) (env : Env)
    (resultCounts : gmap string Z) (tcErr : option error)
    : option (Env * RunResult) :=
  match todo with
  | O => Some (env, Returned resultCounts tcErr)
  | S todo =>
      match deref (env_plan env) (Declared name i),
            SuiteMap (env_plan env) !! name with
      | Some test, Some tc =>
          if bool_decide (Test_Ref test ≠ "") then
            let tc' :=
              TestSuite_with_Tests
                (<[i := Test_with_Strict (TestSuite_Strict tc) test]>
                   (TestSuite_Tests tc)) tc in
            match rec (setSuite env name tc') (Test_Ref test)
                    (Some (Declared name i)) with
            | None => None
            | Some (env, Panicked) => Some (env, Panicked)
            | Some (env, Returned resultCounts (Some err)) =>
                Some (env, Returned resultCounts (Some err))
            | Some (env, Returned _ None) =>
                runTests rec name parentTest todo (S i) env resultCounts tcErr
            end
          else if bool_decide (Test_Name test = MeqaInit) then
            let tc' :=
              TestSuite_with_defaults
                (Copy (TestSuite_TestParams tc) (Test_TestParams test))
                (Test_Strict test) tc in
            runTests rec name parentTest todo (S i) (setSuite env name tc')
              resultCounts tcErr
          else
            match derefParent (env_plan env) parentTest with
            | None => Some (env, Panicked)
            | Some parent =>
                match runStep env tc i test parent resultCounts tcErr with
                | (env, inl (resultCounts, tcErr)) =>
                    runTests rec name parentTest todo (S i) env resultCounts tcErr
                | (env, inr result) => Some (env, result)
                end
            end
      | _, _ => Some (env, Panicked)
      end
  end.

(** [func (plan *TestPlan) Run(name string, parentTest *Test)
    (map[string]int, error)].  The recursion through [Ref] need not end;
    [fuel] bounds its depth and [None] means that the bound was reached. *)
Fixpoint Run (fuel : nat) (env : Env) (name : string) (parentTest : option TestPtr)
    : option (Env * RunResult) :=
  match fuel with
  | O => None
  | S fuel =>
      match SuiteMap (env_plan env) !! name with
      | Some tc =>
          if bool_decide (length (TestSuite_Tests tc) = 0%nat) then
            Some (env,
                  Returned ∅ (Some ("The following test suite is not found: " +:+ name)))
          else
            runTests (Run fuel) name parentTest (length (TestSuite_Tests tc)) 0
              env
              (<[Failed := 0]>
                 (<[Total := Z.of_nat (length (TestSuite_Tests tc))]> ∅))
              None
      | None =>
          Some (env,
                Returned ∅ (Some ("The following test suite is not found: " +:+ name)))
      end
  end.

(** ** Run history *)

(** [type TestHistory struct]: the slice [tests] is the state; the mutex
    guards calls that plan.go makes one after the other.

    The loop of [GetTest]: [n] is [i+1], the number of entries still to be
    looked at, from the last one down. *)
Fixpoint GetTest_from (tests : list Test) (name : string) (n : nat)
    : option Test :=
  match n with
  | O => None
  | S i =>
      match tests !! i with
      | Some t =>
          if decide (Test_Name t = name) then Some t
          else GetTest_from tests name i
      | None => None
      end
  end.

(** [func (h *TestHistory) GetTest(name string) *Test]: [None] is nil. *)
Definition GetTest (tests : list Test) (name : string) : option Test :=
  GetTest_from tests name (length tests).

(** [func (h *TestHistory) Append(t *Test)] *)
Definition Append (tests : list Test) (t : Test) : list Test := tests ++ [t].

(** ** Comments of a dumped plan *)

(** The line feed: the separator and the line end of [WriteComment]. *)
Definition LF : string := String "010"%char "".

(** [func WriteComment(comment string, f *os.File)]: the text that the
    calls of [f.WriteString] append to the file, one after the other. *)
Definition WriteComment (comment : string) : string :=
  foldl (λ written line, written +:+ ("# " +:+ line +:+ LF)) ""
    (Split comment LF).

End Model.

(* ===================================================================== *)
(** * Part II: vocabulary of the properties, and sample data              *)
(* ===================================================================== *)

Section Vocabulary.
Context {Value : Type} `{!EqDecision Value, !Countable Value}.

Abbreviation FailuresMap :=
  (gmap string (gmap string (gmap string (gmap (@FuzzValue Value) bool)))).

(** The endpoint, method and field of a record: its place in
    [OldFailuresMap]. *)
Definition pathOf (v : @Payload Value) : string * string * string :=
  (Payload_Endpoint v, Payload_Method v, Payload_Field v).

(** A record of the fuzz type under test: "its fuzz type matches the run's
    configured FuzzType or the configured type is the wildcard". *)
Definition underTest (plan : @TestPlan Value _ _) (v : @Payload Value) : Prop :=
  Payload_FuzzType v = FuzzType plan ∨ FuzzType plan = FuzzAll.

#[global] Instance underTest_dec plan v : Decision (underTest plan v).
Proof. unfold underTest. apply _. Defined.

(** The codec writes the documents [docs] for the records [records] into
    the file at [path], and reads the records [records] from the documents
    [docs]. *)
Definition Encodes `{json : !JsonCodec (Value := Value)} (path : string)
    (records : list (@Payload Value)) (docs : list string) : Prop :=
  Forall2 (λ v doc, json_Encode path v = inr doc) records docs.

Definition Decodes `{json : !JsonCodec (Value := Value)} (docs : list string)
    (records : list (@Payload Value)) : Prop :=
  Forall2 (λ doc v, json_Decode doc = inr v) docs records.

(** What one round of the decoding loop does to the local [failures]. *)
Definition recordStep (plan : @TestPlan Value _ _) (failures : FailuresMap)
    (v : @Payload Value) : FailuresMap :=
  let failures :=
    ensurePath (Payload_Endpoint v) (Payload_Method v) (Payload_Field v)
      failures in
  if matchesFuzzType plan v then
    markFailure (Payload_Endpoint v) (Payload_Method v) (Payload_Field v)
      (fuzzValueOf v) failures
  else failures.

(** [failures] holds exactly what the records [seen] put there: a path for
    every record, and under it the fuzz values of the records of the fuzz
    type under test. *)
Definition Tracks (plan : @TestPlan Value _ _) (failures : FailuresMap)
    (seen : list (@Payload Value)) : Prop :=
  ∀ e m f,
    (is_Some (lookupField failures e m f) ↔
       ∃ v, v ∈ seen ∧ pathOf v = (e, m, f)) ∧
    (∀ values fv b,
       lookupField failures e m f = Some values → values !! fv = Some b →
       b = true ∧
       ∃ v, v ∈ seen ∧ pathOf v = (e, m, f) ∧
            underTest plan v ∧ fuzzValueOf v = fv) ∧
    (∀ v, v ∈ seen → pathOf v = (e, m, f) → underTest plan v →
       ∃ values, lookupField failures e m f = Some values ∧
                 values !! fuzzValueOf v = Some true).

(** The identity of a fuzz failure: where it was observed and the fuzz
    input. *)
Definition failureKey (v : @Payload Value)
    : string * string * string * FuzzValue :=
  (pathOf v, fuzzValueOf v).

(** The number of distinct fuzz failures among [NewFailures], "identical
    fuzz inputs collapsed": the count the summary is said to report. *)
Definition distinctFuzzFailures (plan : @TestPlan Value _ _) : Z :=
  Z.of_nat (length (remove_dups (failureKey <$> NewFailures plan))).

(** The numbers the summary prints after [label]. *)
Definition reported (label : string) (out : list Output) : list Z :=
  omap (λ o, match o with
             | Line l n => if decide (l = label) then Some n else None
             | Escape _ => None
             end) out.

(** A declared test up to what a reference step writes into it: the
    [Strict] flag of a test that has a [Ref]. *)
Definition declaration (t : @Test Value) : Test :=
  if bool_decide (Test_Ref t ≠ "") then Test_with_Strict false t else t.

(** The declared tests of every suite of the plan, up to [declaration]. *)
Definition declarations (plan : @TestPlan Value _ _)
    : gmap string (list Test) :=
  (λ tc, declaration <$> TestSuite_Tests tc) <$> SuiteMap plan.

(** The message of [TestPlan.Add] for a name that is taken. *)
Definition duplicateName (name : string) : error :=
  "Duplicate name " +:+ name +:+ " found in test plan".

(** The condition of line 478 of plan.go, on the duplicate as the step
    left it. *)
Definition creationFailed (dup : @Test Value) (StatusCode : Z) : Prop :=
  Test_Method dup = MethodPost ∧
  size (PathParams (Test_TestParams dup)) = 0%nat ∧
  Test_resp dup = Some StatusCode ∧ 300 ≤ StatusCode.

(** What a call of [Run] returns to its caller, when it returns. *)
Definition returned `{runner : !StepRunner (Value := Value)}
    (r : option (Env * RunResult)) : option (gmap string Z * option error) :=
  match r with
  | Some (_, Returned resultCounts err) => Some (resultCounts, err)
  | _ => None
  end.

(** A step that is neither a reference nor a reconfiguration. *)
Definition concrete (t : @Test Value) : Prop :=
  Test_Ref t = "" ∧ Test_Name t ≠ MeqaInit.

(** The plan without what a run accumulates and without the suites'
    contents: the configuration. *)
Definition configuration (plan : @TestPlan Value _ _) : TestPlan :=
  TestPlan_with_results [] [] (TestPlan_with_suites ∅ (SuiteList plan) plan).

(** From [env] to [env']: the same duplicates were appended to
    [resultList] and to the history, failure records were appended to
    [NewFailures], and the configuration and the names of the suites are
    the same. *)
Definition Grows `{runner : !StepRunner (Value := Value)} (env env' : Env)
    : Prop :=
  ∃ executed payloads,
    resultList (env_plan env') = resultList (env_plan env) ++ executed ∧
    env_History env' = env_History env ++ executed ∧
    NewFailures (env_plan env') = NewFailures (env_plan env) ++ payloads ∧
    configuration (env_plan env') = configuration (env_plan env) ∧
    dom (SuiteMap (env_plan env')) = dom (SuiteMap (env_plan env)).

(** The counters and the error a call returns, against the duplicates it
    executed, for a suite of [n] steps. *)
Definition Tally (n : nat) (executed : list (@Test Value))
    (resultCounts : gmap string Z) (err : option error) : Prop :=
  count resultCounts Total = Z.of_nat n ∧
  count resultCounts Failed =
    Z.of_nat (length (filter (λ d, is_Some (Test_err d)) executed)) ∧
  count resultCounts Passed =
    Z.of_nat (length (filter (λ d, Test_err d = None) executed)) ∧
  count resultCounts SchemaMismatch =
    Z.of_nat (length (filter (λ d, is_Some (Test_schemaError d)) executed)) ∧
  count resultCounts Skipped = Z.of_nat n - Z.of_nat (length executed) ∧
  err = head (omap Test_err executed).

(** The counters and [tcErr] while the loop runs, against the duplicates
    executed so far: as [Tally], with nothing skipped yet. *)
Definition Counted (n : nat) (executed : list (@Test Value))
    (resultCounts : gmap string Z) (tcErr : option error) : Prop :=
  count resultCounts Total = Z.of_nat n ∧
  count resultCounts Failed =
    Z.of_nat (length (filter (λ d, is_Some (Test_err d)) executed)) ∧
  count resultCounts Passed =
    Z.of_nat (length (filter (λ d, Test_err d = None) executed)) ∧
  count resultCounts SchemaMismatch =
    Z.of_nat (length (filter (λ d, is_Some (Test_schemaError d)) executed)) ∧
  count resultCounts Skipped = 0 ∧
  tcErr = head (omap Test_err executed).

(** The number of tests of the suite [name]. *)
Definition suiteLength `{runner : !StepRunner (Value := Value)} (env : Env)
    (name : string) : option nat :=
  (λ tc, length (TestSuite_Tests tc)) <$> SuiteMap (env_plan env) !! name.

(** A plan whose list of suites and map of suites agree: no name is listed
    twice, the listed names are the bound ones, every suite is bound under
    its own name, and the reserved name is not bound. *)
Definition Registry (plan : @TestPlan Value _ _) : Prop :=
  NoDup (SuiteList plan) ∧
  (∀ name, name ∈ SuiteList plan ↔ is_Some (SuiteMap plan !! name)) ∧
  (∀ name tc, SuiteMap plan !! name = Some tc → TestSuite_Name tc = name) ∧
  SuiteMap plan !! MeqaInit = None.

(** Counters that add up: none is negative, the steps counted as passed,
    failed or skipped are at most [Total], and a schema mismatch is counted
    for an executed step only. *)
Definition Balanced (resultCounts : gmap string Z) : Prop :=
  0 ≤ count resultCounts Passed ∧ 0 ≤ count resultCounts Failed ∧
  0 ≤ count resultCounts Skipped ∧ 0 ≤ count resultCounts SchemaMismatch ∧
  count resultCounts Passed + count resultCounts Failed +
    count resultCounts Skipped ≤ count resultCounts Total ∧
  count resultCounts SchemaMismatch ≤
    count resultCounts Passed + count resultCounts Failed.

End Vocabulary.

(** A text without a line feed. *)
Fixpoint oneLine (s : string) : Prop :=
  match s with
  | EmptyString => True
  | String c s' => c ≠ "010"%char ∧ oneLine s'
  end.

(** ** Sample data: parameter values are strings *)

Module Sample.

Definition dstParams : @TestParams string :=
  mkTestParams {["limit" := "10"; "page" := "1"]} ∅ ∅ ∅
    (BodyMap {["name" := "rex"; "tag" := "dog"]}).

Definition srcParams : @TestParams string :=
  mkTestParams {["page" := "2"; "sort" := "asc"]} ∅ ∅ ∅
    (BodyMap {["name" := "tom"]}).

Definition scalarBody : @TestParams string :=
  mkTestParams ∅ ∅ ∅ ∅ (BodyValue "raw").

(** A declared step. *)
Definition step (name ref method path : string) (strict : bool) : @Test string :=
  mkTest name ref method path emptyParams strict None None None None None.

(** A toy decoder: it knows four documents. *)
#[export, refine] Instance yaml : YamlDecoder (Value := string) := {|
  yaml_Unmarshal chunk :=
    if decide (chunk = "pets-v1") then
      inr [("pets", [step "listPets" "" "get" "/pets" false])]
    else if decide (chunk = "pets-v2") then
      inr [("pets", [step "addPet" "" "post" "/pets" false])]
    else if decide (chunk = "users") then
      inr [("users", [step "listUsers" "" "get" "/users" false])]
    else if decide (chunk = "") then inr []
    else inl "yaml: unmarshal errors";
  yaml_UnmarshalMeta data :=
    if decide (data = "build: 42") then Some {["build" := "42"]} else None
|}.
Proof.
  intros data suiteMap. repeat case_decide; intros [= <-]; compute_done.
Defined.

(** The plan document: the name [pets] comes twice, and one chunk does not
    decode. *)
Definition planFS : FS :=
  mkFS {["plan.yml" := "pets-v1---pets-v2---: oops---users"]} ∅ ∅.

(** A toy service: the status of a call is decided by its path. *)
Definition statusOf (path : string) : Z :=
  if decide (path = "/fail") then 500
  else if decide (path = "/moved") then 301
  else 200.

Definition Test_with_resp (resp : option Z) (t : @Test string) : Test :=
  mkTest (Test_Name t) (Test_Ref t) (Test_Method t) (Test_Path t)
    (Test_TestParams t) (Test_Strict t) (Test_suite t) resp
    (Test_schemaError t) (Test_responseError t) (Test_err t).

(** A failure record. *)
Definition sqli (fuzzType : string) : @Payload string :=
  mkPayload "/pets" "post" "name" "' OR 1=1" fuzzType None.

(** A toy codec.  A document is the six fields of the record between
    bars; the metadata is [null], the empty mapping or a build number,
    other metadata cannot be written, and neither can the value [NaN]. *)
Definition metaText (meta : option (gmap string string)) : option string :=
  match meta with
  | None => Some "null"
  | Some m =>
      match m !! "build" with
      | Some b => if decide (m = {["build" := b]}) then Some ("build=" +:+ b) else None
      | None => if decide (m = ∅) then Some "{}" else None
      end
  end.

Definition textMeta (s : string) : option (option (gmap string string)) :=
  if decide (s = "null") then Some None
  else if decide (s = "{}") then Some (Some ∅)
  else match Split s "=" with
       | [k; b] => if decide (k = "build") then Some (Some {["build" := b]}) else None
       | _ => None
       end.

#[export] Instance json : JsonCodec (Value := string) := {|
  json_Encode path v :=
    if decide (Payload_Value v = "NaN") then inl "json: unsupported value: NaN"
    else match metaText (Payload_Meta v) with
         | None => inl "json: unsupported type"
         | Some meta =>
             inr (Payload_Endpoint v +:+ "|" +:+ Payload_Method v +:+ "|" +:+
                  Payload_Field v +:+ "|" +:+ Payload_Value v +:+ "|" +:+
                  Payload_FuzzType v +:+ "|" +:+ meta)
         end;
  json_Decode doc :=
    match Split doc "|" with
    | [e; m; f; value; fuzzType; meta] =>
        match textMeta meta with
        | Some meta => inr (mkPayload e m f value fuzzType meta)
        | None => inl "json: cannot unmarshal the metadata"
        end
    | _ => inl "unexpected end of JSON input"
    end
|}.

(** A failure of the fuzz type [xss] at another endpoint. *)
Definition script : @Payload string :=
  mkPayload "/users" "post" "email" "<script>" "xss" None.

(** The documents of [sqli "sql"], [sqli "xss"] and [script], and those of
    the first two with the build number of [corpusFS]. *)
Definition sqlDoc : string := "/pets|post|name|' OR 1=1|sql|null".
Definition xssDoc : string := "/pets|post|name|' OR 1=1|xss|null".
Definition scriptDoc : string := "/users|post|email|<script>|xss|null".
Definition sqlBuild : string := "/pets|post|name|' OR 1=1|sql|build=42".

(** The metadata of [corpusFS]. *)
Definition build42 : option (gmap string string) := Some {["build" := "42"]}.

(** The world is the log of the paths that were called; a call of [/fuzz]
    reports a fuzz failure. *)
#[export] Instance runner : StepRunner (Value := string) := {|
  World := list string;
  CopyParent dup parent := Test_with_Strict (Test_Strict parent) dup;
  ResolveHistoryParameters dup history := dup;
  Test_Run world history plan tc dup :=
    (world ++ [Test_Path dup],
     Test_with_resp (Some (statusOf (Test_Path dup))) dup,
     (if decide (Test_Path dup = "/fuzz") then [sqli "sql"] else []),
     if bool_decide (400 ≤ statusOf (Test_Path dup))
     then Some "unexpected status" else None)
|}.

Definition suite (name : string) (tests : list Test) (strict : bool)
    : @TestSuite string :=
  mkTestSuite tests name emptyParams strict "" "" "" "".

Definition planOf (suites : list (@TestSuite string)) : @TestPlan string _ _ :=
  TestPlan_with_suites
    (list_to_map ((λ tc, (TestSuite_Name tc, tc)) <$> suites))
    (TestSuite_Name <$> suites) zeroPlan.

Definition envOf (suites : list (@TestSuite string)) : Env :=
  mkEnv (planOf suites) [] [].

(** Four steps, the second one a creation that fails. *)
Definition crudSuite : @TestSuite string :=
  suite "crud"
    [ step "list" "" "get" "/pets" false;
      step "create" "" "post" "/fail" false;
      step "read" "" "get" "/pets" false;
      step "remove" "" "delete" "/pets" false ] false.

Definition crud : list (@TestSuite string) := [crudSuite].

(** A suite that calls another one and then runs a step of its own; the
    reference is declared strict, its suite is not. *)
Definition callInner : @Test string := step "call" "inner" "" "" true.
Definition listPets : @Test string := step "list" "" "get" "/pets" false.

Definition outerSuite : @TestSuite string :=
  suite "outer" [callInner; listPets] false.

Definition innerSuite : @TestSuite string :=
  suite "inner" [step "ping" "" "get" "/ping" false] false.

Definition nested : list (@TestSuite string) := [outerSuite; innerSuite].

(** The state in which the reference step of [outerSuite] makes its
    call: the suite's [Strict] flag has been written into the step. *)
Definition nestedAtCall : Env :=
  setSuite (envOf nested) "outer"
    (TestSuite_with_Tests
       (<[0%nat := Test_with_Strict (TestSuite_Strict outerSuite) callInner]>
          (TestSuite_Tests outerSuite)) outerSuite).

(** The counters [Run] starts a suite of [n] tests with. *)
Definition startCounters (n : Z) : gmap string Z :=
  <[Failed := 0]> (<[Total := n]> ∅).

(** A suite that meets the same fuzz failure twice. *)
Definition fuzzSuite : @TestSuite string :=
  suite "fuzz"
    [ step "first" "" "get" "/fuzz" false;
      step "again" "" "get" "/fuzz" false ] false.

(** A corpus directory. *)
Definition corpusFS : FS :=
  mkFS {["run/meta.yml" := "build: 42"]} ∅ ∅.

(** A corpus with one record of a fuzz type and one of another. *)
Definition knownFS : FS :=
  mkFS ∅ {["run/mqfails.jsonl" := [sqlDoc; xssDoc]]} ∅.

(** The suite the first chunk of [planFS] registers. *)
Definition petsSuite : @TestSuite string :=
  mkTestSuite [Init (Some "pets") (step "listPets" "" "get" "/pets" false)]
    "pets" emptyParams false "" "" "" "".

Definition usersSuite : @TestSuite string :=
  mkTestSuite [Init (Some "users") (step "listUsers" "" "get" "/users" false)]
    "users" emptyParams false "" "" "" "".

Definition fuzzPlan (fuzzType : string) (failures : list (@Payload string))
    : @TestPlan string _ _ :=
  mkTestPlan ∅ [] emptyParams false "" "" "" "" [] ∅ ∅ failures [] ""
    fuzzType false.

Definition twoFailures : @TestPlan string _ _ :=
  fuzzPlan "sql" [sqli "sql"; sqli "xss"].

Definition xssOnly : @TestPlan string _ _ := fuzzPlan "xss" [].



(** A corpus whose second document does not decode. *)
Definition truncatedFS : FS :=
  mkFS ∅ {["run/mqfails.jsonl" := [sqlDoc; "{"; xssDoc]]} ∅.

(** The plan [ReadFails] leaves when [xssOnly] reads [knownFS]. *)
Definition afterRead : @TestPlan string _ _ := (ReadFails xssOnly "run" knownFS).1.

(** The text of the plan document, its chunks but the last, the tests of
    its second chunk, and the plan after its first chunk. *)
Definition planText : string := "pets-v1---pets-v2---: oops---users".
Definition firstChunks : list string := ["pets-v1"; "pets-v2"; ": oops"].
Definition addPet : list (@Test string) := [step "addPet" "" "post" "/pets" false].
Definition afterFirstChunk : @TestPlan string _ _ :=
  (AddFromString (TestPlan_Init zeroPlan) "pets-v1").1.

End Sample.

(** ** Sample data: plan documents with defaults *)

Module Defaults.

(** An entry of [meqa_init] that sets a page size and makes the plan
    strict, and one that sets a sort order and leaves it lax. *)
Definition strictDefaults : @Test string :=
  mkTest "defaults" "" "" ""
    (mkTestParams {["limit" := "10"]} ∅ ∅ ∅ BodyNil) true
    None None None None None.

Definition laxDefaults : @Test string :=
  mkTest "sorting" "" "" ""
    (mkTestParams {["limit" := "5"; "sort" := "asc"]} ∅ ∅ ∅ BodyNil) false
    None None None None None.

Definition listOrders : @Test string := Sample.step "listOrders" "" "get" "/orders" false.

(** A toy decoder: it knows three documents.  The list it returns is the
    order in which the [range] loop meets the entries. *)
#[export, refine] Instance yaml : YamlDecoder (Value := string) := {|
  yaml_Unmarshal chunk :=
    if decide (chunk = "init-then-orders") then
      inr [(MeqaInit, [strictDefaults]); ("orders", [listOrders])]
    else if decide (chunk = "orders-then-init") then
      inr [("orders", [listOrders]); (MeqaInit, [strictDefaults])]
    else if decide (chunk = "init") then
      inr [(MeqaInit, [laxDefaults; strictDefaults])]
    else inl "yaml: unmarshal errors";
  yaml_UnmarshalMeta data := None
|}.
Proof.
  intros data suiteMap. repeat case_decide; intros [= <-]; compute_done.
Defined.

(** The defaults after [strictDefaults], and after both entries. *)
Definition limit10 : @TestParams string := mkTestParams {["limit" := "10"]} ∅ ∅ ∅ BodyNil.

Definition limit10Sorted : @TestParams string :=
  mkTestParams {["limit" := "10"; "sort" := "asc"]} ∅ ∅ ∅ BodyNil.

(** The suite [orders], created with the given defaults. *)
Definition ordersSuite (defaults : @TestParams string) (strict : bool)
    : @TestSuite string :=
  mkTestSuite [Init (Some "orders") listOrders] "orders" defaults strict "" "" "" "".

(** A plan document of one chunk. *)
Definition ordersFS : FS :=
  mkFS {["orders.yml" := "init-then-orders"]} ∅ ∅.

End Defaults.

(** ** Sample data: further suites and corpora *)

Module Cases.
Import Sample.

(** A suite whose second step calls a suite that is not in the plan. *)
Definition callNowhere : @Test string := step "call" "nowhere" "" "" true.

Definition brokenSuite : @TestSuite string :=
  suite "broken" [listPets; callNowhere; listPets] false.

Definition broken : list (@TestSuite string) := [brokenSuite].

(** The corpus of [knownFS] in another directory, in another order and
    with a record repeated. *)
Definition shuffledFS : FS :=
  mkFS ∅ {["again/mqfails.jsonl" := [xssDoc; sqlDoc; xssDoc]]} ∅.

(** A repro run for the fuzz type [xss] that has read [knownFS] and found
    [script]. *)
Definition reproPlan : @TestPlan string _ _ :=
  mkTestPlan ∅ [] emptyParams false "" "" "" "" [] ∅
    (OldFailuresMap afterRead) [script] (OtherFailures afterRead) "" "xss" true.

(** A history of three executed tests, two of them named [list]. *)
Definition history : list (@Test string) :=
  [ step "list" "" "get" "/pets" false;
    step "create" "" "post" "/pets" false;
    step "list" "" "get" "/pets?page=2" false ].

(** The corpus of [knownFS] in a directory where the run-scoped file cannot
    be opened. *)
Definition lockedFS : FS :=
  mkFS ∅ {["run/mqfails.jsonl" := [sqlDoc; xssDoc]]} {[Join "run" NewFails]}.

(** A record whose value cannot be encoded. *)
Definition nan : @Payload string :=
  mkPayload "/pets" "post" "age" "NaN" "float" None.

(** A repro run for the fuzz type [xss] that carries [sqli "sql"] and [nan]
    from the corpus and found [script]. *)
Definition reproNaN : @TestPlan string _ _ :=
  mkTestPlan ∅ [] emptyParams false "" "" "" "" [] ∅
    ∅ [script] [sqli "sql"; nan] "" "xss" true.

(** A run in append mode whose second failure cannot be encoded. *)
Definition threeFailures : @TestPlan string _ _ :=
  fuzzPlan "sql" [sqli "sql"; nan; script].

(** The plan of [nested], about to run after the tests of [history]. *)
Definition resumed : Env := mkEnv (planOf nested) history [].

End Cases.

(* ===================================================================== *)
(** * Part III: properties                                                *)
(* ===================================================================== *)

Section ParameterModel.
Context {Value : Type}.
Implicit Types dst src : @TestParams Value.

Lemma elem_of_slots (slot : @TestParams Value → gmap string Value) :
  slot ∈ slots →
  slot = QueryParams ∨ slot = FormParams ∨ slot = PathParams ∨ slot = HeaderParams.
Proof. unfold slots. rewrite !elem_of_cons, elem_of_nil. tauto. Qed.

Lemma MapCombine_lookup (d s : gmap string Value) k :
  MapCombine d s !! k = match s !! k with Some v => Some v | None => d !! k end.
Proof.
  unfold MapCombine. destruct (s !! k) as [v|] eqn:Hs.
  - by apply lookup_union_Some_l.
  - by rewrite lookup_union_r.
Qed.

Lemma MapAdd_lookup (d s : gmap string Value) k :
  MapAdd d s !! k = match d !! k with Some v => Some v | None => s !! k end.
Proof. unfold MapAdd. apply (MapCombine_lookup s d). Qed.

Lemma Copy_slot dst src slot :
  slot ∈ slots → slot (Copy dst src) = MapCombine (slot dst) (slot src).
Proof.
  intros Hs. apply elem_of_slots in Hs. unfold Copy.
  destruct (BodyParams dst), (BodyParams src);
    destruct Hs as [->|[->|[->| ->]]]; reflexivity.
Qed.

Lemma Add_slot dst src slot :
  slot ∈ slots → slot (Add dst src) = MapAdd (slot dst) (slot src).
Proof.
  intros Hs. apply elem_of_slots in Hs. unfold Add.
  destruct (BodyParams dst), (BodyParams src);
    destruct Hs as [->|[->|[->| ->]]]; reflexivity.
Qed.

Lemma MapCombine_empty_l (s : gmap string Value) : MapCombine ∅ s = s.
Proof. unfold MapCombine. apply (right_id_L ∅ (∪)). Qed.

Lemma MapCombine_empty_r (d : gmap string Value) : MapCombine d ∅ = d.
Proof. unfold MapCombine. apply (left_id_L ∅ (∪)). Qed.

(** C4.  [Copy dst src]: in each of the four mapping slots a key of [src]
    carries [src]'s value (in particular on a key present in both) and a
    key only in [dst] keeps [dst]'s value; two mapping bodies are merged
    with [src] winning; in every other case the body of [dst] is replaced
    by that of [src], also when the latter is absent; an empty bundle on
    either side gives a plain result. *)
Theorem Copy_source_wins dst src :
  (∀ slot k, slot ∈ slots →
     (is_Some (slot src !! k) → slot (Copy dst src) !! k = slot src !! k) ∧
     (slot src !! k = None → slot (Copy dst src) !! k = slot dst !! k)) ∧
  (∀ caseMap testMap,
     BodyParams dst = BodyMap caseMap → BodyParams src = BodyMap testMap →
     ∃ merged, BodyParams (Copy dst src) = BodyMap merged ∧
       ∀ k, (is_Some (testMap !! k) → merged !! k = testMap !! k) ∧
            (testMap !! k = None → merged !! k = caseMap !! k)) ∧
  ((∀ m, BodyParams dst ≠ BodyMap m) ∨ (∀ m, BodyParams src ≠ BodyMap m) →
     BodyParams (Copy dst src) = BodyParams src) ∧
  Copy emptyParams src = src ∧
  Copy dst emptyParams =
    mkTestParams (QueryParams dst) (FormParams dst) (PathParams dst)
      (HeaderParams dst) BodyNil.
Proof.
  split; [|split; [|split; [|split]]].
  - intros slot k Hslot. rewrite (Copy_slot _ _ _ Hslot), MapCombine_lookup.
    split.
    + by intros [v ->].
    + by intros ->.
  - intros caseMap testMap Hd Hs. exists (MapCombine caseMap testMap). split.
    + unfold Copy. rewrite Hd, Hs. reflexivity.
    + intros k. rewrite MapCombine_lookup. split.
      * intros [v ->]. reflexivity.
      * intros ->. reflexivity.
  - intros Hno. unfold Copy.
    destruct (BodyParams dst) as [|cm|] eqn:Hd; try reflexivity.
    destruct (BodyParams src) as [|tm|] eqn:Hs; try reflexivity.
    destruct Hno as [Hno|Hno]; [by destruct (Hno cm) | by destruct (Hno tm)].
  - destruct src as [q f p h b]. unfold Copy. simpl.
    by rewrite !MapCombine_empty_l.
  - unfold Copy. simpl. rewrite !MapCombine_empty_r.
    by destruct (BodyParams dst).
Qed.

(** C5.  [Add dst src]: in each of the four mapping slots a key of [dst]
    keeps its value and a key only in [src] is copied; two mapping bodies
    are merged with [dst] winning; otherwise the body of [dst] stays as it
    is, except that an unset body adopts that of [src]. *)
Theorem Add_destination_wins dst src :
  (∀ slot k, slot ∈ slots →
     (is_Some (slot dst !! k) → slot (Add dst src) !! k = slot dst !! k) ∧
     (slot dst !! k = None → slot (Add dst src) !! k = slot src !! k)) ∧
  (∀ caseMap testMap,
     BodyParams dst = BodyMap caseMap → BodyParams src = BodyMap testMap →
     ∃ merged, BodyParams (Add dst src) = BodyMap merged ∧
       ∀ k, (is_Some (caseMap !! k) → merged !! k = caseMap !! k) ∧
            (caseMap !! k = None → merged !! k = testMap !! k)) ∧
  ((∀ m, BodyParams dst ≠ BodyMap m) ∨ (∀ m, BodyParams src ≠ BodyMap m) →
     (BodyParams dst ≠ BodyNil → BodyParams (Add dst src) = BodyParams dst) ∧
     (BodyParams dst = BodyNil → BodyParams (Add dst src) = BodyParams src)).
Proof.
  split; [|split].
  - intros slot k Hslot. rewrite (Add_slot _ _ _ Hslot), MapAdd_lookup. split.
    + by intros [v ->].
    + by intros ->.
  - intros caseMap testMap Hd Hs. exists (MapAdd caseMap testMap). split.
    + unfold Add. rewrite Hd, Hs. reflexivity.
    + intros k. rewrite MapAdd_lookup. split.
      * by intros [v ->].
      * by intros ->.
  - intros Hno. split.
    + intros Hset. unfold Add.
      destruct (BodyParams dst) as [|cm|] eqn:Hd; try done.
      destruct (BodyParams src) as [|tm|] eqn:Hs; try done.
      destruct Hno as [Hno|Hno]; [by destruct (Hno cm) | by destruct (Hno tm)].
    + intros Hnil. unfold Add. rewrite Hnil. reflexivity.
Qed.

End ParameterModel.

(** ** Plan loader *)

Section Loader.
Context {Value : Type} `{!EqDecision Value, !Countable Value}.
Context `{yaml : !YamlDecoder (Value := Value)}.
Implicit Types (plan : @TestPlan Value _ _) (testSuite : @TestSuite Value)
  (suiteMap : list (string * list (@Test Value))).

Lemma SuiteMap_applyGlobal plan tests :
  SuiteMap (foldl applyGlobal plan tests) = SuiteMap plan ∧
  SuiteList (foldl applyGlobal plan tests) = SuiteList plan.
Proof.
  revert plan. induction tests as [|t tests IH]; intros plan; [done|].
  simpl. destruct (IH (applyGlobal plan t)) as [-> ->]. done.
Qed.

(** A rejected [Add] hands the plan back as it was. *)
Lemma TestPlan_Add_duplicate plan testSuite :
  is_Some (SuiteMap plan !! TestSuite_Name testSuite) →
  TestPlan_Add plan testSuite =
    (plan, Some (duplicateName (TestSuite_Name testSuite))).
Proof. intros [tc Htc]. unfold TestPlan_Add. by rewrite Htc. Qed.

Lemma TestPlan_Add_fresh plan testSuite plan' :
  TestPlan_Add plan testSuite = (plan', None) →
  SuiteMap plan !! TestSuite_Name testSuite = None ∧
  SuiteMap plan' = <[TestSuite_Name testSuite := testSuite]> (SuiteMap plan).
Proof.
  unfold TestPlan_Add.
  destruct (SuiteMap plan !! TestSuite_Name testSuite) eqn:Hfree; [done|].
  by intros [= <-].
Qed.

Lemma TestPlan_Add_mono plan testSuite :
  SuiteMap plan ⊆ SuiteMap (TestPlan_Add plan testSuite).1.
Proof.
  unfold TestPlan_Add.
  destruct (SuiteMap plan !! TestSuite_Name testSuite) eqn:Hfree; [done|].
  simpl. by apply insert_subseteq.
Qed.

Lemma addSuites_mono suiteMap plan :
  SuiteMap plan ⊆ SuiteMap (addSuites plan suiteMap).1.
Proof.
  revert plan. induction suiteMap as [|[suiteName testList] rest IH]; intros plan.
  - done.
  - simpl. case_decide.
    + etrans; [|apply IH]. by rewrite (proj1 (SuiteMap_applyGlobal _ _)).
    + pose proof (TestPlan_Add_mono plan
        (TestSuite_with_Tests (Init (Some suiteName) <$> testList)
           (CreateTestSuite suiteName testList plan))) as Hadd.
      destruct (TestPlan_Add plan _) as [plan' [err|]]; [done|].
      etrans; [exact Hadd|apply IH].
Qed.

Lemma AddFromString_mono plan data :
  SuiteMap plan ⊆ SuiteMap (AddFromString plan data).1.
Proof.
  unfold AddFromString. destruct (yaml_Unmarshal data); [done|].
  apply addSuites_mono.
Qed.

Lemma addChunks_mono chunks plan :
  SuiteMap plan ⊆ SuiteMap (addChunks plan chunks).
Proof.
  revert plan. induction chunks as [|chunk chunks IH]; intros plan; [done|].
  etrans; [apply (AddFromString_mono plan chunk)|apply IH].
Qed.

Lemma addChunks_app plan before after :
  addChunks plan (before ++ after) = addChunks (addChunks plan before) after.
Proof. apply foldl_app. Qed.

(** An entry that went through [addSuites] without an error is registered. *)
Lemma addSuites_registers suiteMap plan plan1 name :
  addSuites plan suiteMap = (plan1, None) →
  name ≠ MeqaInit →
  is_Some (SuiteMap plan !! name) ∨ name ∈ suiteMap.*1 →
  is_Some (SuiteMap plan1 !! name).
Proof.
  revert plan. induction suiteMap as [|[suiteName testList] rest IH];
    intros plan Hrun Hname Hin.
  - injection Hrun as <-. destruct Hin as [?|Hin]; [done|].
    by apply elem_of_nil in Hin.
  - simpl in Hrun. case_decide as Hinit.
    + apply IH in Hrun; [done..|].
      rewrite (proj1 (SuiteMap_applyGlobal _ _)).
      destruct Hin as [?|Hin]; [by left|right].
      rewrite fmap_cons in Hin. apply elem_of_cons in Hin as [->|?]; done.
    + destruct (TestPlan_Add plan _) as [plan' [err|]] eqn:Hadd; [done|].
      apply TestPlan_Add_fresh in Hadd as [_ Hmap]. simpl in Hmap.
      apply IH in Hrun; [done..|]. rewrite Hmap.
      destruct Hin as [[tc Htc]|Hin].
      * left. destruct (decide (suiteName = name)) as [->|].
        -- rewrite lookup_insert_eq. eauto.
        -- rewrite lookup_insert_ne by done. eauto.
      * rewrite fmap_cons in Hin. apply elem_of_cons in Hin as [->|?].
        -- left. simpl. rewrite lookup_insert_eq. eauto.
        -- by right.
Qed.

Lemma addSuites_app suiteMap1 suiteMap2 plan plan1 :
  addSuites plan suiteMap1 = (plan1, None) →
  addSuites plan (suiteMap1 ++ suiteMap2) = addSuites plan1 suiteMap2.
Proof.
  revert plan. induction suiteMap1 as [|[suiteName testList] rest IH];
    intros plan Hrun.
  - by injection Hrun as <-.
  - simpl in Hrun |- *. case_decide.
    + by apply IH.
    + destruct (TestPlan_Add plan _) as [plan' [err|]]; [done|]. by apply IH.
Qed.

(** On a chunk, the only error is the duplicate-name error, for a name
    that was registered before the chunk: its own entries are those of a
    map. *)
Lemma addSuites_error suiteMap plan err :
  NoDup suiteMap.*1 →
  (addSuites plan suiteMap).2 = Some err →
  ∃ name, name ∈ suiteMap.*1 ∧ name ≠ MeqaInit ∧ err = duplicateName name ∧
          is_Some (SuiteMap plan !! name).
Proof.
  revert plan. induction suiteMap as [|[suiteName testList] rest IH];
    intros plan Hnodup Herr; [done|].
  rewrite fmap_cons in Hnodup. apply NoDup_cons in Hnodup as [Hfirst Hnodup].
  simpl in Herr. case_decide as Hinit.
  - destruct (IH _ Hnodup Herr) as (name & Hin & Hname & -> & Hreg).
    exists name. rewrite fmap_cons, elem_of_cons.
    rewrite (proj1 (SuiteMap_applyGlobal _ _)) in Hreg. eauto.
  - unfold TestPlan_Add in Herr. simpl in Herr.
    destruct (SuiteMap plan !! suiteName) as [tc|] eqn:Hfree.
    + injection Herr as <-. exists suiteName.
      rewrite fmap_cons, elem_of_cons. rewrite Hfree. eauto.
    + destruct (IH _ Hnodup Herr) as (name & Hin & Hname & -> & Hreg).
      exists name. rewrite fmap_cons, elem_of_cons.
      simpl in Hreg. rewrite lookup_insert_ne in Hreg; [eauto|].
      intros ->. done.
Qed.

(** C3, as the code has it.  When the entry for [name] is reached and the
    name was registered before the chunk, [AddFromString] returns the
    duplicate-name error, and the plan it leaves is the plan as it was
    when the entry was reached: the rejected [Add] changed neither
    [SuiteMap] nor [SuiteList], and the entries after it are not looked
    at.  The suite registered first stays the one of that name, whatever
    chunks are processed afterwards.  Within a chunk there is no such
    rejection: the chunk is decoded into a map, and whatever error
    [AddFromString] returns on it, for any plan, is the duplicate-name
    error for a name that the plan had before the call. *)
Theorem AddFromString_duplicate_rejected plan data before name tests after plan1 :
  yaml_Unmarshal data = inr (before ++ (name, tests) :: after) →
  name ≠ MeqaInit →
  addSuites plan before = (plan1, None) →
  is_Some (SuiteMap plan !! name) →
  AddFromString plan data = (plan1, Some (duplicateName name)) ∧
  (∀ testSuite, TestSuite_Name testSuite = name →
     TestPlan_Add plan1 testSuite = (plan1, Some (duplicateName name))) ∧
  (∀ tc, SuiteMap plan !! name = Some tc → SuiteMap plan1 !! name = Some tc) ∧
  (∀ tc chunks, SuiteMap plan1 !! name = Some tc →
     SuiteMap (addChunks plan1 chunks) !! name = Some tc) ∧
  (∀ plan0 err, (AddFromString plan0 data).2 = Some err →
     ∃ name0, name0 ∈ (before ++ (name, tests) :: after).*1 ∧
              err = duplicateName name0 ∧ is_Some (SuiteMap plan0 !! name0)).
Proof.
  intros Hdata Hname Hbefore Hseen.
  pose proof (addSuites_registers _ _ _ _ Hbefore Hname (or_introl Hseen)) as Hreg.
  assert (Hadd : ∀ testSuite, TestSuite_Name testSuite = name →
            TestPlan_Add plan1 testSuite = (plan1, Some (duplicateName name))).
  { intros testSuite <-. by apply TestPlan_Add_duplicate. }
  split; [|split; [exact Hadd|split; [|split]]].
  - unfold AddFromString. rewrite Hdata.
    rewrite (addSuites_app _ _ _ _ Hbefore). simpl.
    rewrite decide_False by done. by rewrite Hadd.
  - intros tc Htc.
    pose proof (addSuites_mono before plan) as Hmono. rewrite Hbefore in Hmono.
    by apply (lookup_weaken _ _ _ _ Htc Hmono).
  - intros tc chunks Htc.
    by apply (lookup_weaken _ _ _ _ Htc (addChunks_mono chunks plan1)).
  - intros plan0 err. unfold AddFromString. rewrite Hdata. intros Herr.
    destruct (addSuites_error _ _ _ (yaml_Unmarshal_NoDup _ _ Hdata) Herr)
      as (name0 & Hin & _ & -> & Hreg0).
    by exists name0.
Qed.

(** C9.  [InitFromFile] returns an error exactly when the file cannot be
    read.  On a readable file every chunk is handed to [AddFromString] and
    its error is dropped, and whatever is registered once a chunk has been
    processed, by that chunk or by an earlier one, is registered in the
    plan [InitFromFile] leaves, whatever the other chunks do. *)
Theorem InitFromFile_drops_chunk_errors plan path fs :
  ((InitFromFile plan path fs).2 = None ↔ is_Some (fs_text fs !! path)) ∧
  ∀ data, fs_text fs !! path = Some data →
    ∀ before chunk after name tc,
      Split data "---" = before ++ chunk :: after →
      SuiteMap (AddFromString (addChunks (TestPlan_Init plan) before) chunk).1
        !! name = Some tc →
      SuiteMap (InitFromFile plan path fs).1 !! name = Some tc.
Proof.
  unfold InitFromFile. split.
  - destruct (fs_text fs !! path); simpl; split; eauto; by intros [? ?].
  - intros data Hdata before chunk after name tc Hsplit Hreg.
    rewrite Hdata. simpl. rewrite Hsplit.
    rewrite (cons_middle chunk), app_assoc, addChunks_app.
    eapply lookup_weaken; [|apply addChunks_mono].
    by rewrite addChunks_app.
Qed.
End Loader.

(** ** Failure corpus *)

Section Corpus.
Context {Value : Type} `{!EqDecision Value, !Countable Value}.
Context `{yaml : !YamlDecoder (Value := Value)}.
Context `{json : !JsonCodec (Value := Value)}.
Local Abbreviation FM :=
  (gmap string (gmap string (gmap string (gmap (@FuzzValue Value) bool)))).

Lemma ensurePath_insert (F : FM) e m f :
  ensurePath e m f F =
  <[e := <[m := <[f := default ∅ (lookupField F e m f)]>
                   (default ∅ (default ∅ (F !! e) !! m))]>
           (default ∅ (F !! e))]> F.
Proof.
  unfold ensurePath, lookupField. cbv zeta.
  destruct (F !! e) as [bm|] eqn:He; simpl.
  - rewrite !He. simpl. destruct (bm !! m) as [bf|] eqn:Hm; simpl.
    + rewrite !He. simpl. rewrite !Hm. simpl.
      destruct (bf !! f) as [s|] eqn:Hf; simpl; [|done].
      by rewrite (insert_id bf f s Hf), (insert_id bm m bf Hm), (insert_id F e bm He).
    + rewrite !lookup_insert_eq. simpl. rewrite !lookup_insert_eq. simpl.
      rewrite lookup_empty. by rewrite !insert_insert_eq.
  - rewrite !lookup_insert_eq. simpl. rewrite lookup_empty.
    rewrite !lookup_insert_eq. simpl. rewrite !lookup_insert_eq. simpl.
    rewrite lookup_empty. by rewrite !insert_insert_eq.
Qed.

Lemma lookupField_insert (F : FM) e m f s e' m' f' :
  lookupField
    (<[e := <[m := <[f := s]> (default ∅ (default ∅ (F !! e) !! m))]>
              (default ∅ (F !! e))]> F) e' m' f' =
  if decide ((e, m, f) = (e', m', f')) then Some s else lookupField F e' m' f'.
Proof.
  unfold lookupField. case_decide as Heq.
  - simplify_eq. rewrite lookup_insert_eq. simpl. rewrite lookup_insert_eq.
    simpl. by rewrite lookup_insert_eq.
  - destruct (decide (e = e')) as [->|]; [|by rewrite lookup_insert_ne].
    rewrite lookup_insert_eq.
    destruct (decide (m = m')) as [->|].
    + rewrite lookup_insert_eq.
      destruct (decide (f = f')) as [->|]; [done|].
      rewrite lookup_insert_ne by done.
      destruct (F !! e') as [bm|]; simpl; [|done]. by destruct (bm !! m').
    + rewrite lookup_insert_ne by done. by destruct (F !! e').
Qed.

Lemma lookupField_ensurePath (F : FM) e m f e' m' f' :
  lookupField (ensurePath e m f F) e' m' f' =
  if decide ((e, m, f) = (e', m', f'))
  then Some (default ∅ (lookupField F e m f))
  else lookupField F e' m' f'.
Proof. rewrite ensurePath_insert. apply lookupField_insert. Qed.

Lemma lookupField_ensurePath_ne (F : FM) e m f e' m' f' :
  (e, m, f) ≠ (e', m', f') →
  lookupField (ensurePath e m f F) e' m' f' = lookupField F e' m' f'.
Proof. intros Hne. by rewrite lookupField_ensurePath, decide_False. Qed.

Lemma lookupField_markFailure (F : FM) e m f fv e' m' f' :
  lookupField (markFailure e m f fv F) e' m' f' =
  if decide ((e, m, f) = (e', m', f'))
  then Some (<[fv := true]> (default ∅ (lookupField F e m f)))
  else lookupField F e' m' f'.
Proof.
  unfold markFailure. cbv zeta. rewrite lookupField_insert.
  case_decide; [|done]. do 2 f_equal. unfold lookupField.
  destruct (F !! e) as [bm|]; simpl; [|done]. by destruct (bm !! m).
Qed.

Implicit Types (plan : @TestPlan Value _ _) (v : @Payload Value)
  (failures : FM).

Lemma lookupField_recordStep plan failures v e m f :
  lookupField (recordStep plan failures v) e m f =
  if decide (pathOf v = (e, m, f))
  then Some (if matchesFuzzType plan v
             then <[fuzzValueOf v := true]>
                    (default ∅ (lookupField failures e m f))
             else default ∅ (lookupField failures e m f))
  else lookupField failures e m f.
Proof.
  unfold recordStep, pathOf. cbv zeta.
  destruct (matchesFuzzType plan v).
  - rewrite lookupField_markFailure. case_decide as Heq; [|apply lookupField_ensurePath_ne; done].
    simplify_eq. by rewrite lookupField_ensurePath, decide_True.
  - rewrite lookupField_ensurePath. case_decide as Heq; [|done]. by simplify_eq.
Qed.

(** The test of the code is the rule of the fuzz type under test. *)
Lemma matchesFuzzType_underTest plan v :
  matchesFuzzType plan v = true ↔ underTest plan v.
Proof.
  unfold matchesFuzzType, underTest.
  rewrite orb_true_iff, !bool_decide_eq_true.
  split; (intros [Heq|Heq]; [by left|by right]).
Qed.

Lemma matchesFuzzType_other plan v :
  matchesFuzzType plan v = false ↔ ¬ underTest plan v.
Proof.
  rewrite <- matchesFuzzType_underTest. by destruct (matchesFuzzType plan v).
Qed.

Lemma Tracks_nil plan : Tracks plan ∅ [].
Proof.
  intros e m f. unfold lookupField. rewrite lookup_empty.
  split; [|split].
  - split; [by intros [? ?]|]. intros (v & Hv & _). by apply elem_of_nil in Hv.
  - done.
  - intros v Hv. by apply elem_of_nil in Hv.
Qed.

Lemma Tracks_step plan failures seen v :
  Tracks plan failures seen →
  Tracks plan (recordStep plan failures v) (seen ++ [v]).
Proof.
  intros HT e m f. destruct (HT e m f) as (Hdom & Hsound & Hcompl).
  rewrite lookupField_recordStep.
  destruct (decide (pathOf v = (e, m, f))) as [Hp|Hp].
  - split; [|split].
    + split; [|by eauto]. intros _. exists v. split; [|done].
      apply elem_of_app. right. by apply list_elem_of_singleton.
    + intros values fv b [= <-] Hfv.
      assert (Hold : default ∅ (lookupField failures e m f) !! fv = Some b →
                b = true ∧ ∃ v0, v0 ∈ seen ++ [v] ∧ pathOf v0 = (e, m, f) ∧
                  underTest plan v0 ∧ fuzzValueOf v0 = fv).
      { destruct (lookupField failures e m f) as [s|] eqn:Hs; simpl; [|done].
        intros Hb. destruct (Hsound s fv b eq_refl Hb) as (-> & v0 & Hin & ?).
        split; [done|]. exists v0. split; [|done]. apply elem_of_app. by left. }
      destruct (matchesFuzzType plan v) eqn:Hm; [|by apply Hold].
      destruct (decide (fuzzValueOf v = fv)) as [<-|Hne].
      * rewrite lookup_insert_eq in Hfv. injection Hfv as <-. split; [done|].
        apply matchesFuzzType_underTest in Hm.
        exists v. split; [|done]. apply elem_of_app. right.
        by apply list_elem_of_singleton.
      * rewrite lookup_insert_ne in Hfv by done. by apply Hold.
    + intros v0 Hin Hp0 Hm0. eexists. split; [done|].
      apply elem_of_app in Hin as [Hin|Hin].
      * destruct (Hcompl v0 Hin Hp0 Hm0) as (s & Hs & Hfv). rewrite Hs. simpl.
        destruct (matchesFuzzType plan v); [|done].
        destruct (decide (fuzzValueOf v = fuzzValueOf v0)) as [->|Hne].
        -- by rewrite lookup_insert_eq.
        -- by rewrite lookup_insert_ne.
      * apply list_elem_of_singleton in Hin as ->.
        apply matchesFuzzType_underTest in Hm0. rewrite Hm0.
        by rewrite lookup_insert_eq.
  - split; [|split].
    + rewrite Hdom. split.
      * intros (v0 & Hin & ?). exists v0. split; [|done]. apply elem_of_app. by left.
      * intros (v0 & Hin & Hp0). exists v0. split; [|done].
        apply elem_of_app in Hin as [Hin|Hin]; [done|].
        apply list_elem_of_singleton in Hin as ->. done.
    + intros values fv b Hs Hfv.
      destruct (Hsound values fv b Hs Hfv) as (-> & v0 & Hin & ?).
      split; [done|]. exists v0. split; [|done]. apply elem_of_app. by left.
    + intros v0 Hin Hp0 Hm0. apply Hcompl; [|done..].
      apply elem_of_app in Hin as [Hin|Hin]; [done|].
      apply list_elem_of_singleton in Hin as ->. done.
Qed.

Lemma Tracks_foldl plan records failures seen :
  Tracks plan failures seen →
  Tracks plan (foldl (recordStep plan) failures records) (seen ++ records).
Proof.
  revert failures seen. induction records as [|v records IH]; intros failures seen HT.
  - by rewrite app_nil_r.
  - simpl. rewrite cons_middle, app_assoc. apply IH. by apply Tracks_step.
Qed.

(** One round of the decoding loop. *)
Lemma decodeLoop_cons plan failures doc v rest :
  json_Decode doc = inr v →
  decodeLoop plan failures (doc :: rest) =
  decodeLoop
    (if matchesFuzzType plan v then plan
     else TestPlan_with_failures (OldFailuresMap plan) (NewFailures plan)
            (OtherFailures plan ++ [v]) plan)
    (recordStep plan failures v) rest.
Proof.
  intros Hdoc. cbn [decodeLoop]. rewrite Hdoc. unfold recordStep.
  by destruct (matchesFuzzType plan v).
Qed.

Lemma filter_other_cons plan v records :
  filter (λ v, ¬ underTest plan v) (v :: records) =
  if matchesFuzzType plan v then filter (λ v, ¬ underTest plan v) records
  else v :: filter (λ v, ¬ underTest plan v) records.
Proof.
  rewrite filter_cons. destruct (matchesFuzzType plan v) eqn:Hm.
  - rewrite decide_False; [done|]. intros Hother.
    by apply matchesFuzzType_other in Hother; congruence.
  - rewrite decide_True; [done|]. by apply matchesFuzzType_other.
Qed.

(** The decoding loop on a corpus in which every document decodes. *)
Lemma decodeLoop_decodable plan failures docs records :
  Decodes docs records →
  decodeLoop plan failures docs =
  (TestPlan_with_failures (foldl (recordStep plan) failures records)
     (NewFailures plan)
     (OtherFailures plan ++ filter (λ v, ¬ underTest plan v) records)
     plan,
   None).
Proof.
  intros Hdec. revert plan failures.
  induction Hdec as [|doc v docs records Hdoc _ IH]; intros plan failures.
  - simpl. by rewrite app_nil_r.
  - rewrite (decodeLoop_cons _ _ _ _ _ Hdoc), IH, filter_other_cons.
    destruct (matchesFuzzType plan v) eqn:Hm; [done|].
    unfold TestPlan_with_failures. simpl. do 2 f_equal.
    by rewrite <- app_assoc.
Qed.

(** The loop ends without an error only on such a corpus. *)
Lemma decodeLoop_ok plan failures docs plan' :
  decodeLoop plan failures docs = (plan', None) →
  ∃ records, Decodes docs records.
Proof.
  revert plan failures. induction docs as [|doc docs IH]; intros plan failures.
  - exists []. constructor.
  - simpl. destruct (json_Decode doc) as [err|v] eqn:Hdoc; [done|].
    destruct (matchesFuzzType plan v); intros Hrun;
      apply IH in Hrun as [records Hdec]; exists (v :: records);
      by constructor.
Qed.

(** The loop up to a document that does not decode. *)
Lemma decodeLoop_bad_value plan failures docs records bad err rest :
  Decodes docs records →
  json_Decode bad = inl err →
  decodeLoop plan failures (docs ++ bad :: rest) =
  (TestPlan_with_failures (OldFailuresMap plan) (NewFailures plan)
     (OtherFailures plan ++ filter (λ v, ¬ underTest plan v) records) plan,
   Some err).
Proof.
  intros Hdec Hbad. revert plan failures.
  induction Hdec as [|doc v docs records Hdoc _ IH]; intros plan failures.
  - simpl. rewrite Hbad, app_nil_r. by destruct plan.
  - simpl app. rewrite (decodeLoop_cons _ _ _ _ _ Hdoc), IH, filter_other_cons.
    destruct (matchesFuzzType plan v) eqn:Hm; [done|].
    unfold TestPlan_with_failures. simpl. do 2 f_equal.
    by rewrite <- app_assoc.
Qed.

Lemma Decodes_inj docs records records' :
  Decodes docs records → Decodes docs records' → records = records'.
Proof.
  intros Hdec. revert records'.
  induction Hdec as [|doc v docs records Hdoc _ IH]; intros records' Hdec'.
  - by apply Forall2_nil_inv_l in Hdec'.
  - apply Forall2_cons_inv_l in Hdec' as (v' & records'' & Hdoc' & Hdec' & ->).
    rewrite Hdoc in Hdoc'. injection Hdoc' as <-. f_equal. by apply IH.
Qed.

Lemma Decodes_app docs1 records1 docs2 records2 :
  Decodes docs1 records1 → Decodes docs2 records2 →
  Decodes (docs1 ++ docs2) (records1 ++ records2).
Proof. apply Forall2_app. Qed.

Lemma Decodes_elem_of docs records :
  Decodes docs records →
  ∀ v, v ∈ records ↔ ∃ doc, doc ∈ docs ∧ json_Decode doc = inr v.
Proof.
  intros Hdec v. split.
  - intros Hin. apply list_elem_of_lookup in Hin as [i Hi].
    destruct (Forall2_lookup_r _ _ _ _ _ Hdec Hi) as (doc & Hdoc & Hv).
    exists doc. split; [|done]. by apply list_elem_of_lookup_2 in Hdoc.
  - intros (doc & Hin & Hv). apply list_elem_of_lookup in Hin as [i Hi].
    destruct (Forall2_lookup_l _ _ _ _ _ Hdec Hi) as (v' & Hv' & Hdoc).
    rewrite Hv in Hdoc. injection Hdoc as <-. by apply list_elem_of_lookup_2 in Hv'.
Qed.

Lemma Join_inj path : Inj (=) (=) (Join path).
Proof.
  intros a b. unfold Join.
  induction path as [|c path IH]; simpl; intros Heq; [by simplify_eq|].
  injection Heq as Heq. by apply IH.
Qed.

(** What [ReadFails] leaves behind when it returns nil. *)
Lemma ReadFails_ok plan path fs plan' :
  ReadFails plan path fs = (plan', None) →
  ∃ docs records,
    fs_records fs !! Join path MeqaFails = Some docs ∧
    Decodes docs records ∧
    plan' =
      TestPlan_with_failures (foldl (recordStep plan) ∅ records)
        (NewFailures plan)
        (OtherFailures plan ++ filter (λ v, ¬ underTest plan v) records)
        plan ∧
    Tracks plan (OldFailuresMap plan') records.
Proof.
  unfold ReadFails.
  destruct (fs_records fs !! Join path MeqaFails) as [docs|]; [|done].
  intros Hrun. destruct (decodeLoop_ok _ _ _ _ Hrun) as [records Hdec].
  rewrite (decodeLoop_decodable _ _ _ _ Hdec) in Hrun. injection Hrun as <-.
  exists docs, records. split; [done|]. split; [done|]. split; [done|].
  apply (Tracks_foldl plan records ∅ []), Tracks_nil.
Qed.

(** The first loop of [WriteFailures]. *)
Lemma encodeOthers_ok mq records docs file :
  Encodes mq records docs →
  encodeOthers mq records file = (file ++ docs, None).
Proof.
  intros Henc. revert file.
  induction Henc as [|v doc records docs Hdoc _ IH]; intros file.
  - simpl. by rewrite app_nil_r.
  - simpl. rewrite Hdoc, IH. by rewrite <- app_assoc.
Qed.

Lemma encodeOthers_fail mq records docs bad err rest file :
  Encodes mq records docs →
  json_Encode mq bad = inl err →
  encodeOthers mq (records ++ bad :: rest) file = (file ++ docs, Some err).
Proof.
  intros Henc Hbad. revert file.
  induction Henc as [|v doc records docs Hdoc _ IH]; intros file.
  - simpl. by rewrite Hbad, app_nil_r.
  - simpl. rewrite Hdoc, IH. by rewrite <- app_assoc.
Qed.

(** The second loop of [WriteFailures]. *)
Lemma encodeNew_ok mq nf meta (records : list (@Payload Value))
    mqDocs nfDocs mqFile nfFile :
  Encodes mq (Payload_with_Meta meta <$> records) mqDocs →
  Encodes nf (Payload_with_Meta meta <$> records) nfDocs →
  encodeNew mq nf meta records mqFile nfFile =
    (Payload_with_Meta meta <$> records, mqFile ++ mqDocs, nfFile ++ nfDocs, None).
Proof.
  revert mqDocs nfDocs mqFile nfFile.
  induction records as [|v records IH]; intros mqDocs nfDocs mqFile nfFile H1 H2.
  - apply Forall2_nil_inv_l in H1 as ->. apply Forall2_nil_inv_l in H2 as ->.
    simpl. by rewrite !app_nil_r.
  - rewrite fmap_cons in H1, H2.
    apply Forall2_cons_inv_l in H1 as (doc1 & mqDocs' & Hdoc1 & H1 & ->).
    apply Forall2_cons_inv_l in H2 as (doc2 & nfDocs' & Hdoc2 & H2 & ->).
    cbn [encodeNew]. cbv zeta. rewrite Hdoc1, Hdoc2, (IH _ _ _ _ H1 H2).
    by rewrite <- !app_assoc.
Qed.

Lemma encodeNew_fail mq nf meta (records : list (@Payload Value))
    mqDocs nfDocs bad rest mqFile nfFile :
  Encodes mq (Payload_with_Meta meta <$> records) mqDocs →
  Encodes nf (Payload_with_Meta meta <$> records) nfDocs →
  encodeNew mq nf meta (records ++ bad :: rest) mqFile nfFile =
    match json_Encode mq (Payload_with_Meta meta bad) with
    | inl err =>
        ((Payload_with_Meta meta <$> records) ++ Payload_with_Meta meta bad :: rest,
         mqFile ++ mqDocs, nfFile ++ nfDocs, Some err)
    | inr doc1 =>
        match json_Encode nf (Payload_with_Meta meta bad) with
        | inl err =>
            ((Payload_with_Meta meta <$> records) ++
               Payload_with_Meta meta bad :: rest,
             mqFile ++ mqDocs ++ [doc1], nfFile ++ nfDocs, Some err)
        | inr doc2 =>
            let '(written, mqFile', nfFile', err) :=
              encodeNew mq nf meta rest (mqFile ++ mqDocs ++ [doc1])
                (nfFile ++ nfDocs ++ [doc2]) in
            ((Payload_with_Meta meta <$> records) ++
               Payload_with_Meta meta bad :: written,
             mqFile', nfFile', err)
        end
    end.
Proof.
  revert mqDocs nfDocs mqFile nfFile.
  induction records as [|v records IH]; intros mqDocs nfDocs mqFile nfFile H1 H2.
  - apply Forall2_nil_inv_l in H1 as ->. apply Forall2_nil_inv_l in H2 as ->.
    simpl app. cbn [encodeNew fmap list_fmap]. cbv zeta. rewrite !app_nil_r.
    destruct (json_Encode mq _); [done|]. by destruct (json_Encode nf _).
  - rewrite fmap_cons in H1, H2.
    apply Forall2_cons_inv_l in H1 as (doc1 & mqDocs' & Hdoc1 & H1 & ->).
    apply Forall2_cons_inv_l in H2 as (doc2 & nfDocs' & Hdoc2 & H2 & ->).
    simpl app. cbn [encodeNew]. cbv zeta. rewrite Hdoc1, Hdoc2, (IH _ _ _ _ H1 H2).
    destruct (json_Encode mq (Payload_with_Meta meta bad));
      [by rewrite <- !app_assoc|].
    destruct (json_Encode nf (Payload_with_Meta meta bad));
      [by rewrite <- !app_assoc|].
    rewrite <- !app_assoc. simpl app.
    by destruct (encodeNew mq nf meta rest _ _) as [[[? ?] ?] ?].
Qed.

Lemma Join_MeqaFails_NewFails path : Join path NewFails ≠ Join path MeqaFails.
Proof. intros Heq. by apply Join_inj in Heq. Qed.

(** [WriteFailures] once both files are open: the cumulative file holds
    [kept], the run-scoped file is empty, and the two loops follow. *)
Lemma WriteFailures_opened plan path fs :
  Join path MeqaFails ∉ fs_denied fs →
  Join path NewFails ∉ fs_denied fs →
  WriteFailures plan path fs =
    let mq := Join path MeqaFails in
    let nf := Join path NewFails in
    let kept := if Repro plan then [] else default [] (fs_records fs !! mq) in
    let opened := <[nf := []]> (<[mq := kept]> (fs_records fs)) in
    let '(mqFile, err) :=
      if Repro plan then encodeOthers mq (OtherFailures plan) kept
      else (kept, None) in
    match err with
    | Some err =>
        (plan, mkFS (fs_text fs) (<[mq := mqFile]> opened) (fs_denied fs),
         Some err)
    | None =>
        let '(written, mqFile, nfFile, err) :=
          encodeNew mq nf (ReadMetadata path fs) (NewFailures plan) mqFile [] in
        (TestPlan_with_failures (OldFailuresMap plan) written
           (OtherFailures plan) plan,
         mkFS (fs_text fs) (<[nf := nfFile]> (<[mq := mqFile]> opened))
           (fs_denied fs),
         err)
    end.
Proof.
  intros Hmq Hnf. unfold WriteFailures. cbv zeta. rewrite decide_False by done.
  cbn [fs_denied fs_records fs_text]. by rewrite decide_False by done.
Qed.

(** [WriteFailures] when both files can be opened and every record is
    encoded. *)
Lemma WriteFailures_writable plan path fs carriedDocs mqDocs nfDocs :
  Join path MeqaFails ∉ fs_denied fs →
  Join path NewFails ∉ fs_denied fs →
  Encodes (Join path MeqaFails)
    (if Repro plan then OtherFailures plan else []) carriedDocs →
  Encodes (Join path MeqaFails)
    (Payload_with_Meta (ReadMetadata path fs) <$> NewFailures plan) mqDocs →
  Encodes (Join path NewFails)
    (Payload_with_Meta (ReadMetadata path fs) <$> NewFailures plan) nfDocs →
  WriteFailures plan path fs =
    (TestPlan_with_failures (OldFailuresMap plan)
       (Payload_with_Meta (ReadMetadata path fs) <$> NewFailures plan)
       (OtherFailures plan) plan,
     mkFS (fs_text fs)
       (<[Join path NewFails := nfDocs]>
          (<[Join path MeqaFails :=
               (if Repro plan then []
                else default [] (fs_records fs !! Join path MeqaFails)) ++
               carriedDocs ++ mqDocs]>
             (<[Join path NewFails := []]>
                (<[Join path MeqaFails :=
                     if Repro plan then []
                     else default [] (fs_records fs !! Join path MeqaFails)]>
                   (fs_records fs)))))
       (fs_denied fs),
     None).
Proof.
  intros Hmq Hnf Hcarried Hmqs Hnfs.
  rewrite WriteFailures_opened by done. cbv zeta.
  destruct (Repro plan).
  - rewrite (encodeOthers_ok _ _ _ _ Hcarried).
    by rewrite (encodeNew_ok _ _ _ _ _ _ _ _ Hmqs Hnfs).
  - apply Forall2_nil_inv_l in Hcarried as ->.
    rewrite (encodeNew_ok _ _ _ _ _ _ _ _ Hmqs Hnfs). done.
Qed.


End Corpus.

(** ** Reporting *)

Section Reporting.
Context {Value : Type} `{!EqDecision Value, !Countable Value}.
Implicit Types plan : @TestPlan Value _ _.

Lemma length_remove_dups {A} `{!EqDecision A} (l : list A) :
  (length (remove_dups l) ≤ length l)%nat.
Proof.
  induction l as [|x l IH]; simpl; [lia|].
  destruct (decide_rel _ _ _); simpl; lia.
Qed.

(** C8, as the code has it.  The one number [PrintSummary] prints after
    the fuzz-failure label is the length of [NewFailures], every observed
    record counted; the number of distinct failures is at most that. *)
Theorem PrintSummary_reports_length plan :
  reported FuzzFails (PrintSummary plan) = [Z.of_nat (length (NewFailures plan))] ∧
  distinctFuzzFailures plan ≤ Z.of_nat (length (NewFailures plan)).
Proof.
  split; [reflexivity|]. unfold distinctFuzzFailures.
  pose proof (length_remove_dups (failureKey <$> NewFailures plan)) as Hle.
  rewrite length_fmap in Hle. lia.
Qed.

End Reporting.

(** ** Execution engine *)

Section Engine.
Context {Value : Type} `{!EqDecision Value, !Countable Value}.
Context `{runner : !StepRunner (Value := Value)}.
Implicit Types (plan : @TestPlan Value _ _) (tc : @TestSuite Value)
  (test dup : @Test Value) (env : Env) (resultCounts : gmap string Z)
  (tcErr : option error).

(** What a concrete step does, whatever the collaborators answer: one
    duplicate goes to [resultList] and to [History], the suites are left
    as they are, and the loop is left exactly on a failed creation (or on a
    creation without a response, which panics). *)
Lemma runStep_spec env tc i test parent resultCounts tcErr :
  ∃ dup world payloads resultCounts' tcErr',
    let env' :=
      mkEnv
        (TestPlan_with_results (resultList (env_plan env) ++ [dup])
           (NewFailures (env_plan env) ++ payloads) (env_plan env))
        (env_History env ++ [dup]) world in
    (resultCounts !! Skipped = None → resultCounts' !! Skipped = None) ∧
    (resultCounts' !! Total = resultCounts !! Total) ∧
    (tcErr' = None → tcErr = None ∧ resultCounts' !! Failed = resultCounts !! Failed) ∧
    runStep env tc i test parent resultCounts tcErr =
      (env',
       if bool_decide (Test_Method dup = MethodPost) &&
          bool_decide (size (PathParams (Test_TestParams dup)) = 0%nat) then
         match Test_resp dup with
         | None => inr Panicked
         | Some StatusCode =>
             if bool_decide (300 ≤ StatusCode) then
               inr (Returned
                      (incr Skipped
                         (Z.of_nat (length (TestSuite_Tests tc)) - Z.of_nat i - 1)
                         resultCounts')
                      tcErr')
             else inl (resultCounts', tcErr')
         end
       else inl (resultCounts', tcErr')).
Proof.
  unfold runStep.
  destruct (Test_Run _ _ _ _ _) as [[[world dup] payloads] err].
  exists (Test_with_err err dup), world, payloads,
    (let resultCounts :=
       match Test_schemaError (Test_with_err err dup) with
       | Some _ => incr SchemaMismatch 1 resultCounts
       | None => resultCounts
       end in
     match err with
     | Some _ => incr Failed 1 resultCounts
     | None => incr Passed 1 resultCounts
     end),
    (match err, tcErr with
     | Some e, None => Some e
     | _, _ => tcErr
     end).
  cbv zeta. split; [|split; [|split]].
  - intros Hskip. unfold incr.
    destruct (Test_schemaError _); destruct err;
      by rewrite ?lookup_insert_ne.
  - unfold incr.
    destruct (Test_schemaError _); destruct err;
      by rewrite ?lookup_insert_ne.
  - unfold incr. destruct err as [e|]; [by destruct tcErr|].
    intros ->. split; [done|].
    destruct (Test_schemaError _); by rewrite ?lookup_insert_ne.
  - destruct (_ && _); [|reflexivity].
    destruct (Test_resp _) as [StatusCode|]; [|reflexivity].
    by destruct (bool_decide (300 ≤ StatusCode)).
Qed.

(** The loop of [Run] over a suite of concrete steps.  [rec] is never
    called. *)
Lemma runTests_concrete rec name parentTest tc todo :
  Forall concrete (TestSuite_Tests tc) →
  ∀ i env resultCounts tcErr,
    SuiteMap (env_plan env) !! name = Some tc →
    (i + todo = length (TestSuite_Tests tc))%nat →
    resultCounts !! Skipped = None →
    ∃ env' result executed,
      runTests rec name parentTest todo i env resultCounts tcErr =
        Some (env', result) ∧
      resultList (env_plan env') = resultList (env_plan env) ++ executed ∧
      env_History env' = env_History env ++ executed ∧
      ∀ k dup StatusCode,
        executed !! k = Some dup → creationFailed dup StatusCode →
        length executed = S k ∧
        ∃ resultCounts' err,
          result = Returned resultCounts' err ∧
          resultCounts' !! Skipped =
            Some (Z.of_nat (length (TestSuite_Tests tc)) - Z.of_nat (i + k) - 1).
Proof.
  intros Hconcrete. induction todo as [|todo IH];
    intros i env resultCounts tcErr Htc Hlen Hskip.
  - exists env, (Returned resultCounts tcErr), []. simpl.
    rewrite !app_nil_r. repeat split; done.
  - assert (is_Some (TestSuite_Tests tc !! i)) as [test Htest].
    { apply lookup_lt_is_Some. lia. }
    assert (Hc : concrete test).
    { eapply Forall_lookup_1; [exact Hconcrete|exact Htest]. }
    destruct Hc as [Href Hname].
    cbn [runTests deref]. rewrite Htc, Htest.
    rewrite bool_decide_eq_false_2 by (by intros []).
    rewrite bool_decide_eq_false_2 by done.
    destruct (derefParent (env_plan env) parentTest) as [parent|].
    2:{ exists env, Panicked, []. rewrite !app_nil_r. repeat split; done. }
    destruct (runStep_spec env tc i test parent resultCounts tcErr)
      as (dup & world & payloads & resultCounts1 & tcErr1 & Hskip1 & _ & _ & ->).
    specialize (Hskip1 Hskip). cbv zeta.
    set (env1 := mkEnv _ _ world).
    assert (Hnext :
      (∀ StatusCode, ¬ creationFailed dup StatusCode) →
      ∃ env' result executed,
        runTests rec name parentTest todo (S i) env1 resultCounts1 tcErr1 =
          Some (env', result) ∧
        resultList (env_plan env') = resultList (env_plan env) ++ executed ∧
        env_History env' = env_History env ++ executed ∧
        ∀ k dup0 StatusCode,
          executed !! k = Some dup0 → creationFailed dup0 StatusCode →
          length executed = S k ∧
          ∃ resultCounts' err,
            result = Returned resultCounts' err ∧
            resultCounts' !! Skipped =
              Some (Z.of_nat (length (TestSuite_Tests tc)) - Z.of_nat (i + k) - 1)).
    { intros Hno.
      destruct (IH (S i) env1 resultCounts1 tcErr1) as
        (env' & result & executed & Hrun & Hres & Hhist & Hexec);
        [done|lia|done|].
      exists env', result, (dup :: executed). split; [done|].
      split; [by rewrite Hres; simpl; rewrite <- app_assoc|].
      split; [by rewrite Hhist; simpl; rewrite <- app_assoc|].
      intros [|k] dup0 s Hk Hfail.
      - injection Hk as <-. by destruct (Hno s).
      - destruct (Hexec k dup0 s Hk Hfail) as (Hl & c & e & -> & Hc).
        split; [by simpl; rewrite Hl|]. exists c, e. split; [done|].
        rewrite Hc. f_equal. lia. }
    destruct (bool_decide (Test_Method dup = MethodPost)) eqn:Hmethod; simpl.
    2:{ apply Hnext. intros s (Hm & _).
        by rewrite bool_decide_eq_true_2 in Hmethod. }
    destruct (bool_decide (size (PathParams (Test_TestParams dup)) = 0%nat))
      eqn:Hpath; simpl.
    2:{ apply Hnext. intros s (_ & Hp & _).
        by rewrite bool_decide_eq_true_2 in Hpath. }
    destruct (Test_resp dup) as [StatusCode|] eqn:Hresp.
    2:{ exists env1, Panicked, [dup].
        split; [done|]. split; [done|]. split; [done|].
        intros [|k] dup0 s Hk (_ & _ & Hr & _); [|done].
        injection Hk as <-. congruence. }
    destruct (bool_decide (300 ≤ StatusCode)) eqn:Hstatus.
    2:{ apply Hnext. intros s (_ & _ & Hr & Hs).
        rewrite Hresp in Hr. injection Hr as <-.
        by rewrite bool_decide_eq_true_2 in Hstatus. }
    eexists env1, _, [dup]. split; [done|]. split; [done|]. split; [done|].
    intros [|k] dup0 s Hk Hfail; [|done]. split; [done|].
    eexists _, _. split; [done|]. unfold incr, count.
    rewrite lookup_insert_eq, Hskip1. simpl. f_equal. lia.
Qed.

Lemma initial_counters_Skipped (n : Z) :
  (<[Failed := 0]> (<[Total := n]> (∅ : gmap string Z))) !! Skipped = None.
Proof. done. Qed.

(** C1.  A suite of N concrete steps is run to the end of the call (the
    recursion is not entered), and if the k-th executed step is a POST
    without path parameters whose response has a 4xx or 5xx status, then
    exactly k+1 steps were executed and dispatched to the history, and the
    call returns counters with Skipped = N-k-1. *)
Theorem Run_cascading_skip fuel env name parentTest tc :
  SuiteMap (env_plan env) !! name = Some tc →
  Forall concrete (TestSuite_Tests tc) →
  ∃ env' result executed,
    Run (S fuel) env name parentTest = Some (env', result) ∧
    resultList (env_plan env') = resultList (env_plan env) ++ executed ∧
    env_History env' = env_History env ++ executed ∧
    ∀ k dup StatusCode,
      executed !! k = Some dup →
      Test_Method dup = MethodPost →
      size (PathParams (Test_TestParams dup)) = 0%nat →
      Test_resp dup = Some StatusCode →
      400 ≤ StatusCode < 600 →
      length executed = S k ∧
      ∃ resultCounts err,
        result = Returned resultCounts err ∧
        resultCounts !! Skipped =
          Some (Z.of_nat (length (TestSuite_Tests tc)) - Z.of_nat k - 1).
Proof.
  intros Htc Hconcrete. cbn [Run]. rewrite Htc. case_bool_decide as Hempty.
  - exists env, (Returned ∅ (Some ("The following test suite is not found: " +:+ name))), [].
    rewrite !app_nil_r. repeat split; done.
  - destruct (runTests_concrete (Run fuel) name parentTest tc
                (length (TestSuite_Tests tc)) Hconcrete 0%nat env
                (<[Failed := 0]>
                   (<[Total := Z.of_nat (length (TestSuite_Tests tc))]> ∅))
                None Htc eq_refl (initial_counters_Skipped _))
      as (env' & result & executed & Hrun & Hres & Hhist & Hexec).
    exists env', result, executed.
    split; [done|]. split; [done|]. split; [done|].
    intros k dup StatusCode Hk Hmethod Hpath Hresp Hstatus.
    apply (Hexec k dup StatusCode Hk). unfold creationFailed.
    repeat split; [done..|lia].
Qed.

(** ** Declared tests *)

Lemma declaration_Strict test b :
  Test_Ref test ≠ "" → declaration (Test_with_Strict b test) = declaration test.
Proof.
  intros Href. unfold declaration. simpl.
  by rewrite !bool_decide_eq_true_2.
Qed.

Lemma declaration_eq test test' :
  declaration test' = declaration test →
  test' = Test_with_Strict (Test_Strict test') test ∧
  (Test_Ref test = "" → test' = test).
Proof.
  unfold declaration. destruct test, test'. simpl.
  repeat case_bool_decide; intros [=]; simplify_eq; done.
Qed.

Lemma declarations_setSuite env name tc tc' :
  SuiteMap (env_plan env) !! name = Some tc →
  declaration <$> TestSuite_Tests tc' = declaration <$> TestSuite_Tests tc →
  declarations (env_plan (setSuite env name tc')) = declarations (env_plan env).
Proof.
  intros Htc Heq. unfold declarations. simpl. rewrite fmap_insert, Heq.
  apply insert_id. by rewrite lookup_fmap, Htc.
Qed.

Lemma declarations_runStep env tc i test parent resultCounts tcErr :
  declarations (env_plan (runStep env tc i test parent resultCounts tcErr).1) =
  declarations (env_plan env).
Proof.
  destruct (runStep_spec env tc i test parent resultCounts tcErr)
    as (dup & world & payloads & c & e & _ & _ & _ & ->). done.
Qed.

Lemma runTests_declarations rec name parentTest :
  (∀ env name parentTest env' result,
     rec env name parentTest = Some (env', result) →
     declarations (env_plan env') = declarations (env_plan env)) →
  ∀ todo i env resultCounts tcErr env' result,
    runTests rec name parentTest todo i env resultCounts tcErr =
      Some (env', result) →
    declarations (env_plan env') = declarations (env_plan env).
Proof.
  intros Hrec. induction todo as [|todo IH];
    intros i env resultCounts tcErr env' result Hrun.
  - by injection Hrun as <- <-.
  - cbn [runTests deref] in Hrun.
    destruct (SuiteMap (env_plan env) !! name) as [tc|] eqn:Htc;
      [|by injection Hrun as <- <-].
    destruct (TestSuite_Tests tc !! i) as [test|] eqn:Htest;
      [|by injection Hrun as <- <-].
    case_bool_decide as Href.
    { set (tc' := TestSuite_with_Tests _ tc) in Hrun.
      assert (Hset : declarations (env_plan (setSuite env name tc')) =
                     declarations (env_plan env)).
      { apply (declarations_setSuite env name tc tc' Htc). simpl.
        rewrite list_fmap_insert, declaration_Strict by done.
        apply list_insert_id. by rewrite list_lookup_fmap, Htest. }
      destruct (rec (setSuite env name tc') (Test_Ref test)
                  (Some (Declared name i)))
        as [[env2 [nestedCounts [err|]|]]|] eqn:Hnested; [..|done].
      - injection Hrun as <- <-. by rewrite (Hrec _ _ _ _ _ Hnested).
      - apply IH in Hrun. by rewrite Hrun, (Hrec _ _ _ _ _ Hnested).
      - injection Hrun as <- <-. by rewrite (Hrec _ _ _ _ _ Hnested). }
    case_bool_decide as Hinit.
    { apply IH in Hrun. rewrite Hrun.
      by apply (declarations_setSuite env name tc). }
    destruct (derefParent (env_plan env) parentTest) as [parent|];
      [|by injection Hrun as <- <-].
    pose proof (declarations_runStep env tc i test parent resultCounts tcErr)
      as Hstep.
    destruct (runStep env tc i test parent resultCounts tcErr)
      as [env1 [[resultCounts1 tcErr1]|result1]].
    + apply IH in Hrun. by rewrite Hrun.
    + by injection Hrun as <- <-.
Qed.

Lemma Run_declarations fuel :
  ∀ env name parentTest env' result,
    Run fuel env name parentTest = Some (env', result) →
    declarations (env_plan env') = declarations (env_plan env).
Proof.
  induction fuel as [|fuel IH]; intros env name parentTest env' result Hrun;
    [done|].
  cbn [Run] in Hrun.
  destruct (SuiteMap (env_plan env) !! name) as [tc|];
    [|by injection Hrun as <- <-].
  case_bool_decide; [by injection Hrun as <- <-|].
  by eapply runTests_declarations.
Qed.

(** C7, as the code has it.  Whatever a call of [Run] does, the declared
    tests stay where they are, and a declared test that is not a reference
    step is left exactly as it was declared, parameters and [Strict] flag
    included: what is executed is a duplicate.  A reference step keeps
    everything but its [Strict] flag. *)
Theorem Run_keeps_declared_tests fuel env name parentTest env' result :
  Run fuel env name parentTest = Some (env', result) →
  declarations (env_plan env') = declarations (env_plan env) ∧
  ∀ suite index test,
    deref (env_plan env) (Declared suite index) = Some test →
    ∃ test',
      deref (env_plan env') (Declared suite index) = Some test' ∧
      test' = Test_with_Strict (Test_Strict test') test ∧
      (Test_Ref test = "" → test' = test).
Proof.
  intros Hrun. apply Run_declarations in Hrun. split; [done|].
  intros suite index test. cbn [deref].
  destruct (SuiteMap (env_plan env) !! suite) as [tc|] eqn:Htc; [|done].
  intros Htest.
  assert (Hd : declarations (env_plan env') !! suite =
               Some (declaration <$> TestSuite_Tests tc)).
  { rewrite Hrun. unfold declarations. by rewrite lookup_fmap, Htc. }
  unfold declarations in Hd. rewrite lookup_fmap in Hd.
  destruct (SuiteMap (env_plan env') !! suite) as [tc'|]; [|done].
  injection Hd as Hd.
  assert (Hi : (declaration <$> TestSuite_Tests tc') !! index =
               Some (declaration test)).
  { by rewrite Hd, list_lookup_fmap, Htest. }
  rewrite list_lookup_fmap in Hi.
  destruct (TestSuite_Tests tc' !! index) as [test'|]; [|done].
  injection Hi as Hi. exists test'. split; [done|]. by apply declaration_eq.
Qed.

(** ** Counters and reference steps *)

(** A call that returns without an error returns the counters of its own
    loop: [Total] and [Failed] are as the loop set them. *)
Lemma runTests_own_counters rec name parentTest (n : Z) :
  ∀ todo i env resultCounts tcErr env' resultCounts',
    runTests rec name parentTest todo i env resultCounts tcErr =
      Some (env', Returned resultCounts' None) →
    resultCounts !! Total = Some n →
    (tcErr = None → resultCounts !! Failed = Some 0) →
    resultCounts' !! Total = Some n ∧ resultCounts' !! Failed = Some 0.
Proof.
  induction todo as [|todo IH];
    intros i env resultCounts tcErr env' resultCounts' Hrun Htotal Hfailed.
  - injection Hrun as <- <- ->. auto.
  - cbn [runTests deref] in Hrun.
    destruct (SuiteMap (env_plan env) !! name) as [tc|] eqn:Htc; [|done].
    destruct (TestSuite_Tests tc !! i) as [test|] eqn:Htest; [|done].
    case_bool_decide as Href.
    { destruct (rec _ _ _) as [[env2 [nestedCounts [err|]|]]|]; [done| |done..].
      by eapply IH. }
    case_bool_decide as Hinit; [by eapply IH|].
    destruct (derefParent (env_plan env) parentTest) as [parent|]; [|done].
    destruct (runStep_spec env tc i test parent resultCounts tcErr)
      as (dup & world & payloads & resultCounts1 & tcErr1 & _ & Htotal1 &
          Hfailed1 & Hstep).
    rewrite Hstep in Hrun. clear Hstep.
    assert (Hgo : ∀ env1,
      runTests rec name parentTest todo (S i) env1 resultCounts1 tcErr1 =
        Some (env', Returned resultCounts' None) →
      resultCounts' !! Total = Some n ∧ resultCounts' !! Failed = Some 0).
    { intros env1 Hrun1. eapply IH; [exact Hrun1|congruence|].
      intros He. destruct (Hfailed1 He) as [He' ->]. auto. }
    destruct (_ && _); [|by eapply Hgo].
    destruct (Test_resp dup) as [StatusCode|]; [|done].
    destruct (bool_decide (300 ≤ StatusCode)); [|by eapply Hgo].
    injection Hrun as <- <- Hnone. unfold incr.
    rewrite !lookup_insert_ne by done.
    destruct (Hfailed1 Hnone) as [He' ->]. split; [congruence|auto].
Qed.

(** C2, as the code has it.  At a reference step the counters of the
    nested call are bound to a variable of the branch.  If the nested call
    returns an error, [Run] returns at once with the nested counters and
    that error; if it returns nil, the nested counters are dropped and the
    loop goes on with the caller's own counters, untouched.  So a call that
    returns nil returns its own [Total], the length of its own suite, and
    its own [Failed]. *)
Theorem Run_reference_counters fuel :
  (∀ name parentTest todo i env resultCounts tcErr tc test env2
     nestedCounts nestedErr,
     SuiteMap (env_plan env) !! name = Some tc →
     TestSuite_Tests tc !! i = Some test →
     Test_Ref test ≠ "" →
     Run fuel
       (setSuite env name
          (TestSuite_with_Tests
             (<[i := Test_with_Strict (TestSuite_Strict tc) test]>
                (TestSuite_Tests tc)) tc))
       (Test_Ref test) (Some (Declared name i)) =
       Some (env2, Returned nestedCounts nestedErr) →
     runTests (Run fuel) name parentTest (S todo) i env resultCounts tcErr =
       match nestedErr with
       | Some err => Some (env2, Returned nestedCounts (Some err))
       | None =>
           runTests (Run fuel) name parentTest todo (S i) env2 resultCounts tcErr
       end) ∧
  (∀ env name parentTest tc env' resultCounts,
     SuiteMap (env_plan env) !! name = Some tc →
     Run fuel env name parentTest = Some (env', Returned resultCounts None) →
     resultCounts !! Total = Some (Z.of_nat (length (TestSuite_Tests tc))) ∧
     resultCounts !! Failed = Some 0).
Proof.
  split.
  - intros name parentTest todo i env resultCounts tcErr tc test env2
      nestedCounts nestedErr Htc Htest Href Hnested.
    cbn [runTests deref]. rewrite Htc, Htest.
    rewrite bool_decide_eq_true_2 by done. rewrite Hnested.
    by destruct nestedErr.
  - intros env name parentTest tc env' resultCounts Htc Hrun.
    destruct fuel as [|fuel]; [done|]. cbn [Run] in Hrun. rewrite Htc in Hrun.
    case_bool_decide; [done|].
    eapply runTests_own_counters; [exact Hrun|done..].
Qed.
End Engine.

(* ===================================================================== *)
(** * Part III, continued: further properties of the code                 *)
(* ===================================================================== *)

(** ** Run history *)

Section History.
Context {Value : Type}.
Implicit Types (tests : list (@Test Value)) (t : @Test Value).

Lemma GetTest_from_app tests more name n :
  (n ≤ length tests)%nat →
  GetTest_from (tests ++ more) name n = GetTest_from tests name n.
Proof.
  induction n as [|i IH]; intros Hn; [done|]. simpl.
  rewrite lookup_app_l by lia. destruct (tests !! i); [|done].
  case_decide; [done|]. apply IH. lia.
Qed.

Lemma GetTest_snoc tests t name :
  GetTest (tests ++ [t]) name =
  if decide (Test_Name t = name) then Some t else GetTest tests name.
Proof.
  unfold GetTest. rewrite length_app. simpl.
  replace (length tests + 1)%nat with (S (length tests)) by lia. simpl.
  rewrite lookup_app_r by lia. rewrite Nat.sub_diag. simpl.
  case_decide; [done|]. by apply GetTest_from_app.
Qed.

(** X1.  Looking up by name after [Append]: the appended test is found
    under its own name, whatever was appended under that name before, and
    the lookup of any other name is as it was. *)
Theorem GetTest_Append tests t name :
  GetTest (Append tests t) (Test_Name t) = Some t ∧
  (Test_Name t ≠ name → GetTest (Append tests t) name = GetTest tests name).
Proof.
  unfold Append. rewrite !GetTest_snoc. split.
  - by rewrite decide_True.
  - intros Hne. by rewrite decide_False.
Qed.

(** X2.  [GetTest] returns the last entry with the name, and nil exactly
    when no entry has it. *)
Theorem GetTest_last_match tests name :
  (∀ t, GetTest tests name = Some t ↔
     ∃ i, tests !! i = Some t ∧ Test_Name t = name ∧
          ∀ j t', (i < j)%nat → tests !! j = Some t' → Test_Name t' ≠ name) ∧
  (GetTest tests name = None ↔ ∀ t, t ∈ tests → Test_Name t ≠ name).
Proof.
  induction tests as [|last tests [IHsome IHnone]] using rev_ind.
  - split.
    + intros t. split; [done|]. by intros (i & Hi & _).
    + split; [|done]. intros _ t Ht. by apply elem_of_nil in Ht.
  - rewrite GetTest_snoc. case_decide as Hlast.
    + split.
      * intros t. split.
        -- intros [= <-]. exists (length tests). split; [|split; [done|]].
           ++ by rewrite lookup_app_r, Nat.sub_diag by lia.
           ++ intros j t' Hj Hlook. apply lookup_lt_Some in Hlook.
              rewrite length_app in Hlook. simpl in Hlook. lia.
        -- intros (i & Hi & Hname & Hafter).
           destruct (decide (i = length tests)) as [->|Hne].
           ++ rewrite lookup_app_r, Nat.sub_diag in Hi by lia. by injection Hi as ->.
           ++ assert (Hlt : (i < length tests)%nat).
              { apply lookup_lt_Some in Hi. rewrite length_app in Hi.
                simpl in Hi. lia. }
              exfalso. apply (Hafter (length tests) last Hlt); [|done].
              by rewrite lookup_app_r, Nat.sub_diag by lia.
      * split; [done|]. intros Hno. exfalso. apply (Hno last); [|done].
        apply elem_of_app. right. by apply list_elem_of_singleton.
    + split.
      * intros t. rewrite IHsome. split.
        -- intros (i & Hi & Hname & Hafter). exists i.
           split; [by apply lookup_app_l_Some|]. split; [done|].
           intros j t' Hj Hlook.
           destruct (decide (j < length tests)%nat) as [Hlt|Hge].
           ++ rewrite lookup_app_l in Hlook by done. by eapply Hafter.
           ++ rewrite lookup_app_r in Hlook by lia.
              destruct (j - length tests)%nat; [|done]. by injection Hlook as <-.
        -- intros (i & Hi & Hname & Hafter).
           assert (Hlt : (i < length tests)%nat).
           { destruct (decide (i < length tests)%nat) as [|Hge]; [done|].
             rewrite lookup_app_r in Hi by lia.
             destruct (i - length tests)%nat; [|done].
             injection Hi as ->. done. }
           rewrite lookup_app_l in Hi by done. exists i.
           split; [done|]. split; [done|]. intros j t' Hj Hlook.
           apply (Hafter j t' Hj). by apply lookup_app_l_Some.
      * rewrite IHnone. split.
        -- intros Hno t Ht. apply elem_of_app in Ht as [Ht|Ht]; [by apply Hno|].
           by apply list_elem_of_singleton in Ht as ->.
        -- intros Hno t Ht. apply Hno. apply elem_of_app. by left.
Qed.
End History.

(** ** Plan loader *)

Section LoaderMore.
Context {Value : Type} `{!EqDecision Value, !Countable Value}.
Context `{yaml : !YamlDecoder (Value := Value)}.
Implicit Types (plan : @TestPlan Value _ _) (testSuite tc : @TestSuite Value)
  (suiteMap : list (string * list (@Test Value))).

Lemma Registry_Init plan : Registry (TestPlan_Init plan).
Proof.
  split_and!; simpl.
  - apply NoDup_nil_2.
  - intros name. rewrite lookup_empty, elem_of_nil. split; [done|by intros [? ?]].
  - intros name tc. by rewrite lookup_empty.
  - apply lookup_empty.
Qed.

Lemma Registry_applyGlobal plan tests :
  Registry plan → Registry (foldl applyGlobal plan tests).
Proof.
  unfold Registry. by destruct (SuiteMap_applyGlobal plan tests) as [-> ->].
Qed.

Lemma Registry_Add plan testSuite :
  TestSuite_Name testSuite ≠ MeqaInit →
  Registry plan → Registry (TestPlan_Add plan testSuite).1.
Proof.
  intros Hname (Hnodup & Hlist & Hnames & Hinit). unfold TestPlan_Add.
  destruct (SuiteMap plan !! TestSuite_Name testSuite) eqn:Hfree; [done|].
  split_and!; simpl.
  - apply NoDup_app. split; [done|]. split; [|apply NoDup_singleton].
    intros name Hin ->%list_elem_of_singleton.
    apply Hlist in Hin. rewrite Hfree in Hin. by destruct Hin.
  - intros name. rewrite elem_of_app, list_elem_of_singleton, Hlist.
    destruct (decide (TestSuite_Name testSuite = name)) as [<-|Hne].
    + rewrite lookup_insert_eq. split; [eauto|by right].
    + rewrite lookup_insert_ne by done. split; [by intros [?|?]|by left].
  - intros name tc.
    destruct (decide (TestSuite_Name testSuite = name)) as [<-|].
    + rewrite lookup_insert_eq. by intros [= <-].
    + rewrite lookup_insert_ne by done. apply Hnames.
  - by rewrite lookup_insert_ne.
Qed.

Lemma Registry_addSuites suiteMap plan :
  Registry plan → Registry (addSuites plan suiteMap).1.
Proof.
  revert plan. induction suiteMap as [|[suiteName testList] rest IH];
    intros plan Hreg; [done|].
  simpl. case_decide as Hinit.
  - by apply IH, Registry_applyGlobal.
  - pose proof (Registry_Add plan
      (TestSuite_with_Tests (Init (Some suiteName) <$> testList)
         (CreateTestSuite suiteName testList plan)) Hinit Hreg) as Hadd.
    destruct (TestPlan_Add plan _) as [plan' [err|]]; [done|]. by apply IH.
Qed.

Lemma Registry_AddFromString plan data :
  Registry plan → Registry (AddFromString plan data).1.
Proof.
  intros Hreg. unfold AddFromString. destruct (yaml_Unmarshal data); [done|].
  by apply Registry_addSuites.
Qed.

Lemma Registry_addChunks chunks plan :
  Registry plan → Registry (addChunks plan chunks).
Proof.
  revert plan. induction chunks as [|chunk chunks IH]; intros plan Hreg; [done|].
  by apply IH, Registry_AddFromString.
Qed.

(** X3.  Whatever the file holds, readable or not, the plan that
    [InitFromFile] leaves is a registry: [SuiteList] has no name twice,
    it lists exactly the names bound in [SuiteMap], every suite is bound
    under its own name, and the reserved name [meqa_init] is not bound. *)
Theorem InitFromFile_registry plan path fs :
  Registry (InitFromFile plan path fs).1.
Proof.
  unfold InitFromFile. destruct (fs_text fs !! path); simpl.
  - apply Registry_addChunks, Registry_Init.
  - apply Registry_Init.
Qed.

(** X4.  A suite is created with the plan's defaults as they are when its
    entry is reached: its parameters are those of the plan at that point,
    copied into an empty bundle, its [Strict] flag and credentials are the
    plan's at that point, its tests are the decoded ones with their
    back-link, and nothing that comes later in the chunk, a [meqa_init]
    entry included, changes it. *)
Theorem AddFromString_creates_with_current_defaults
    plan data before name tests after plan1 :
  yaml_Unmarshal data = inr (before ++ (name, tests) :: after) →
  name ≠ MeqaInit →
  addSuites plan before = (plan1, None) →
  SuiteMap plan1 !! name = None →
  SuiteMap (AddFromString plan data).1 !! name =
    Some (mkTestSuite (Init (Some name) <$> tests) name
            (Copy emptyParams (TestPlan_TestParams plan1))
            (TestPlan_Strict plan1)
            (TestPlan_Username plan1) (TestPlan_Password plan1)
            (TestPlan_ApiToken plan1) "").
Proof.
  intros Hdata Hname Hbefore Hfree. unfold AddFromString. rewrite Hdata.
  rewrite (addSuites_app _ _ _ _ Hbefore). simpl.
  rewrite decide_False by done. unfold TestPlan_Add. simpl. rewrite Hfree.
  eapply lookup_weaken; [|apply addSuites_mono]. simpl.
  by rewrite lookup_insert_eq.
Qed.

Lemma applyGlobal_snoc plan tests t :
  foldl applyGlobal plan (tests ++ [t]) =
  applyGlobal (foldl applyGlobal plan tests) t.
Proof. by rewrite foldl_app. Qed.

(** X5.  A chunk that holds only the reserved entry [meqa_init] registers
    nothing and is accepted; the plan's [Strict] flag becomes that of the
    last test of the entry, and its defaults are the old ones overwritten,
    test after test, by [Copy]. *)
Theorem AddFromString_meqa_init plan data tests t :
  yaml_Unmarshal data = inr [(MeqaInit, tests ++ [t])] →
  (AddFromString plan data).2 = None ∧
  SuiteMap (AddFromString plan data).1 = SuiteMap plan ∧
  SuiteList (AddFromString plan data).1 = SuiteList plan ∧
  TestPlan_Strict (AddFromString plan data).1 = Test_Strict t ∧
  TestPlan_TestParams (AddFromString plan data).1 =
    Copy (foldl Copy (TestPlan_TestParams plan) (Test_TestParams <$> tests))
      (Test_TestParams t).
Proof.
  intros Hdata. unfold AddFromString. rewrite Hdata. cbn [addSuites].
  rewrite decide_True by done. cbn [addSuites fst snd].
  destruct (SuiteMap_applyGlobal plan (tests ++ [t])) as [-> ->].
  split_and!; try done.
  - by rewrite applyGlobal_snoc.
  - rewrite applyGlobal_snoc. simpl. f_equal.
    clear Hdata. revert plan. induction tests as [|t0 tests IH]; intros plan;
      [done|]. simpl. by rewrite IH.
Qed.

Lemma addSuites_provenance suiteMap plan name tc :
  SuiteMap (addSuites plan suiteMap).1 !! name = Some tc →
  SuiteMap plan !! name = Some tc ∨
  ∃ tests, (name, tests) ∈ suiteMap ∧
           TestSuite_Tests tc = Init (Some name) <$> tests.
Proof.
  revert plan. induction suiteMap as [|[suiteName testList] rest IH];
    intros plan Hlook; [by left|].
  simpl in Hlook. case_decide as Hinit.
  - apply IH in Hlook as [Hold|(tests & Hin & Htests)].
    + left. by rewrite (proj1 (SuiteMap_applyGlobal _ _)) in Hold.
    + right. exists tests. split; [by right|done].
  - unfold TestPlan_Add in Hlook. simpl in Hlook.
    destruct (SuiteMap plan !! suiteName) eqn:Hfree; [by left|].
    apply IH in Hlook as [Hold|(tests & Hin & Htests)].
    + simpl in Hold. destruct (decide (suiteName = name)) as [->|Hne].
      * rewrite lookup_insert_eq in Hold. injection Hold as <-.
        right. exists testList. split; [by left|done].
      * rewrite lookup_insert_ne in Hold by done. by left.
    + right. exists tests. split; [by right|done].
Qed.

Lemma addChunks_provenance chunks plan name tc :
  SuiteMap (addChunks plan chunks) !! name = Some tc →
  SuiteMap plan !! name = Some tc ∨
  ∃ chunk suiteMap tests,
    chunk ∈ chunks ∧ yaml_Unmarshal chunk = inr suiteMap ∧
    (name, tests) ∈ suiteMap ∧
    TestSuite_Tests tc = Init (Some name) <$> tests.
Proof.
  revert plan. induction chunks as [|chunk chunks IH]; intros plan Hlook;
    [by left|].
  apply IH in Hlook as [Hold|(chunk' & suiteMap & tests & Hin & ?)].
  - unfold AddFromString in Hold.
    destruct (yaml_Unmarshal chunk) as [err|suiteMap] eqn:Hdata; [by left|].
    apply addSuites_provenance in Hold as [?|(tests & Hin & Htests)];
      [by left|].
    right. exists chunk, suiteMap, tests. split; [by left|done].
  - right. exists chunk', suiteMap, tests. split; [by right|done].
Qed.

(** X6.  Every suite of the plan that [InitFromFile] leaves comes from the
    file: it was decoded, under its name, from one of the chunks between
    the separators, and its tests are the decoded ones with their
    back-link.  What was registered before the load is gone. *)
Theorem InitFromFile_provenance plan path fs name tc :
  SuiteMap (InitFromFile plan path fs).1 !! name = Some tc →
  ∃ data chunk suiteMap tests,
    fs_text fs !! path = Some data ∧
    chunk ∈ Split data "---" ∧
    yaml_Unmarshal chunk = inr suiteMap ∧
    (name, tests) ∈ suiteMap ∧
    TestSuite_Tests tc = Init (Some name) <$> tests.
Proof.
  unfold InitFromFile. destruct (fs_text fs !! path) as [data|]; simpl;
    [|by rewrite lookup_empty].
  intros Hlook. apply addChunks_provenance in Hlook
    as [Hold|(chunk & suiteMap & tests & ?)].
  - simpl in Hold. by rewrite lookup_empty in Hold.
  - by exists data, chunk, suiteMap, tests.
Qed.
End LoaderMore.

(** ** Failure corpus *)

Section CorpusMore.
Context {Value : Type} `{!EqDecision Value, !Countable Value}.
Context `{yaml : !YamlDecoder (Value := Value)}.
Context `{json : !JsonCodec (Value := Value)}.
Implicit Types (plan : @TestPlan Value _ _) (v : @Payload Value)
  (records : list (@Payload Value)) (docs : list string).

(** X7.  [ReadFails] returns nil exactly when the corpus file exists and
    every document in it decodes.  When a document does not decode, the
    error of the decoder is returned, [OldFailuresMap] and [NewFailures]
    are what they were, and [OtherFailures] has received the records of
    other fuzz types that came before that document; when the file is
    missing the plan is what it was. *)
Theorem ReadFails_error_behaviour plan path fs :
  ((ReadFails plan path fs).2 = None ↔
     ∃ docs records,
       fs_records fs !! Join path MeqaFails = Some docs ∧ Decodes docs records) ∧
  (fs_records fs !! Join path MeqaFails = None →
     (ReadFails plan path fs).1 = plan) ∧
  (∀ docs records bad err rest,
     fs_records fs !! Join path MeqaFails = Some (docs ++ bad :: rest) →
     Decodes docs records →
     json_Decode bad = inl err →
     (ReadFails plan path fs).2 = Some err ∧
     OldFailuresMap (ReadFails plan path fs).1 = OldFailuresMap plan ∧
     NewFailures (ReadFails plan path fs).1 = NewFailures plan ∧
     OtherFailures (ReadFails plan path fs).1 =
       OtherFailures plan ++ filter (λ v, ¬ underTest plan v) records).
Proof.
  split_and!.
  - split.
    + intros Hnil. destruct (ReadFails plan path fs) as [plan' err] eqn:Hrun.
      simpl in Hnil. subst err.
      destruct (ReadFails_ok _ _ _ _ Hrun) as (docs & records & Hfile & Hdec & _).
      by exists docs, records.
    + intros (docs & records & Hfile & Hdec). unfold ReadFails. rewrite Hfile.
      by rewrite (decodeLoop_decodable _ _ _ _ Hdec).
  - intros Hfile. unfold ReadFails. by rewrite Hfile.
  - intros docs records bad err rest Hfile Hdec Hbad. unfold ReadFails.
    rewrite Hfile. by rewrite (decodeLoop_bad_value _ _ _ _ _ _ rest Hdec Hbad).
Qed.

(** X8.  Reading the same corpus a second time: [OldFailuresMap] is built
    from the file alone, so it is the same again, while the records of
    other fuzz types are appended to [OtherFailures] once more. *)
Theorem ReadFails_twice plan path fs plan1 :
  ReadFails plan path fs = (plan1, None) →
  ∃ docs records plan2,
    fs_records fs !! Join path MeqaFails = Some docs ∧
    Decodes docs records ∧
    ReadFails plan1 path fs = (plan2, None) ∧
    OldFailuresMap plan2 = OldFailuresMap plan1 ∧
    OtherFailures plan1 =
      OtherFailures plan ++ filter (λ v, ¬ underTest plan v) records ∧
    OtherFailures plan2 =
      OtherFailures plan1 ++ filter (λ v, ¬ underTest plan v) records.
Proof.
  intros Hrun.
  destruct (ReadFails_ok _ _ _ _ Hrun) as (docs & records & Hfile & Hdec & -> & _).
  eexists docs, records, _. split; [exact Hfile|]. split; [exact Hdec|]. split.
  - unfold ReadFails. rewrite Hfile. by apply decodeLoop_decodable.
  - done.
Qed.

(** X9.  [OldFailuresMap] does not depend on the order of the records in
    the corpus, nor on how often a record occurs: two corpora from which
    the same records are decoded give the same fuzz values at every
    endpoint, method and field. *)
Theorem ReadFails_order_irrelevant plan path fs plan1 path' fs' plan2 :
  ReadFails plan path fs = (plan1, None) →
  ReadFails plan path' fs' = (plan2, None) →
  (∀ v,
     (∃ doc, doc ∈ default [] (fs_records fs !! Join path MeqaFails) ∧
             json_Decode doc = inr v) ↔
     (∃ doc, doc ∈ default [] (fs_records fs' !! Join path' MeqaFails) ∧
             json_Decode doc = inr v)) →
  ∀ e m f,
    lookupField (OldFailuresMap plan1) e m f =
    lookupField (OldFailuresMap plan2) e m f.
Proof.
  intros Hrun1 Hrun2 Hsame e m f.
  destruct (ReadFails_ok _ _ _ _ Hrun1) as (docs1 & records1 & Hfile1 & Hdec1 & _ & HT1).
  destruct (ReadFails_ok _ _ _ _ Hrun2) as (docs2 & records2 & Hfile2 & Hdec2 & _ & HT2).
  rewrite Hfile1, Hfile2 in Hsame. simpl in Hsame.
  assert (Hsame' : ∀ v, v ∈ records1 ↔ v ∈ records2).
  { intros v.
    by rewrite (Decodes_elem_of _ _ Hdec1), (Decodes_elem_of _ _ Hdec2). }
  clear Hsame Hrun1 Hrun2 Hfile1 Hfile2.
  destruct (HT1 e m f) as (Hdom1 & Hsound1 & Hcompl1).
  destruct (HT2 e m f) as (Hdom2 & Hsound2 & Hcompl2).
  assert (Hdom : is_Some (lookupField (OldFailuresMap plan1) e m f) ↔
                 is_Some (lookupField (OldFailuresMap plan2) e m f)).
  { rewrite Hdom1, Hdom2. by setoid_rewrite Hsame'. }
  destruct (lookupField (OldFailuresMap plan1) e m f) as [s1|] eqn:H1,
           (lookupField (OldFailuresMap plan2) e m f) as [s2|] eqn:H2.
  - f_equal. apply map_eq. intros fv.
    destruct (s1 !! fv) as [b1|] eqn:Hb1, (s2 !! fv) as [b2|] eqn:Hb2.
    + destruct (Hsound1 s1 fv b1 eq_refl Hb1) as [-> _].
      by destruct (Hsound2 s2 fv b2 eq_refl Hb2) as [-> _].
    + destruct (Hsound1 s1 fv b1 eq_refl Hb1) as (_ & v & Hin & Hp & Hm & <-).
      destruct (Hcompl2 v (proj1 (Hsame' v) Hin) Hp Hm) as (s & [= <-] & Hs).
      congruence.
    + destruct (Hsound2 s2 fv b2 eq_refl Hb2) as (_ & v & Hin & Hp & Hm & <-).
      destruct (Hcompl1 v (proj2 (Hsame' v) Hin) Hp Hm) as (s & [= <-] & Hs).
      congruence.
    + done.
  - destruct (proj1 Hdom) as [? ?]; [eauto|done].
  - destruct (proj2 Hdom) as [? ?]; [eauto|done].
  - done.
Qed.

(** X10.  What [WriteFailures] does to the files when both can be opened
    and every record is encoded: it returns nil; the run-scoped file holds
    exactly the documents of the [NewFailures] records, with the metadata
    of the sidecar; the cumulative file holds those of its own encoder
    after its former content in append mode, and after the documents of
    the [OtherFailures] records alone in repro mode; no other file
    changes, and of the plan only the metadata of the [NewFailures]
    records. *)
Theorem WriteFailures_files plan path fs carriedDocs mqDocs nfDocs :
  Join path MeqaFails ∉ fs_denied fs →
  Join path NewFails ∉ fs_denied fs →
  Encodes (Join path MeqaFails)
    (if Repro plan then OtherFailures plan else []) carriedDocs →
  Encodes (Join path MeqaFails)
    (Payload_with_Meta (ReadMetadata path fs) <$> NewFailures plan) mqDocs →
  Encodes (Join path NewFails)
    (Payload_with_Meta (ReadMetadata path fs) <$> NewFailures plan) nfDocs →
  ∃ plan1 fs1,
    WriteFailures plan path fs = (plan1, fs1, None) ∧
    plan1 =
      TestPlan_with_failures (OldFailuresMap plan)
        (Payload_with_Meta (ReadMetadata path fs) <$> NewFailures plan)
        (OtherFailures plan) plan ∧
    fs_records fs1 !! Join path NewFails = Some nfDocs ∧
    fs_records fs1 !! Join path MeqaFails =
      Some (if Repro plan then carriedDocs ++ mqDocs
            else default [] (fs_records fs !! Join path MeqaFails) ++ mqDocs) ∧
    (∀ p, p ≠ Join path MeqaFails → p ≠ Join path NewFails →
          fs_records fs1 !! p = fs_records fs !! p) ∧
    fs_text fs1 = fs_text fs ∧ fs_denied fs1 = fs_denied fs.
Proof.
  intros Hmq Hnf Hcarried Hmqs Hnfs. eexists _, _.
  split; [by apply WriteFailures_writable|].
  split; [done|]. cbn [fs_records fs_text fs_denied].
  split; [by rewrite lookup_insert_eq|]. split.
  - rewrite lookup_insert_ne by apply Join_MeqaFails_NewFails.
    rewrite lookup_insert_eq. destruct (Repro plan); [done|].
    by apply Forall2_nil_inv_l in Hcarried as ->.
  - split; [|done]. intros p Hp1 Hp2. by rewrite !lookup_insert_ne.
Qed.

(** X11.  From one run to the next in repro mode, when every record is
    encoded and the codec reads back what it wrote.  If [OtherFailures] is
    what [ReadFails] collected from the corpus, then after [WriteFailures]
    in repro mode the corpus decodes to the former records of the other
    fuzz types, in their order, followed by the failures of this run; the
    former records of the fuzz type under test are gone unless the run
    found them again. *)
Theorem WriteFailures_repro_keeps_other_evidence
    plan0 path fs plan1 plan carriedDocs mqDocs nfDocs :
  ReadFails plan0 path fs = (plan1, None) →
  OtherFailures plan0 = [] →
  OtherFailures plan = OtherFailures plan1 →
  Repro plan = true →
  Join path MeqaFails ∉ fs_denied fs →
  Join path NewFails ∉ fs_denied fs →
  Encodes (Join path MeqaFails) (OtherFailures plan) carriedDocs →
  Encodes (Join path MeqaFails)
    (Payload_with_Meta (ReadMetadata path fs) <$> NewFailures plan) mqDocs →
  Encodes (Join path NewFails)
    (Payload_with_Meta (ReadMetadata path fs) <$> NewFailures plan) nfDocs →
  Decodes carriedDocs (OtherFailures plan) →
  Decodes mqDocs
    (Payload_with_Meta (ReadMetadata path fs) <$> NewFailures plan) →
  ∃ docs records plan' fs',
    fs_records fs !! Join path MeqaFails = Some docs ∧
    Decodes docs records ∧
    WriteFailures plan path fs = (plan', fs', None) ∧
    fs_records fs' !! Join path MeqaFails = Some (carriedDocs ++ mqDocs) ∧
    Decodes (carriedDocs ++ mqDocs)
      (filter (λ v, ¬ underTest plan0 v) records ++ NewFailures plan').
Proof.
  intros Hread Hfresh Hother Hrepro Hmq Hnf Hcarried Hmqs Hnfs Hback1 Hback2.
  destruct (ReadFails_ok _ _ _ _ Hread) as (docs & records & Hfile & Hdec & -> & _).
  simpl in Hother. rewrite Hfresh in Hother. simpl in Hother.
  assert (Hcarried' : Encodes (Join path MeqaFails)
            (if Repro plan then OtherFailures plan else []) carriedDocs)
    by by rewrite Hrepro.
  eexists docs, records, _, _. split; [done|]. split; [done|].
  split; [by apply WriteFailures_writable|].
  cbn [fs_records NewFailures TestPlan_with_failures].
  rewrite lookup_insert_ne by apply Join_MeqaFails_NewFails.
  rewrite lookup_insert_eq, Hrepro. split; [done|].
  rewrite <- Hother. by apply Decodes_app.
Qed.

(** X12.  When a file cannot be opened, [WriteFailures] returns the error
    and writes no record, and the plan is as it was.  If it is the
    cumulative file, nothing has happened.  If it is the run-scoped file,
    the cumulative file has been opened before: it exists afterwards, with
    its former content in append mode and empty in repro mode. *)
Theorem WriteFailures_open_fails plan path fs :
  (Join path MeqaFails ∈ fs_denied fs →
     ∃ err, WriteFailures plan path fs = (plan, fs, Some err)) ∧
  (Join path MeqaFails ∉ fs_denied fs →
   Join path NewFails ∈ fs_denied fs →
     ∃ err fs',
       WriteFailures plan path fs = (plan, fs', Some err) ∧
       fs_records fs' !! Join path MeqaFails =
         Some (if Repro plan then []
               else default [] (fs_records fs !! Join path MeqaFails)) ∧
       (∀ p, p ≠ Join path MeqaFails →
             fs_records fs' !! p = fs_records fs !! p) ∧
       fs_text fs' = fs_text fs).
Proof.
  split.
  - intros Hmq. eexists. unfold WriteFailures. cbv zeta.
    by rewrite decide_True.
  - intros Hmq Hnf. eexists _, _. split.
    { unfold WriteFailures. cbv zeta. rewrite decide_False by done.
      cbn [fs_denied]. rewrite decide_True by done. reflexivity. }
    cbn [fs_records fs_text]. split; [by rewrite lookup_insert_eq|].
    split; [|done]. intros p Hp. by rewrite lookup_insert_ne.
Qed.

(** X19.  When both files are open and a record cannot be encoded,
    [WriteFailures] returns the error of the encoder and leaves the files
    as far as it got.  In repro mode a record of [OtherFailures] that
    fails leaves the truncated cumulative file with the documents of the
    records before it only, the run-scoped file empty and the plan as it
    was.  A record of [NewFailures] that fails on the cumulative file
    leaves both files with the documents of the records before it; one
    that fails on the run-scoped file is in the cumulative file already.
    In both cases the metadata has been written into the records up to
    and including the one that failed, and not into those after it. *)
Theorem WriteFailures_encode_fails plan path fs :
  Join path MeqaFails ∉ fs_denied fs →
  Join path NewFails ∉ fs_denied fs →
  (∀ records docs bad err rest,
     Repro plan = true →
     OtherFailures plan = records ++ bad :: rest →
     Encodes (Join path MeqaFails) records docs →
     json_Encode (Join path MeqaFails) bad = inl err →
     ∃ fs',
       WriteFailures plan path fs = (plan, fs', Some err) ∧
       fs_records fs' !! Join path MeqaFails = Some docs ∧
       fs_records fs' !! Join path NewFails = Some []) ∧
  (∀ carriedDocs records mqDocs nfDocs bad rest,
     Encodes (Join path MeqaFails)
       (if Repro plan then OtherFailures plan else []) carriedDocs →
     NewFailures plan = records ++ bad :: rest →
     Encodes (Join path MeqaFails)
       (Payload_with_Meta (ReadMetadata path fs) <$> records) mqDocs →
     Encodes (Join path NewFails)
       (Payload_with_Meta (ReadMetadata path fs) <$> records) nfDocs →
     (∀ err,
        json_Encode (Join path MeqaFails)
          (Payload_with_Meta (ReadMetadata path fs) bad) = inl err →
        ∃ plan' fs',
          WriteFailures plan path fs = (plan', fs', Some err) ∧
          NewFailures plan' =
            (Payload_with_Meta (ReadMetadata path fs) <$> records) ++
            Payload_with_Meta (ReadMetadata path fs) bad :: rest ∧
          fs_records fs' !! Join path MeqaFails =
            Some ((if Repro plan then []
                   else default [] (fs_records fs !! Join path MeqaFails)) ++
                  carriedDocs ++ mqDocs) ∧
          fs_records fs' !! Join path NewFails = Some nfDocs) ∧
     (∀ doc err,
        json_Encode (Join path MeqaFails)
          (Payload_with_Meta (ReadMetadata path fs) bad) = inr doc →
        json_Encode (Join path NewFails)
          (Payload_with_Meta (ReadMetadata path fs) bad) = inl err →
        ∃ plan' fs',
          WriteFailures plan path fs = (plan', fs', Some err) ∧
          NewFailures plan' =
            (Payload_with_Meta (ReadMetadata path fs) <$> records) ++
            Payload_with_Meta (ReadMetadata path fs) bad :: rest ∧
          fs_records fs' !! Join path MeqaFails =
            Some ((if Repro plan then []
                   else default [] (fs_records fs !! Join path MeqaFails)) ++
                  carriedDocs ++ mqDocs ++ [doc]) ∧
          fs_records fs' !! Join path NewFails = Some nfDocs)).
Proof.
  intros Hmq Hnf. pose proof (WriteFailures_opened plan path fs Hmq Hnf) as Hopen.
  cbv zeta in Hopen.
  split.
  - intros records docs bad err rest Hrepro Hothers Henc Hbad.
    rewrite Hopen, Hrepro, Hothers.
    rewrite (encodeOthers_fail _ _ _ _ _ rest _ Henc Hbad).
    eexists. split; [done|]. cbn [fs_records]. simpl app.
    rewrite lookup_insert_eq. split; [done|].
    rewrite lookup_insert_ne by (apply not_eq_sym, Join_MeqaFails_NewFails).
    by rewrite lookup_insert_eq.
  - intros carriedDocs records mqDocs nfDocs bad rest Hcarried Hnew Hmqs Hnfs.
    assert (Hfirst :
      (if Repro plan
       then encodeOthers (Join path MeqaFails) (OtherFailures plan)
              (if Repro plan then []
               else default [] (fs_records fs !! Join path MeqaFails))
       else (if Repro plan then []
             else default [] (fs_records fs !! Join path MeqaFails), None)) =
      ((if Repro plan then []
        else default [] (fs_records fs !! Join path MeqaFails)) ++ carriedDocs,
       None)).
    { destruct (Repro plan); [by apply encodeOthers_ok|].
      apply Forall2_nil_inv_l in Hcarried as ->. by rewrite app_nil_r. }
    rewrite Hopen, Hfirst, Hnew.
    rewrite (encodeNew_fail _ _ _ _ _ _ bad rest _ _ Hmqs Hnfs).
    split.
    + intros err Hbad. rewrite Hbad. eexists _, _. split; [done|].
      split; [done|]. cbn [fs_records].
      rewrite lookup_insert_eq.
      rewrite lookup_insert_ne by apply Join_MeqaFails_NewFails.
      rewrite lookup_insert_eq. by rewrite <- app_assoc.
    + intros doc err Hdoc Hbad. rewrite Hdoc, Hbad. eexists _, _.
      split; [done|]. split; [done|]. cbn [fs_records].
      rewrite lookup_insert_eq.
      rewrite lookup_insert_ne by apply Join_MeqaFails_NewFails.
      rewrite lookup_insert_eq. by rewrite <- !app_assoc.
Qed.
End CorpusMore.

(** ** Comments of a dumped plan *)

Section Comments.

Lemma append_cons (c : ascii) (a b : string) :
  String c a +:+ b = String c (a +:+ b).
Proof. reflexivity. Qed.

Lemma append_assoc (a b c : string) : (a +:+ b) +:+ c = a +:+ (b +:+ c).
Proof.
  induction a as [|x a IH]; [done|]. rewrite !append_cons. by f_equal.
Qed.

Lemma append_empty_r (a : string) : a +:+ "" = a.
Proof. induction a as [|x a IH]; [done|]. rewrite append_cons. by f_equal. Qed.

Lemma oneLine_app a b : oneLine (a +:+ b) ↔ oneLine a ∧ oneLine b.
Proof.
  induction a as [|x a IH].
  - change ("" +:+ b) with b. simpl. tauto.
  - rewrite append_cons. simpl. rewrite IH. tauto.
Qed.

Lemma Split_from_LF_cons cur c s :
  Split_from LF 0 cur (String c s) =
  if decide (c = "010"%char) then cur :: Split_from LF 0 "" s
  else Split_from LF 0 (cur +:+ String c "") s.
Proof.
  cbn [Split_from]. unfold LF at 1. cbn [String.prefix].
  destruct (ascii_dec "010" c) as [<-|Hne].
  - rewrite decide_True by done. by destruct s.
  - by rewrite decide_False.
Qed.

(** Splitting a text that starts with a line. *)
Lemma Split_from_line cur line rest :
  oneLine line →
  Split_from LF 0 cur (line +:+ LF +:+ rest) =
  (cur +:+ line) :: Split_from LF 0 "" rest.
Proof.
  revert cur. induction line as [|c line IH]; intros cur Hline.
  - change ("" +:+ LF +:+ rest) with (String "010" rest).
    rewrite Split_from_LF_cons, decide_True by done.
    by rewrite append_empty_r.
  - destruct Hline as [Hc Hline]. rewrite append_cons, Split_from_LF_cons.
    rewrite decide_False by done. rewrite IH by done.
    by rewrite append_assoc.
Qed.

(** The pieces [Split] cuts at the line feeds have no line feed. *)
Lemma Split_from_oneLine cur s :
  oneLine cur → Forall oneLine (Split_from LF 0 cur s).
Proof.
  revert cur. induction s as [|c s IH]; intros cur Hcur.
  - by apply Forall_singleton.
  - rewrite Split_from_LF_cons. case_decide as Hc.
    + apply Forall_cons. split; [done|]. by apply IH.
    + apply IH. apply oneLine_app. by split.
Qed.

Lemma writeLines_from (lines : list string) (written : string) :
  foldl (λ written line, written +:+ ("# " +:+ line +:+ LF)) written lines =
  written +:+
  foldl (λ written line, written +:+ ("# " +:+ line +:+ LF)) "" lines.
Proof.
  revert written. induction lines as [|line lines IH]; intros written;
    cbn [foldl].
  - by rewrite append_empty_r.
  - rewrite IH. rewrite (IH ("" +:+ _)). by rewrite append_assoc.
Qed.

Lemma Split_writeLines (lines : list string) :
  Forall oneLine lines →
  Split (foldl (λ written line, written +:+ ("# " +:+ line +:+ LF)) "" lines)
    LF =
  ((λ line, "# " +:+ line) <$> lines) ++ [""].
Proof.
  induction 1 as [|line lines Hline Hlines IH]; [done|].
  cbn [foldl]. rewrite writeLines_from. unfold Split in *.
  change ("" +:+ ("# " +:+ line +:+ LF))
    with (("# " +:+ line) +:+ LF).
  rewrite append_assoc.
  rewrite (Split_from_line "" ("# " +:+ line)).
  - by rewrite IH.
  - rewrite !append_cons. simpl. done.
Qed.

(** X13.  [WriteComment] writes one line for every line of the comment,
    each one behind the marker [# ], and ends with a line feed: cut at the
    line feeds, the text written is the lines of the comment with the
    marker in front, followed by an empty piece. *)
Theorem WriteComment_marks_every_line comment :
  Split (WriteComment comment) LF =
  ((λ line, "# " +:+ line) <$> Split comment LF) ++ [""].
Proof.
  unfold WriteComment. apply Split_writeLines.
  by apply Split_from_oneLine.
Qed.
End Comments.

(** ** Execution engine *)

Section EngineMore.
Context {Value : Type} `{!EqDecision Value, !Countable Value}.
Context `{runner : !StepRunner (Value := Value)}.
Implicit Types (plan : @TestPlan Value _ _) (tc : @TestSuite Value)
  (test dup : @Test Value) (env : Env) (resultCounts : gmap string Z)
  (tcErr : option error).

(** ** What a run leaves alone *)

Lemma Grows_refl env : Grows env env.
Proof. exists [], []. by rewrite !app_nil_r. Qed.

Lemma Grows_trans env1 env2 env3 :
  Grows env1 env2 → Grows env2 env3 → Grows env1 env3.
Proof.
  intros (ex1 & pl1 & Hr1 & Hh1 & Hn1 & Hc1 & Hd1)
         (ex2 & pl2 & Hr2 & Hh2 & Hn2 & Hc2 & Hd2).
  exists (ex1 ++ ex2), (pl1 ++ pl2).
  rewrite Hr2, Hr1, Hh2, Hh1, Hn2, Hn1, Hc2, Hc1, Hd2, Hd1.
  by rewrite !app_assoc.
Qed.

Lemma Grows_setSuite env name tc tc' :
  SuiteMap (env_plan env) !! name = Some tc →
  Grows env (setSuite env name tc').
Proof.
  intros Htc. exists [], []. rewrite !app_nil_r.
  split; [done|]. split; [done|]. split; [done|]. split; [done|].
  simpl. apply dom_insert_lookup_L. by rewrite Htc.
Qed.

Lemma Grows_runStep env tc i test parent resultCounts tcErr :
  Grows env (runStep env tc i test parent resultCounts tcErr).1.
Proof.
  unfold runStep.
  destruct (Test_Run _ _ _ _ _) as [[[world dup] payloads] err].
  exists [Test_with_err err dup], payloads.
  destruct (_ && _); [destruct (Test_resp _) as [s|];
                      [destruct (bool_decide (300 ≤ s))|]|]; done.
Qed.

Lemma runTests_Grows rec name parentTest :
  (∀ env name parentTest env' result,
     rec env name parentTest = Some (env', result) → Grows env env') →
  ∀ todo i env resultCounts tcErr env' result,
    runTests rec name parentTest todo i env resultCounts tcErr =
      Some (env', result) →
    Grows env env'.
Proof.
  intros Hrec. induction todo as [|todo IH];
    intros i env resultCounts tcErr env' result Hrun.
  - injection Hrun as <- <-. apply Grows_refl.
  - cbn [runTests deref] in Hrun.
    destruct (SuiteMap (env_plan env) !! name) as [tc|] eqn:Htc;
      [|injection Hrun as <- <-; apply Grows_refl].
    destruct (TestSuite_Tests tc !! i) as [test|] eqn:Htest;
      [|injection Hrun as <- <-; apply Grows_refl].
    case_bool_decide as Href.
    { set (tc' := TestSuite_with_Tests _ tc) in Hrun.
      pose proof (Grows_setSuite env name tc tc' Htc) as Hset.
      destruct (rec (setSuite env name tc') (Test_Ref test)
                  (Some (Declared name i)))
        as [[env2 [nestedCounts [err|]|]]|] eqn:Hnested; [..|done].
      - injection Hrun as <- <-. eapply Grows_trans; [exact Hset|by eapply Hrec].
      - apply IH in Hrun. eapply Grows_trans; [exact Hset|].
        eapply Grows_trans; [by eapply Hrec|exact Hrun].
      - injection Hrun as <- <-. eapply Grows_trans; [exact Hset|by eapply Hrec]. }
    case_bool_decide as Hinit.
    { apply IH in Hrun. eapply Grows_trans; [|exact Hrun].
      by eapply Grows_setSuite. }
    destruct (derefParent (env_plan env) parentTest) as [parent|];
      [|injection Hrun as <- <-; apply Grows_refl].
    pose proof (Grows_runStep env tc i test parent resultCounts tcErr) as Hstep.
    destruct (runStep env tc i test parent resultCounts tcErr)
      as [env1 [[resultCounts1 tcErr1]|result1]].
    + apply IH in Hrun. eapply Grows_trans; [exact Hstep|exact Hrun].
    + by injection Hrun as <- <-.
Qed.

Lemma Run_Grows fuel :
  ∀ env name parentTest env' result,
    Run fuel env name parentTest = Some (env', result) → Grows env env'.
Proof.
  induction fuel as [|fuel IH]; intros env name parentTest env' result Hrun;
    [done|].

  cbn [Run] in Hrun.
  destruct (SuiteMap (env_plan env) !! name) as [tc|];
    [|injection Hrun as <- <-; apply Grows_refl].
  case_bool_decide; [injection Hrun as <- <-; apply Grows_refl|].
  by eapply runTests_Grows.
Qed.

(** X14.  Whatever a call of [Run] does, at any depth of the recursion: it
    appends the same duplicates, in the same order, to [resultList] and to
    the history, it appends to [NewFailures], and it leaves the rest of
    the plan alone: the list and the names of the suites, the global
    defaults, [ResultCounts], [OldFailuresMap], [OtherFailures] and the fuzz
    settings.  The step runner, which is outside plan.go, acts on the
    duplicate it is given. *)
Theorem Run_only_appends fuel env name parentTest env' result :
  Run fuel env name parentTest = Some (env', result) →
  Grows env env'.
Proof. apply Run_Grows. Qed.

(** ** Counters *)

Lemma count_incr (k k' : string) (n : Z) (m : gmap string Z) :
  count (incr k n m) k' = if decide (k = k') then count m k + n else count m k'.
Proof.
  unfold incr, count. case_decide as Hk.
  - subst k'. by rewrite lookup_insert_eq.
  - by rewrite lookup_insert_ne.
Qed.

(** How a step counts: the duplicate it appends carries the error of the
    step, and the counters move by that duplicate alone. *)
Lemma runStep_counts env tc i test parent resultCounts tcErr :
  ∃ dup resultCounts' tcErr',
    resultList (env_plan (runStep env tc i test parent resultCounts tcErr).1) =
      resultList (env_plan env) ++ [dup] ∧
    SuiteMap (env_plan (runStep env tc i test parent resultCounts tcErr).1) =
      SuiteMap (env_plan env) ∧
    count resultCounts' Total = count resultCounts Total ∧
    count resultCounts' Skipped = count resultCounts Skipped ∧
    count resultCounts' Failed =
      count resultCounts Failed + (match Test_err dup with Some _ => 1 | None => 0 end) ∧
    count resultCounts' Passed =
      count resultCounts Passed + (match Test_err dup with Some _ => 0 | None => 1 end) ∧
    count resultCounts' SchemaMismatch =
      count resultCounts SchemaMismatch +
      (match Test_schemaError dup with Some _ => 1 | None => 0 end) ∧
    tcErr' = (match tcErr with Some e => Some e | None => Test_err dup end) ∧
    ((runStep env tc i test parent resultCounts tcErr).2 =
       inl (resultCounts', tcErr') ∨
     (runStep env tc i test parent resultCounts tcErr).2 = inr Panicked ∨
     (runStep env tc i test parent resultCounts tcErr).2 =
       inr (Returned
              (incr Skipped
                 (Z.of_nat (length (TestSuite_Tests tc)) - Z.of_nat i - 1)
                 resultCounts') tcErr')).
Proof.
  unfold runStep.
  destruct (Test_Run _ _ _ _ _) as [[[world dup] payloads] err].
  exists (Test_with_err err dup),
    (let resultCounts :=
       match Test_schemaError (Test_with_err err dup) with
       | Some _ => incr SchemaMismatch 1 resultCounts
       | None => resultCounts
       end in
     match err with
     | Some _ => incr Failed 1 resultCounts
     | None => incr Passed 1 resultCounts
     end),
    (match err, tcErr with
     | Some e, None => Some e
     | _, _ => tcErr
     end).
  split; [by destruct (_ && _); [destruct (Test_resp _) as [s|];
                      [destruct (bool_decide (300 ≤ s))|]|]|].
  split; [by destruct (_ && _); [destruct (Test_resp _) as [s|];
                      [destruct (bool_decide (300 ≤ s))|]|]|].
  repeat match goal with |- _ ∧ _ => split end.
  7:{ destruct (_ && _); [destruct (Test_resp _) as [s|];
        [destruct (bool_decide (300 ≤ s))|]|]; simpl; eauto. }
  all: simpl; destruct (Test_schemaError dup), err; rewrite ?count_incr;
    simpl; try destruct tcErr; try done; try lia.
Qed.

Lemma head_omap_snoc {A B} (f : A → option B) (l : list A) (x : A) :
  head (omap f (l ++ [x])) =
  match head (omap f l) with Some e => Some e | None => f x end.
Proof.
  rewrite omap_app. destruct (omap f l) as [|e l']; simpl.
  - by destruct (f x).
  - done.
Qed.

Lemma Counted_snoc n executed dup resultCounts tcErr resultCounts' tcErr' :
  Counted n executed resultCounts tcErr →
  count resultCounts' Total = count resultCounts Total →
  count resultCounts' Skipped = count resultCounts Skipped →
  count resultCounts' Failed =
    count resultCounts Failed +
    (match Test_err dup with Some _ => 1 | None => 0 end) →
  count resultCounts' Passed =
    count resultCounts Passed +
    (match Test_err dup with Some _ => 0 | None => 1 end) →
  count resultCounts' SchemaMismatch =
    count resultCounts SchemaMismatch +
    (match Test_schemaError dup with Some _ => 1 | None => 0 end) →
  tcErr' = (match tcErr with Some e => Some e | None => Test_err dup end) →
  Counted n (executed ++ [dup]) resultCounts' tcErr'.
Proof.
  intros (HT & HF & HP & HM & HS & HE) HT' HS' HF' HP' HM' HE'.
  unfold Counted. rewrite !filter_app, !length_app, head_omap_snoc.
  rewrite !filter_cons, !filter_nil.
  rewrite HT', HS', HF', HP', HM', HE', HT, HS, HF, HP, HM, HE.
  repeat split; try done.
  - destruct (Test_err dup); [rewrite decide_True by eauto|
      rewrite decide_False by (by intros [? ?])]; simpl; lia.
  - destruct (Test_err dup); [rewrite decide_False by done|
      rewrite decide_True by done]; simpl; lia.
  - destruct (Test_schemaError dup); [rewrite decide_True by eauto|
      rewrite decide_False by (by intros [? ?])]; simpl; lia.
Qed.

(** The loop over a suite of concrete steps, with the duplicates executed
    so far. *)
Lemma runTests_tally rec name parentTest tc :
  Forall concrete (TestSuite_Tests tc) →
  ∀ todo i env resultCounts tcErr done env' resultCounts' err,
    SuiteMap (env_plan env) !! name = Some tc →
    (i + todo = length (TestSuite_Tests tc))%nat →
    length done = i →
    Counted (length (TestSuite_Tests tc)) done resultCounts tcErr →
    runTests rec name parentTest todo i env resultCounts tcErr =
      Some (env', Returned resultCounts' err) →
    ∃ executed,
      resultList (env_plan env') = resultList (env_plan env) ++ executed ∧
      (length (done ++ executed) ≤ length (TestSuite_Tests tc))%nat ∧
      Tally (length (TestSuite_Tests tc)) (done ++ executed) resultCounts' err.
Proof.
  intros Hconcrete. induction todo as [|todo IH];
    intros i env resultCounts tcErr done env' resultCounts' err
      Htc Hlen Hdone Hinv Hrun.
  - injection Hrun as <- <- <-. exists []. rewrite !app_nil_r.
    split; [done|]. split; [lia|].
    destruct Hinv as (HT & HF & HP & HM & HS & HE).
    unfold Tally. rewrite HS. repeat split; try done. lia.
  - assert (is_Some (TestSuite_Tests tc !! i)) as [test Htest].
    { apply lookup_lt_is_Some. lia. }
    assert (Hc : concrete test).
    { eapply Forall_lookup_1; [exact Hconcrete|exact Htest]. }
    destruct Hc as [Href Hname].
    cbn [runTests deref] in Hrun. rewrite Htc, Htest in Hrun.
    rewrite bool_decide_eq_false_2 in Hrun by (by intros []).
    rewrite bool_decide_eq_false_2 in Hrun by done.
    destruct (derefParent (env_plan env) parentTest) as [parent|]; [|done].
    destruct (runStep_counts env tc i test parent resultCounts tcErr)
      as (dup & resultCounts1 & tcErr1 & Hres & Hmap & HT & HS & HF & HP & HM &
          HE & Hnext).
    pose proof (Counted_snoc _ _ dup _ _ _ _ Hinv HT HS HF HP HM HE) as Hinv1.
    destruct (runStep env tc i test parent resultCounts tcErr)
      as [env1 next]. simpl in Hres, Hmap, Hnext.
    destruct Hnext as [->|[->| ->]].
    + destruct (IH (S i) env1 resultCounts1 tcErr1 (done ++ [dup]) env'
                  resultCounts' err) as (executed & Hres' & Hle & Htally);
        [by rewrite Hmap|lia|by rewrite length_app; simpl; lia|done|done|].
      exists (dup :: executed). rewrite Hres', Hres, <- !app_assoc in *.
      done.
    + done.
    + injection Hrun as <- <- <-. exists [dup]. split; [done|].
      rewrite length_app. simpl. split; [lia|].
      destruct Hinv1 as (HT1 & HF1 & HP1 & HM1 & HS1 & HE1).
      unfold Tally. rewrite !count_incr. simpl.
      rewrite HT1, HF1, HP1, HM1, HS1, HE1, length_app. simpl.
      repeat split; try done. lia.
Qed.

(** X15.  A suite of N concrete steps that returns: the counters are the
    tally of the duplicates the call appended to [resultList].  [Failed]
    counts those with an error, [Passed] those without, [SchemaMismatch]
    those with a schema error, [Skipped] is N minus the number executed,
    [Total] is N, and the error returned is the error of the first
    duplicate that has one. *)
Theorem Run_concrete_tally fuel env name parentTest tc env' resultCounts err :
  SuiteMap (env_plan env) !! name = Some tc →
  TestSuite_Tests tc ≠ [] →
  Forall concrete (TestSuite_Tests tc) →
  Run (S fuel) env name parentTest = Some (env', Returned resultCounts err) →
  ∃ executed,
    resultList (env_plan env') = resultList (env_plan env) ++ executed ∧
    (length executed ≤ length (TestSuite_Tests tc))%nat ∧
    Tally (length (TestSuite_Tests tc)) executed resultCounts err.
Proof.
  intros Htc Hne Hconcrete Hrun. cbn [Run] in Hrun. rewrite Htc in Hrun.
  rewrite bool_decide_eq_false_2 in Hrun
    by (by intros ?%length_zero_iff_nil).
  eapply (runTests_tally _ _ _ tc Hconcrete (length (TestSuite_Tests tc))
            0%nat env _ _ [] env' resultCounts err Htc); [done..| |exact Hrun].
  unfold Counted, count, Failed, Total, Passed, SchemaMismatch, Skipped. simpl.
  repeat split; done.
Qed.

(** ** Counters of any suite *)

Lemma suiteLength_declarations env env' name :
  declarations (env_plan env') = declarations (env_plan env) →
  suiteLength env' name = suiteLength env name.
Proof.
  intros Hd. apply (f_equal (λ m, length <$> m !! name)) in Hd.
  unfold declarations in Hd. rewrite !lookup_fmap in Hd.
  unfold suiteLength.
  destruct (SuiteMap (env_plan env') !! name),
    (SuiteMap (env_plan env) !! name); simpl in *; try done.
  rewrite !length_fmap in Hd. done.
Qed.

Lemma Balanced_empty : Balanced ∅.
Proof. unfold Balanced, count. rewrite !lookup_empty. simpl. lia. Qed.

Lemma runTests_Balanced rec name parentTest (n : nat) :
  (∀ env name parentTest env' result,
     rec env name parentTest = Some (env', result) →
     declarations (env_plan env') = declarations (env_plan env) ∧
     ∀ resultCounts err, result = Returned resultCounts err →
                         Balanced resultCounts) →
  ∀ todo i env resultCounts tcErr env' resultCounts' err,
    suiteLength env name = Some n →
    (i + todo = n)%nat →
    count resultCounts Total = Z.of_nat n →
    count resultCounts Skipped = 0 →
    0 ≤ count resultCounts Passed → 0 ≤ count resultCounts Failed →
    0 ≤ count resultCounts SchemaMismatch →
    count resultCounts Passed + count resultCounts Failed ≤ Z.of_nat i →
    count resultCounts SchemaMismatch ≤
      count resultCounts Passed + count resultCounts Failed →
    runTests rec name parentTest todo i env resultCounts tcErr =
      Some (env', Returned resultCounts' err) →
    Balanced resultCounts'.
Proof.
  intros Hrec. induction todo as [|todo IH];
    intros i env resultCounts tcErr env' resultCounts' err
      Hn Hlen HT HS HP HF HM Hsum Hmis Hrun.
  - injection Hrun as <- <- <-. unfold Balanced. lia.
  - cbn [runTests deref] in Hrun. unfold suiteLength in Hn.
    destruct (SuiteMap (env_plan env) !! name) as [tc|] eqn:Htc; [|done].
    injection Hn as Hn.
    destruct (TestSuite_Tests tc !! i) as [test|] eqn:Htest; [|done].
    case_bool_decide as Href.
    { set (tc' := TestSuite_with_Tests _ tc) in Hrun.
      assert (Hset : suiteLength (setSuite env name tc') name = Some n).
      { unfold suiteLength. simpl. rewrite lookup_insert_eq. simpl.
        by rewrite length_insert, Hn. }
      destruct (rec (setSuite env name tc') (Test_Ref test)
                  (Some (Declared name i)))
        as [[env2 [nestedCounts [e|]|]]|] eqn:Hnested; [| |done..].
      - injection Hrun as <- <- <-.
        by apply (proj2 (Hrec _ _ _ _ _ Hnested) nestedCounts (Some e)).
      - eapply (IH (S i) env2); [|lia|done..|lia|done|exact Hrun].
        by rewrite (suiteLength_declarations _ _ _ (proj1 (Hrec _ _ _ _ _ Hnested))). }
    case_bool_decide as Hinit.
    { eapply (IH (S i)); [|lia|done..|lia|done|exact Hrun].
      unfold suiteLength. simpl. rewrite lookup_insert_eq. simpl. by rewrite Hn. }
    destruct (derefParent (env_plan env) parentTest) as [parent|]; [|done].
    destruct (runStep_counts env tc i test parent resultCounts tcErr)
      as (dup & resultCounts1 & tcErr1 & _ & Hmap & HT1 & HS1 & HF1 & HP1 &
          HM1 & _ & Hnext).
    destruct (runStep env tc i test parent resultCounts tcErr)
      as [env1 next]. simpl in Hmap, Hnext.
    assert (Hstep :
      0 ≤ count resultCounts1 Passed ∧ 0 ≤ count resultCounts1 Failed ∧
      0 ≤ count resultCounts1 SchemaMismatch ∧
      count resultCounts1 Passed + count resultCounts1 Failed ≤ Z.of_nat (S i) ∧
      count resultCounts1 SchemaMismatch ≤
        count resultCounts1 Passed + count resultCounts1 Failed).
    { rewrite HF1, HP1, HM1.
      destruct (Test_err dup), (Test_schemaError dup); lia. }
    destruct Hstep as (HP' & HF' & HM' & Hsum' & Hmis').
    destruct Hnext as [->|[->| ->]].
    + eapply (IH (S i) env1 resultCounts1); [|lia|lia|lia|done..|exact Hrun].
      unfold suiteLength. by rewrite Hmap, Htc, <- Hn.
    + done.
    + injection Hrun as <- <- <-. unfold Balanced. rewrite !count_incr. simpl.
      apply lookup_lt_Some in Htest. lia.
Qed.

Lemma Run_Balanced fuel :
  ∀ env name parentTest env' resultCounts err,
    Run fuel env name parentTest = Some (env', Returned resultCounts err) →
    Balanced resultCounts.
Proof.
  induction fuel as [|fuel IH];
    intros env name parentTest env' resultCounts err Hrun; [done|].
  cbn [Run] in Hrun.
  destruct (SuiteMap (env_plan env) !! name) as [tc|] eqn:Htc;
    [|injection Hrun as <- <- <-; apply Balanced_empty].
  case_bool_decide; [injection Hrun as <- <- <-; apply Balanced_empty|].
  eapply (runTests_Balanced (Run fuel) name parentTest
            (length (TestSuite_Tests tc))); [| | | | | | | | | |exact Hrun].
  - intros env0 name0 parent0 env0' result0 Hrun0. split.
    + by eapply Run_declarations.
    + intros c e ->. by eapply IH.
  - unfold suiteLength. by rewrite Htc.
  - done.
  - done.
  - done.
  - done.
  - done.
  - done.
  - done.
  - done.
Qed.

(** X16.  The counters any call of [Run] returns add up, references and
    reconfiguration steps included: no counter is negative, passed, failed
    and skipped steps together are at most [Total], and schema mismatches
    are at most the executed steps. *)
Theorem Run_counters_add_up fuel env name parentTest env' resultCounts err :
  Run fuel env name parentTest = Some (env', Returned resultCounts err) →
  Balanced resultCounts.
Proof. apply Run_Balanced. Qed.
End EngineMore.

(** ** Execution engine and history *)

Section EngineHistory.
Context {Value : Type} `{!EqDecision Value, !Countable Value}.
Context `{runner : !StepRunner (Value := Value)}.
Implicit Types (plan : @TestPlan Value _ _) (tc : @TestSuite Value)
  (test dup : @Test Value) (env : Env) (resultCounts : gmap string Z)
  (tcErr : option error).

Lemma GetTest_app (tests more : list (@Test Value)) name :
  GetTest (tests ++ more) name =
  match GetTest more name with
  | Some t => Some t
  | None => GetTest tests name
  end.
Proof.
  induction more as [|t more IH] using rev_ind.
  - by rewrite app_nil_r.
  - rewrite app_assoc, !GetTest_snoc. by case_decide.
Qed.

(** X17.  A lookup in the history after a call of [Run] finds the
    duplicates of that call first, the last one of the name, and falls
    back on the history as it was before the call. *)
Theorem Run_history_lookup fuel env name parentTest env' result :
  Run fuel env name parentTest = Some (env', result) →
  ∃ executed,
    resultList (env_plan env') = resultList (env_plan env) ++ executed ∧
    env_History env' = env_History env ++ executed ∧
    ∀ wanted,
      GetTest (env_History env') wanted =
      match GetTest executed wanted with
      | Some dup => Some dup
      | None => GetTest (env_History env) wanted
      end.
Proof.
  intros Hrun. apply Run_Grows in Hrun
    as (executed & payloads & Hres & Hhist & _).
  exists executed. split; [done|]. split; [done|].
  intros wanted. rewrite Hhist. apply GetTest_app.
Qed.

(** X18.  A reference to a suite that is missing or empty ends the calling
    suite at once: wherever the loop stands and whatever it has counted,
    the call returns the error of the nested call with empty counters;
    the only thing written is the [Strict] flag of the reference step. *)
Theorem Run_missing_reference fuel name parentTest todo i env resultCounts tcErr
    tc test :
  SuiteMap (env_plan env) !! name = Some tc →
  TestSuite_Tests tc !! i = Some test →
  Test_Ref test ≠ "" →
  (∀ nested, SuiteMap (env_plan env) !! Test_Ref test = Some nested →
             TestSuite_Tests nested = []) →
  runTests (Run (S fuel)) name parentTest (S todo) i env resultCounts tcErr =
    Some (setSuite env name
            (TestSuite_with_Tests
               (<[i := Test_with_Strict (TestSuite_Strict tc) test]>
                  (TestSuite_Tests tc)) tc),
          Returned ∅
            (Some ("The following test suite is not found: " +:+ Test_Ref test))).
Proof.
  intros Htc Htest Href Hmissing.
  assert (Hother : Test_Ref test ≠ name).
  { intros Heq. rewrite Heq in Hmissing.
    by rewrite (Hmissing tc Htc) in Htest. }
  cbn [runTests deref]. rewrite Htc, Htest.
  rewrite bool_decide_eq_true_2 by done.
  cbn [Run setSuite env_plan SuiteMap TestPlan_with_suites].
  rewrite lookup_insert_ne by done.
  destruct (SuiteMap (env_plan env) !! Test_Ref test) as [nested|] eqn:Hnested;
    [|done].
  by rewrite (Hmissing nested eq_refl).
Qed.
End EngineHistory.

(* ===================================================================== *)
(** * Part IV: the properties on the sample data                          *)
(* ===================================================================== *)

Section Samples.
Import Sample.

(** C4 on [dstParams] and [srcParams]: "page" is in both, "limit" only in
    the destination, and both bodies are mappings. *)
Lemma Copy_source_wins_witness :
  QueryParams ∈ slots (Value := string) ∧
  is_Some (QueryParams srcParams !! "page") ∧
  QueryParams (Copy dstParams srcParams) !! "page" = Some "2" ∧
  QueryParams srcParams !! "limit" = None ∧
  QueryParams (Copy dstParams srcParams) !! "limit" = Some "10" ∧
  BodyParams (Copy dstParams scalarBody) = BodyValue "raw".
Proof.
  destruct (Copy_source_wins dstParams srcParams) as (Hslot & _).
  destruct (Copy_source_wins dstParams scalarBody) as (_ & _ & Hbody & _).
  assert (Hin : QueryParams ∈ slots (Value := string)) by apply list_elem_of_here.
  assert (Hpage : is_Some (QueryParams srcParams !! "page"))
    by (exists "2"; reflexivity).
  assert (Hlimit : QueryParams srcParams !! "limit" = None) by reflexivity.
  split; [exact Hin|]. split; [exact Hpage|].
  split; [rewrite (proj1 (Hslot QueryParams "page" Hin) Hpage); reflexivity|].
  split; [exact Hlimit|].
  split; [rewrite (proj2 (Hslot QueryParams "limit" Hin) Hlimit); reflexivity|].
  apply Hbody. right. intros m. discriminate.
Defined.

(** C5 on the same bundles. *)
Lemma Add_destination_wins_witness :
  QueryParams ∈ slots (Value := string) ∧
  is_Some (QueryParams dstParams !! "page") ∧
  QueryParams (Add dstParams srcParams) !! "page" = Some "1" ∧
  QueryParams dstParams !! "sort" = None ∧
  QueryParams (Add dstParams srcParams) !! "sort" = Some "asc" ∧
  BodyParams (Add scalarBody srcParams) = BodyValue "raw" ∧
  BodyParams (Add emptyParams srcParams) = BodyParams srcParams.
Proof.
  destruct (Add_destination_wins dstParams srcParams) as (Hslot & _).
  destruct (Add_destination_wins scalarBody srcParams) as (_ & _ & Hkeep).
  destruct (Add_destination_wins emptyParams srcParams) as (_ & _ & Hfill).
  assert (Hin : QueryParams ∈ slots (Value := string)) by apply list_elem_of_here.
  assert (Hpage : is_Some (QueryParams dstParams !! "page"))
    by (exists "1"; reflexivity).
  assert (Hsort : QueryParams dstParams !! "sort" = None) by reflexivity.
  split; [exact Hin|]. split; [exact Hpage|].
  split; [rewrite (proj1 (Hslot QueryParams "page" Hin) Hpage); reflexivity|].
  split; [exact Hsort|].
  split; [rewrite (proj2 (Hslot QueryParams "sort" Hin) Hsort); reflexivity|].
  split.
  - apply Hkeep; [left; intros m; discriminate|discriminate].
  - apply Hfill; [left; intros m; discriminate|reflexivity].
Defined.

(** The plan after the first chunk of [planFS]. *)
Example afterFirstChunk_pets :
  AddFromString (TestPlan_Init zeroPlan) "pets-v1" = (afterFirstChunk, None) ∧
  afterFirstChunk =
    TestPlan_with_suites {["pets" := petsSuite]} ["pets"] zeroPlan.
Proof. vm_compute. split; reflexivity. Qed.

(** C3 does not hold of [InitFromFile]: in [planFS] the first two chunks
    both declare the suite [pets] and the third does not decode, yet the
    load returns nil, keeps the first [pets], and goes on to register
    [users] from the last chunk. *)
Lemma InitFromFile_duplicate_not_reported :
  fs_text planFS !! "plan.yml" = Some planText ∧
  Split planText "---" = ["pets-v1"; "pets-v2"; ": oops"; "users"] ∧
  yaml_Unmarshal "pets-v1" =
    inr [("pets", [step "listPets" "" "get" "/pets" false])] ∧
  yaml_Unmarshal "pets-v2" =
    inr [("pets", addPet)] ∧
  (InitFromFile zeroPlan "plan.yml" planFS).2 = None ∧
  SuiteList (InitFromFile zeroPlan "plan.yml" planFS).1 = ["pets"; "users"] ∧
  SuiteMap (InitFromFile zeroPlan "plan.yml" planFS).1 !! "pets" = Some petsSuite ∧
  SuiteMap (InitFromFile zeroPlan "plan.yml" planFS).1 !! "users" = Some usersSuite.
Proof. vm_compute. repeat split. Qed.

(** C3, amended, on the second chunk of [planFS]: it is rejected after the
    first chunk, and accepted by a plan that has no suite [pets]. *)
Lemma AddFromString_duplicate_rejected_witness :
  yaml_Unmarshal "pets-v2" = inr ([] ++ ("pets", addPet) :: []) ∧
  "pets" ≠ MeqaInit ∧
  addSuites afterFirstChunk [] = (afterFirstChunk, None) ∧
  is_Some (SuiteMap afterFirstChunk !! "pets") ∧
  AddFromString afterFirstChunk "pets-v2" =
    (afterFirstChunk, Some (duplicateName "pets")) ∧
  SuiteMap afterFirstChunk !! "pets" = Some petsSuite ∧
  SuiteMap (addChunks afterFirstChunk ["pets-v2"; ": oops"; "users"]) !! "pets" =
    Some petsSuite ∧
  (AddFromString (TestPlan_Init zeroPlan) "pets-v2").2 = None.
Proof.
  pose (plan := afterFirstChunk). pose (tests := addPet).
  assert (Hdata : yaml_Unmarshal "pets-v2" = inr ([] ++ ("pets", tests) :: []))
    by reflexivity.
  assert (Hname : "pets" ≠ MeqaInit) by discriminate.
  assert (Hbefore : addSuites plan [] = (plan, None)) by reflexivity.
  assert (Hreg : SuiteMap plan !! "pets" = Some petsSuite)
    by (vm_compute; reflexivity).
  assert (Hseen : is_Some (SuiteMap plan !! "pets")) by (rewrite Hreg; eauto).
  destruct (AddFromString_duplicate_rejected plan "pets-v2" [] "pets" tests []
              plan Hdata Hname Hbefore Hseen) as (Hrun & _ & _ & Hstays & Honly).
  split; [exact Hdata|]. split; [exact Hname|]. split; [exact Hbefore|].
  split; [exact Hseen|]. split; [exact Hrun|]. split; [exact Hreg|].
  split; [exact (Hstays petsSuite ["pets-v2"; ": oops"; "users"] Hreg)|].
  destruct (AddFromString (TestPlan_Init zeroPlan) "pets-v2").2 as [err|] eqn:Herr;
    [|reflexivity].
  destruct (Honly (TestPlan_Init zeroPlan) err Herr) as (name0 & _ & _ & [tc Htc]).
  vm_compute in Htc. discriminate.
Defined.

(** C9 on [planFS]: the chunk after the duplicate and the undecodable one
    registers [users], and [users] is in the loaded plan. *)
Lemma InitFromFile_drops_chunk_errors_witness :
  fs_text planFS !! "plan.yml" = Some planText ∧
  Split planText "---" = firstChunks ++ "users" :: [] ∧
  SuiteMap
    (AddFromString (addChunks (TestPlan_Init zeroPlan) firstChunks) "users").1
    !! "users" = Some usersSuite ∧
  (AddFromString (addChunks (TestPlan_Init zeroPlan) ["pets-v1"]) "pets-v2").2 =
    Some (duplicateName "pets") ∧
  (InitFromFile zeroPlan "plan.yml" planFS).2 = None ∧
  SuiteMap (InitFromFile zeroPlan "plan.yml" planFS).1 !! "users" =
    Some usersSuite.
Proof.
  pose (data := planText). pose (before := firstChunks).
  assert (Hfile : fs_text planFS !! "plan.yml" = Some data) by reflexivity.
  assert (Hsplit : Split data "---" = before ++ "users" :: [])
    by (vm_compute; reflexivity).
  assert (Hreg : SuiteMap
            (AddFromString (addChunks (TestPlan_Init zeroPlan) before) "users").1
            !! "users" = Some usersSuite) by (vm_compute; reflexivity).
  destruct (InitFromFile_drops_chunk_errors zeroPlan "plan.yml" planFS)
    as [Herr Hkeep].
  split; [exact Hfile|]. split; [exact Hsplit|]. split; [exact Hreg|].
  split; [vm_compute; reflexivity|].
  split; [apply Herr; rewrite Hfile; eauto|].
  exact (Hkeep data Hfile before "users" [] "users" usersSuite Hsplit Hreg).
Defined.




(** C8 does not hold: after a run of [fuzzSuite], which meets the same
    failure in both of its steps, the summary reports two fuzz failures,
    while there is one distinct failure. *)
Lemma PrintSummary_counts_repeats :
  match Run 1 (envOf [fuzzSuite]) "fuzz" None with
  | Some (env', Returned _ None) =>
      NewFailures (env_plan env') = [sqli "sql"; sqli "sql"] ∧
      reported FuzzFails (PrintSummary (env_plan env')) = [2] ∧
      distinctFuzzFailures (env_plan env') = 1
  | _ => False
  end.
Proof. vm_compute. repeat split. Qed.

(** C1 on [crudSuite]: N = 4, and step 1 is a POST without path parameters
    that is answered with 500. *)
Lemma Run_cascading_skip_witness :
  SuiteMap (env_plan (envOf crud)) !! "crud" = Some crudSuite ∧
  Forall concrete (TestSuite_Tests crudSuite) ∧
  ∃ env' resultCounts err,
    Run 1 (envOf crud) "crud" None = Some (env', Returned resultCounts err) ∧
    length (resultList (env_plan env')) = 2%nat ∧
    env_world env' = ["/pets"; "/fail"] ∧
    resultCounts !! Skipped = Some 2.
Proof.
  assert (Htc : SuiteMap (env_plan (envOf crud)) !! "crud" = Some crudSuite)
    by reflexivity.
  assert (Hconcrete : Forall concrete (TestSuite_Tests crudSuite)).
  { repeat (apply Forall_cons_2; [by split|]). apply Forall_nil_2. }
  split; [exact Htc|]. split; [exact Hconcrete|].
  destruct (Run_cascading_skip 0 (envOf crud) "crud" None crudSuite Htc Hconcrete)
    as (env' & result & executed & Hrun & Hres & _ & Hskip).
  vm_compute in Hrun. injection Hrun as <- <-.
  vm_compute in Hres. subst executed.
  edestruct (Hskip 1%nat) as (_ & resultCounts & err & Hresult & Hcount);
    [reflexivity..|done|].
  eexists _, resultCounts, err. split; [by rewrite <- Hresult|].
  split; [reflexivity|]. split; [reflexivity|exact Hcount].
Defined.

(** C2 does not hold: the nested call of [outerSuite] returns the counters
    of [innerSuite] (Total 1, Passed 1) and nil, and the outer call
    returns its own counters: Total 2, and the one step it ran itself. *)
Lemma Run_nested_counters_not_adopted :
  returned (Run 1 nestedAtCall "inner" (Some (Declared "outer" 0%nat))) =
    Some (<[Passed := 1]> (startCounters 1), None) ∧
  returned (Run 2 (envOf nested) "outer" None) =
    Some (<[Passed := 1]> (startCounters 2), None).
Proof. vm_compute. split; reflexivity. Qed.

(** C2, amended, on [nested]. *)
Lemma Run_reference_counters_witness :
  SuiteMap (env_plan (envOf nested)) !! "outer" = Some outerSuite ∧
  TestSuite_Tests outerSuite !! 0%nat = Some callInner ∧
  Test_Ref callInner ≠ "" ∧
  match Run 1 nestedAtCall "inner" (Some (Declared "outer" 0%nat)) with
  | Some (env2, Returned nestedCounts None) =>
      runTests (Run 1) "outer" None 2 0 (envOf nested) (startCounters 2) None =
      runTests (Run 1) "outer" None 1 1 env2 (startCounters 2) None
  | _ => False
  end ∧
  match Run 2 (envOf nested) "outer" None with
  | Some (env', Returned resultCounts None) =>
      resultCounts !! Total = Some 2 ∧ resultCounts !! Failed = Some 0
  | _ => False
  end.
Proof.
  assert (Htc : SuiteMap (env_plan (envOf nested)) !! "outer" = Some outerSuite)
    by reflexivity.
  assert (Htest : TestSuite_Tests outerSuite !! 0%nat = Some callInner)
    by reflexivity.
  assert (Href : Test_Ref callInner ≠ "") by discriminate.
  destruct (Run_reference_counters 1) as [Hstep _].
  destruct (Run_reference_counters 2) as [_ Hown].
  split; [exact Htc|]. split; [exact Htest|]. split; [exact Href|]. split.
  - destruct (Run 1 nestedAtCall "inner" (Some (Declared "outer" 0%nat)))
      as [[env2 [nestedCounts [err|]|]]|] eqn:Hnested;
      try (vm_compute in Hnested; discriminate).
    exact (Hstep "outer" None 1%nat 0%nat (envOf nested) (startCounters 2) None
             outerSuite callInner env2 nestedCounts None Htc Htest Href Hnested).
  - destruct (Run 2 (envOf nested) "outer" None)
      as [[env' [resultCounts [err|]|]]|] eqn:Hrun;
      try (vm_compute in Hrun; discriminate).
    exact (Hown (envOf nested) "outer" None outerSuite env' resultCounts Htc Hrun).
Defined.

(** C7 does not hold: the reference step of [outerSuite] is declared
    strict, and after the run the declared step carries the suite's
    flag. *)
Lemma Run_overwrites_reference_Strict :
  deref (env_plan (envOf nested)) (Declared "outer" 0%nat) = Some callInner ∧
  Test_Strict callInner = true ∧
  match Run 2 (envOf nested) "outer" None with
  | Some (env', Returned _ None) =>
      deref (env_plan env') (Declared "outer" 0%nat) =
        Some (Test_with_Strict false callInner)
  | _ => False
  end.
Proof. vm_compute. repeat split. Qed.

(** C7, amended, on [nested]: the concrete step of [outerSuite] is as it
    was declared. *)
Lemma Run_keeps_declared_tests_witness :
  deref (env_plan (envOf nested)) (Declared "outer" 1%nat) = Some listPets ∧
  match Run 2 (envOf nested) "outer" None with
  | Some (env', _) =>
      declarations (env_plan env') = declarations (env_plan (envOf nested)) ∧
      deref (env_plan env') (Declared "outer" 1%nat) = Some listPets
  | None => False
  end.
Proof.
  assert (Htest : deref (env_plan (envOf nested)) (Declared "outer" 1%nat) =
                  Some listPets) by reflexivity.
  split; [exact Htest|].
  destruct (Run 2 (envOf nested) "outer" None) as [[env' result]|] eqn:Hrun;
    [|vm_compute in Hrun; discriminate].
  destruct (Run_keeps_declared_tests 2 (envOf nested) "outer" None env' result
              Hrun) as [Hdecl Htests].
  destruct (Htests "outer" 1%nat listPets Htest) as (test' & Hlook & _ & Hsame).
  rewrite (Hsame eq_refl) in Hlook. split; [exact Hdecl|exact Hlook].
Defined.
End Samples.

(** ** The loader on documents with defaults *)

Section DefaultsSamples.
Import Defaults.

(** X4 on two documents with the same entries: [orders] met after
    [meqa_init] is strict and has the page size; met before it, it has
    neither. *)
Lemma AddFromString_creates_with_current_defaults_witness :
  SuiteMap (AddFromString (TestPlan_Init zeroPlan) "init-then-orders").1 !! "orders" =
    Some (ordersSuite limit10 true) ∧
  SuiteMap (AddFromString (TestPlan_Init zeroPlan) "orders-then-init").1 !! "orders" =
    Some (ordersSuite emptyParams false).
Proof.
  set (plan := TestPlan_Init zeroPlan).
  pose (plan1 := foldl applyGlobal plan [strictDefaults]).
  assert (Hname : "orders" ≠ MeqaInit) by discriminate.
  split.
  - assert (Hdata : yaml_Unmarshal "init-then-orders" =
                    inr ([(MeqaInit, [strictDefaults])] ++
                         ("orders", [listOrders]) :: [])) by reflexivity.
    assert (Hbefore : addSuites plan [(MeqaInit, [strictDefaults])] = (plan1, None))
      by reflexivity.
    assert (Hfresh : SuiteMap plan1 !! "orders" = None) by reflexivity.
    rewrite (AddFromString_creates_with_current_defaults plan "init-then-orders"
               [(MeqaInit, [strictDefaults])] "orders" [listOrders] [] plan1
               Hdata Hname Hbefore Hfresh).
    reflexivity.
  - assert (Hdata : yaml_Unmarshal "orders-then-init" =
                    inr ([] ++ ("orders", [listOrders]) ::
                         [(MeqaInit, [strictDefaults])])) by reflexivity.
    assert (Hbefore : addSuites plan [] = (plan, None)) by reflexivity.
    assert (Hfresh : SuiteMap plan !! "orders" = None) by reflexivity.
    rewrite (AddFromString_creates_with_current_defaults plan "orders-then-init"
               [] "orders" [listOrders] [(MeqaInit, [strictDefaults])] plan
               Hdata Hname Hbefore Hfresh).
    reflexivity.
Defined.

(** X5 on a chunk whose [meqa_init] entry has two tests: the last one
    decides [Strict], and its page size replaces the one of the first. *)
Lemma AddFromString_meqa_init_witness :
  yaml_Unmarshal "init" = inr [(MeqaInit, [laxDefaults] ++ [strictDefaults])] ∧
  (AddFromString (TestPlan_Init zeroPlan) "init").2 = None ∧
  SuiteList (AddFromString (TestPlan_Init zeroPlan) "init").1 = [] ∧
  TestPlan_Strict (AddFromString (TestPlan_Init zeroPlan) "init").1 = true ∧
  TestPlan_TestParams (AddFromString (TestPlan_Init zeroPlan) "init").1 =
    limit10Sorted.
Proof.
  assert (Hdata : yaml_Unmarshal "init" =
                  inr [(MeqaInit, [laxDefaults] ++ [strictDefaults])])
    by reflexivity.
  destruct (AddFromString_meqa_init (TestPlan_Init zeroPlan) "init"
              [laxDefaults] strictDefaults Hdata)
    as (Herr & _ & Hlist & Hstrict & Hparams).
  split; [exact Hdata|]. split; [exact Herr|].
  split; [rewrite Hlist; reflexivity|]. split; [rewrite Hstrict; reflexivity|].
  rewrite Hparams. vm_compute. reflexivity.
Defined.

(** X6 on [ordersFS]: the suite [orders] of the loaded plan comes from an
    entry of a chunk of the file. *)
Lemma InitFromFile_provenance_witness :
  SuiteMap (InitFromFile zeroPlan "orders.yml" ordersFS).1 !! "orders" =
    Some (ordersSuite limit10 true) ∧
  ∃ chunk suiteMap tests,
    chunk ∈ Split "init-then-orders" "---" ∧
    yaml_Unmarshal chunk = inr suiteMap ∧
    ("orders", tests) ∈ suiteMap ∧
    [Init (Some "orders") listOrders] = Init (Some "orders") <$> tests.
Proof.
  assert (Hreg : SuiteMap (InitFromFile zeroPlan "orders.yml" ordersFS).1
                   !! "orders" = Some (ordersSuite limit10 true))
    by (vm_compute; reflexivity).
  split; [exact Hreg|].
  destruct (InitFromFile_provenance zeroPlan "orders.yml" ordersFS "orders"
              (ordersSuite limit10 true) Hreg)
    as (data & chunk & suiteMap & tests & Hfile & Hchunk & Hdec & Hin & Htests).
  injection Hfile as <-.
  exists chunk, suiteMap, tests. split; [exact Hchunk|]. split; [exact Hdec|].
  split; [exact Hin|exact Htests].
Defined.
End DefaultsSamples.

(** ** Further runs and corpora *)

Section MoreSamples.
Import Sample Cases.

(** X14 on [nested], run on top of [history]: the two executed duplicates
    come after the three tests of the history. *)
Lemma Run_only_appends_witness :
  match Run 2 resumed "outer" None with
  | Some (env', _) =>
      Grows resumed env' ∧
      take 3 (env_History env') = history ∧
      drop 3 (env_History env') = resultList (env_plan env') ∧
      Test_Path <$> resultList (env_plan env') = ["/ping"; "/pets"]
  | None => False
  end.
Proof.
  destruct (Run 2 resumed "outer" None)
    as [[env' result]|] eqn:Hrun; [|vm_compute in Hrun; discriminate].
  split.
  - exact (Run_only_appends 2 _ "outer" None env' result Hrun).
  - vm_compute in Hrun. injection Hrun as <- _. repeat split.
Defined.

(** X16 on [crud], whose second step is a creation that fails: one passed,
    one failed, two skipped, four in all. *)
Lemma Run_counters_add_up_witness :
  match Run 1 (envOf crud) "crud" None with
  | Some (env', Returned resultCounts err) =>
      Balanced resultCounts ∧
      count resultCounts <$> [Passed; Failed; Skipped; SchemaMismatch; Total] =
        [1; 1; 2; 0; 4]
  | _ => False
  end.
Proof.
  destruct (Run 1 (envOf crud) "crud" None)
    as [[env' [resultCounts err|]]|] eqn:Hrun;
    try (vm_compute in Hrun; discriminate).
  split.
  - exact (Run_counters_add_up 1 (envOf crud) "crud" None env' resultCounts err Hrun).
  - vm_compute in Hrun. injection Hrun as _ <- _. reflexivity.
Defined.

(** X15 on [crud]: two duplicates were executed, and the error returned is
    the one of the creation. *)
Lemma Run_concrete_tally_witness :
  SuiteMap (env_plan (envOf crud)) !! "crud" = Some crudSuite ∧
  Forall concrete (TestSuite_Tests crudSuite) ∧
  match Run 1 (envOf crud) "crud" None with
  | Some (env', Returned resultCounts err) =>
      Tally 4 (resultList (env_plan env')) resultCounts err ∧
      Test_Path <$> resultList (env_plan env') = ["/pets"; "/fail"] ∧
      err = Some "unexpected status"
  | _ => False
  end.
Proof.
  assert (Htc : SuiteMap (env_plan (envOf crud)) !! "crud" = Some crudSuite)
    by reflexivity.
  assert (Hsome : TestSuite_Tests crudSuite ≠ []) by discriminate.
  assert (Hconcrete : Forall concrete (TestSuite_Tests crudSuite)).
  { repeat (apply Forall_cons_2; [by split|]). apply Forall_nil_2. }
  split; [exact Htc|]. split; [exact Hconcrete|].
  destruct (Run 1 (envOf crud) "crud" None)
    as [[env' [resultCounts err|]]|] eqn:Hrun;
    try (vm_compute in Hrun; discriminate).
  destruct (Run_concrete_tally 0 (envOf crud) "crud" None crudSuite env'
              resultCounts err Htc Hsome Hconcrete Hrun)
    as (executed & Hres & _ & Htally).
  simpl in Hres. rewrite Hres. split; [exact Htally|].
  rewrite <- Hres. vm_compute in Hrun. injection Hrun as <- _ <-.
  split; reflexivity.
Defined.

(** X17 on [nested], run on top of [history]: [list] is now the duplicate
    of this run, [call] is the step of the inner suite under the name of
    the reference, and [create] is still the one of the history. *)
Lemma Run_history_lookup_witness :
  match Run 2 resumed "outer" None with
  | Some (env', _) =>
      Test_Path <$> GetTest history "list" = Some "/pets?page=2" ∧
      Test_Path <$> GetTest (env_History env') "list" = Some "/pets" ∧
      Test_Path <$> GetTest (env_History env') "call" = Some "/ping" ∧
      GetTest (env_History env') "create" = GetTest history "create"
  | None => False
  end.
Proof.
  destruct (Run 2 resumed "outer" None)
    as [[env' result]|] eqn:Hrun; [|vm_compute in Hrun; discriminate].
  destruct (Run_history_lookup 2 _ "outer" None env' result Hrun)
    as (executed & Hres & _ & Hlook).
  rewrite !Hlook. simpl in Hres. rewrite <- Hres.
  vm_compute in Hrun. injection Hrun as <- _. repeat split.
Defined.

(** X18 on [broken]: the second step refers to a suite that is not in the
    plan, and the run returns empty counters although its first step
    passed. *)
Lemma Run_missing_reference_witness :
  SuiteMap (env_plan (envOf broken)) !! "broken" = Some brokenSuite ∧
  TestSuite_Tests brokenSuite !! 1%nat = Some callNowhere ∧
  SuiteMap (env_plan (envOf broken)) !! "nowhere" = None ∧
  returned (runTests (Run 1) "broken" None 2 1 (envOf broken)
              (<[Passed := 1]> (startCounters 3)) None) =
    Some (∅, Some "The following test suite is not found: nowhere") ∧
  returned (Run 2 (envOf broken) "broken" None) =
    Some (∅, Some "The following test suite is not found: nowhere").
Proof.
  assert (Htc : SuiteMap (env_plan (envOf broken)) !! "broken" = Some brokenSuite)
    by reflexivity.
  assert (Htest : TestSuite_Tests brokenSuite !! 1%nat = Some callNowhere)
    by reflexivity.
  assert (Href : Test_Ref callNowhere ≠ "") by discriminate.
  assert (Hnone : SuiteMap (env_plan (envOf broken)) !! "nowhere" = None)
    by reflexivity.
  assert (Hmissing : ∀ nested,
            SuiteMap (env_plan (envOf broken)) !! Test_Ref callNowhere =
              Some nested → TestSuite_Tests nested = []).
  { intros nested Hfound. change (Test_Ref callNowhere) with "nowhere" in Hfound.
    rewrite Hnone in Hfound. discriminate. }
  split; [exact Htc|]. split; [exact Htest|]. split; [exact Hnone|]. split.
  - rewrite (Run_missing_reference 0 "broken" None 1 1%nat (envOf broken)
               (<[Passed := 1]> (startCounters 3)) None brokenSuite callNowhere
               Htc Htest Href Hmissing).
    reflexivity.
  - vm_compute. reflexivity.
Defined.

(** X8 on [knownFS], read twice for the fuzz type [xss]: the record of the
    other fuzz type is in [OtherFailures] twice. *)
Lemma ReadFails_twice_witness :
  ReadFails xssOnly "run" knownFS = (afterRead, None) ∧
  OtherFailures afterRead = [sqli "sql"] ∧
  ∃ plan2,
    ReadFails afterRead "run" knownFS = (plan2, None) ∧
    OldFailuresMap plan2 = OldFailuresMap afterRead ∧
    OtherFailures plan2 = [sqli "sql"; sqli "sql"].
Proof.
  assert (Hrun : ReadFails xssOnly "run" knownFS = (afterRead, None))
    by (vm_compute; reflexivity).
  split; [exact Hrun|]. split; [reflexivity|].
  destruct (ReadFails_twice xssOnly "run" knownFS afterRead Hrun)
    as (docs & records & plan2 & Hfile & Hdec & Hagain & Hold & _ & Hother).
  exists plan2. split; [exact Hagain|]. split; [exact Hold|].
  rewrite Hother.
  assert (Hrecords : records = [sqli "sql"; sqli "xss"]).
  { change (fs_records knownFS !! Join "run" MeqaFails)
      with (Some [sqlDoc; xssDoc]) in Hfile.
    injection Hfile as <-. apply (Decodes_inj _ _ _ Hdec). repeat constructor. }
  rewrite Hrecords. reflexivity.
Defined.

(** X9 on [knownFS] and [shuffledFS], which hold the same two documents. *)
Lemma ReadFails_order_irrelevant_witness :
  ReadFails xssOnly "run" knownFS = (afterRead, None) ∧
  (ReadFails xssOnly "again" shuffledFS).2 = None ∧
  OtherFailures (ReadFails xssOnly "again" shuffledFS).1 = [sqli "sql"] ∧
  ∀ e m f,
    lookupField (OldFailuresMap afterRead) e m f =
    lookupField (OldFailuresMap (ReadFails xssOnly "again" shuffledFS).1) e m f.
Proof.
  assert (Hrun : ReadFails xssOnly "run" knownFS = (afterRead, None))
    by (vm_compute; reflexivity).
  split; [exact Hrun|].
  assert (Hnil : (ReadFails xssOnly "again" shuffledFS).2 = None)
    by (vm_compute; reflexivity).
  split; [exact Hnil|].
  assert (Hagain : ReadFails xssOnly "again" shuffledFS =
                   ((ReadFails xssOnly "again" shuffledFS).1, None))
    by (rewrite <- Hnil; apply surjective_pairing).
  split.
  - vm_compute. reflexivity.
  - apply (ReadFails_order_irrelevant xssOnly "run" knownFS afterRead
             "again" shuffledFS _ Hrun Hagain).
    intros v.
    change (default [] (fs_records knownFS !! Join "run" MeqaFails))
      with [sqlDoc; xssDoc].
    change (default [] (fs_records shuffledFS !! Join "again" MeqaFails))
      with [xssDoc; sqlDoc; xssDoc].
    split; intros (doc & Hin & Hv); exists doc; (split; [|exact Hv]);
      revert Hin; rewrite !elem_of_cons, !elem_of_nil; tauto.
Defined.

(** X10 on [knownFS] in append mode: the two failures of the run come after
    the two documents the corpus held, and alone in the run-scoped file. *)
Lemma WriteFailures_files_witness :
  (Join "run" MeqaFails ∉ fs_denied knownFS) ∧
  (Join "run" NewFails ∉ fs_denied knownFS) ∧
  (∀ path, Encodes path [sqli "sql"; sqli "xss"] [sqlDoc; xssDoc]) ∧
  ∃ plan1 fs1,
    WriteFailures twoFailures "run" knownFS = (plan1, fs1, None) ∧
    fs_records fs1 !! Join "run" NewFails = Some [sqlDoc; xssDoc] ∧
    fs_records fs1 !! Join "run" MeqaFails =
      Some [sqlDoc; xssDoc; sqlDoc; xssDoc].
Proof.
  assert (Hmq : Join "run" MeqaFails ∉ fs_denied knownFS)
    by apply not_elem_of_empty.
  assert (Hnf : Join "run" NewFails ∉ fs_denied knownFS)
    by apply not_elem_of_empty.
  assert (Henc : ∀ path, Encodes path [sqli "sql"; sqli "xss"] [sqlDoc; xssDoc])
    by (intros path; repeat constructor).
  split; [exact Hmq|]. split; [exact Hnf|]. split; [exact Henc|].
  destruct (WriteFailures_files twoFailures "run" knownFS []
              [sqlDoc; xssDoc] [sqlDoc; xssDoc])
    as (plan1 & fs1 & Hwrite & _ & Hnew & Hcorpus & _);
    [exact Hmq|exact Hnf|constructor|apply Henc|apply Henc|].
  exists plan1, fs1. split; [exact Hwrite|].
  rewrite Hnew, Hcorpus. split; reflexivity.
Defined.

(** X11 on [knownFS], read and rewritten by a repro run for the fuzz type
    [xss]: the record of the fuzz type [sql] is kept, the former [xss]
    record is gone, and the failure of the run is added. *)
Lemma WriteFailures_repro_keeps_other_evidence_witness :
  ReadFails xssOnly "run" knownFS = (afterRead, None) ∧
  OtherFailures reproPlan = OtherFailures afterRead ∧
  fs_records knownFS !! Join "run" MeqaFails = Some [sqlDoc; xssDoc] ∧
  (∀ path, Encodes path [sqli "sql"] [sqlDoc]) ∧
  (∀ path, Encodes path [script] [scriptDoc]) ∧
  Decodes [sqlDoc] [sqli "sql"] ∧
  Decodes [scriptDoc] [script] ∧
  ∃ plan' fs',
    WriteFailures reproPlan "run" knownFS = (plan', fs', None) ∧
    fs_records fs' !! Join "run" MeqaFails = Some [sqlDoc; scriptDoc].
Proof.
  assert (Hread : ReadFails xssOnly "run" knownFS = (afterRead, None))
    by (vm_compute; reflexivity).
  assert (Hfresh : OtherFailures xssOnly = []) by reflexivity.
  assert (Hother : OtherFailures reproPlan = OtherFailures afterRead)
    by reflexivity.
  assert (Hrepro : Repro reproPlan = true) by reflexivity.
  assert (Hmq : Join "run" MeqaFails ∉ fs_denied knownFS)
    by apply not_elem_of_empty.
  assert (Hnf : Join "run" NewFails ∉ fs_denied knownFS)
    by apply not_elem_of_empty.
  assert (Hsql : ∀ path, Encodes path [sqli "sql"] [sqlDoc])
    by (intros path; repeat constructor).
  assert (Hscript : ∀ path, Encodes path [script] [scriptDoc])
    by (intros path; repeat constructor).
  assert (Hsql' : Decodes [sqlDoc] [sqli "sql"]) by repeat constructor.
  assert (Hscript' : Decodes [scriptDoc] [script]) by repeat constructor.
  split; [exact Hread|]. split; [exact Hother|]. split; [reflexivity|].
  split; [exact Hsql|]. split; [exact Hscript|]. split; [exact Hsql'|].
  split; [exact Hscript'|].
  destruct (WriteFailures_repro_keeps_other_evidence xssOnly "run" knownFS
              afterRead reproPlan [sqlDoc] [scriptDoc] [scriptDoc])
    as (docs & records & plan' & fs' & _ & _ & Hwrite & Hcorpus & _);
    [exact Hread|exact Hfresh|exact Hother|exact Hrepro|exact Hmq|exact Hnf|
     apply Hsql|apply Hscript|apply Hscript|apply Hsql'|apply Hscript'|].
  exists plan', fs'. split; [exact Hwrite|exact Hcorpus].
Defined.

(** X19 on [knownFS] in repro mode, and on [corpusFS] in append mode.  In
    the first the second carried record cannot be encoded: the corpus is
    left with the first one, and its former [xss] record and the failure of
    the run are in no file.  In the second the second failure cannot be
    encoded: both files hold the first one, and the metadata is in the
    first two records and not in the third. *)
Lemma WriteFailures_encode_fails_witness :
  json_Encode (Join "run" MeqaFails) nan = inl "json: unsupported value: NaN" ∧
  (∃ fs',
     WriteFailures reproNaN "run" knownFS =
       (reproNaN, fs', Some "json: unsupported value: NaN") ∧
     fs_records fs' !! Join "run" MeqaFails = Some [sqlDoc] ∧
     fs_records fs' !! Join "run" NewFails = Some []) ∧
  (∃ plan' fs',
     WriteFailures threeFailures "run" corpusFS =
       (plan', fs', Some "json: unsupported value: NaN") ∧
     NewFailures plan' =
       [Payload_with_Meta build42 (sqli "sql"); Payload_with_Meta build42 nan;
        script] ∧
     fs_records fs' !! Join "run" MeqaFails = Some [sqlBuild] ∧
     fs_records fs' !! Join "run" NewFails = Some [sqlBuild]).
Proof.
  assert (Hnan : json_Encode (Join "run" MeqaFails) nan =
                 inl "json: unsupported value: NaN") by reflexivity.
  split; [exact Hnan|]. split.
  - destruct (WriteFailures_encode_fails reproNaN "run" knownFS) as [Hcarried _];
      [apply not_elem_of_empty..|].
    apply (Hcarried [sqli "sql"] [sqlDoc] nan _ []);
      [reflexivity|reflexivity|repeat constructor|exact Hnan].
  - destruct (WriteFailures_encode_fails threeFailures "run" corpusFS) as [_ Hnew];
      [apply not_elem_of_empty..|].
    destruct (Hnew [] [sqli "sql"] [sqlBuild] [sqlBuild] nan [script])
      as [Hfail _]; [constructor|reflexivity|repeat constructor..|].
    destruct (Hfail "json: unsupported value: NaN" eq_refl)
      as (plan' & fs' & Hwrite & Hplan & Hmq & Hnf).
    exists plan', fs'. split; [exact Hwrite|]. split; [exact Hplan|].
    split; [exact Hmq|exact Hnf].
Defined.

(** X1 on [history]: the appended test hides the older tests of its name
    and no other. *)
Lemma GetTest_Append_witness :
  GetTest (Append history listPets) "list" = Some listPets ∧
  GetTest (Append history listPets) "create" =
    Some (step "create" "" "post" "/pets" false).
Proof.
  destruct (GetTest_Append history listPets "create") as [Hnew Hold].
  split; [exact Hnew|]. rewrite Hold by discriminate. reflexivity.
Defined.

(** X2 on [history]: of the two tests named [list] the later one is found,
    and no test is named [remove]. *)
Lemma GetTest_last_match_witness :
  GetTest history "list" = Some (step "list" "" "get" "/pets?page=2" false) ∧
  GetTest history "remove" = None.
Proof.
  split.
  - apply (proj1 (GetTest_last_match history "list")). exists 2%nat.
    split; [reflexivity|]. split; [reflexivity|].
    intros [|[|[|j]]] t' Hlt Hj; try lia. discriminate.
  - apply (proj2 (GetTest_last_match history "remove")).
    intros t. unfold history. rewrite !elem_of_cons, elem_of_nil.
    intros [->|[->|[->|[]]]]; discriminate.
Defined.

(** X7 on [truncatedFS], read for the fuzz type [xss]: the record before
    the bad document is in [OtherFailures], the one after it was not read,
    and [OldFailuresMap] is still empty. *)
Lemma ReadFails_error_behaviour_witness :
  json_Decode "{" = inl "unexpected end of JSON input" ∧
  (ReadFails xssOnly "run" truncatedFS).2 = Some "unexpected end of JSON input" ∧
  OldFailuresMap (ReadFails xssOnly "run" truncatedFS).1 = ∅ ∧
  OtherFailures (ReadFails xssOnly "run" truncatedFS).1 = [sqli "sql"] ∧
  (ReadFails xssOnly "missing" truncatedFS).1 = xssOnly.
Proof.
  assert (Hbadv : json_Decode "{" = inl "unexpected end of JSON input")
    by reflexivity.
  destruct (ReadFails_error_behaviour xssOnly "run" truncatedFS)
    as (_ & _ & Hbad).
  destruct (ReadFails_error_behaviour xssOnly "missing" truncatedFS)
    as (_ & Hmissing & _).
  destruct (Hbad [sqlDoc] [sqli "sql"] "{" _ [xssDoc] eq_refl
              ltac:(repeat constructor) Hbadv)
    as (Herr & Hold & _ & Hother).
  split; [exact Hbadv|]. split; [exact Herr|]. split; [rewrite Hold; reflexivity|].
  split; [rewrite Hother; reflexivity|]. apply Hmissing. reflexivity.
Defined.

(** X12 on [lockedFS] in repro mode: the run-scoped file cannot be opened,
    the call returns the error, and the cumulative file has lost its two
    records. *)
Lemma WriteFailures_open_fails_witness :
  (Join "run" MeqaFails ∉ fs_denied lockedFS) ∧
  Join "run" NewFails ∈ fs_denied lockedFS ∧
  fs_records lockedFS !! Join "run" MeqaFails = Some [sqlDoc; xssDoc] ∧
  ∃ err fs',
    WriteFailures reproPlan "run" lockedFS = (reproPlan, fs', Some err) ∧
    fs_records fs' !! Join "run" MeqaFails = Some [].
Proof.
  assert (Hmq : Join "run" MeqaFails ∉ fs_denied lockedFS).
  { unfold lockedFS. cbn [fs_denied]. rewrite elem_of_singleton.
    apply not_eq_sym, Join_MeqaFails_NewFails. }
  assert (Hnf : Join "run" NewFails ∈ fs_denied lockedFS).
  { unfold lockedFS. cbn [fs_denied]. by apply elem_of_singleton. }
  split; [exact Hmq|]. split; [exact Hnf|]. split; [reflexivity|].
  destruct (WriteFailures_open_fails reproPlan "run" lockedFS) as [_ Hrun].
  destruct (Hrun Hmq Hnf) as (err & fs' & Hwrite & Hcorpus & _).
  exists err, fs'. split; [exact Hwrite|exact Hcorpus].
Defined.
End MoreSamples.
